(** * CRM automation core: incident ingestion, schedule optimisation, risk scoring

    A shallow embedding of [app/routes.py] and [app/models.py]:

    - [ingest_zabbix_event]: the Zabbix webhook that deduplicates monitoring
      events on [(source, external_id)] and opens or updates a ticket;
    - [SEVERITY_PRIORITY_MAP]: the severity escalation table;
    - [optimise_schedule]: the greedy single-pass dispatch planner;
    - [calculate_churn_risk] and [calculate_engineer_load]: the two scorers;
    - [sanitise_theme], [sanitise_appointment_status] and the two routes
      that write appointments, [create_client_appointment] and
      [update_appointment];
    - [analytics_forecasts], which runs the two scorers over the database;
    - [complete_task];
    - [login_user] and the three two-factor routes;
    - the tags of a knowledge base article, as the routes store them and
      [KnowledgeBaseArticle.to_dict] reports them.

    Python [float]s are IEEE binary64 numbers and are modelled by Rocq's
    primitive floats, which are the same numbers; Python [int]s are [Z];
    insertion-ordered [dict]s are association lists; the SQL tables are lists
    of rows in insertion order. *)

From Stdlib Require Import ZArith Floats Uint63 Lia String Ascii DecimalString Sorted.
From stdpp Require Import base option list gmap strings.

Set Warnings "-inexact-float".
#[local] Open Scope string_scope.
#[local] Open Scope Z_scope.

(** ** Python values and builtins *)

Module Py.

(** A decoded JSON scalar, as [request.get_json()] hands it to a route:
    [None], a [bool], an [int] or a [str]. Numbers with a fraction and
    objects are left out; the only array the modelled routes read is the
    [engineers] member of the optimiser request, which is kept apart as a
    list of scalars. *)
Inductive json :=
| JNull
| JBool (b : bool)
| JInt (n : Z)
| JStr (s : string).

#[global] Instance json_eq_dec : EqDecision json.
Proof. solve_decision. Defined.

(** [bool(v)] *)
Definition truthy (v : json) : bool :=
  match v with
  | JNull => false
  | JBool b => b
  | JInt n => negb (n =? 0)
  | JStr s => negb (String.eqb s "")
  end.

(** [a or b] on JSON values *)
Definition or_else (a : option json) (b : json) : json :=
  match a with
  | Some v => if truthy v then v else b
  | None => b
  end.

(** [str(v)] *)
Definition py_str (v : json) : string :=
  match v with
  | JNull => "None"
  | JBool true => "True"
  | JBool false => "False"
  | JInt n => NilZero.string_of_int (Z.to_int n)
  | JStr s => s
  end.

Definition lower_ascii (c : ascii) : ascii :=
  let n := N_of_ascii c in
  if ((65 <=? n) && (n <=? 90))%N then ascii_of_N (n + 32) else c.

(** [s.lower()]; strings are byte strings, and the bytes of a character
    outside ASCII are left as they are. *)
Fixpoint lower (s : string) : string :=
  match s with
  | EmptyString => EmptyString
  | String c s' => String (lower_ascii c) (lower s')
  end.

(** *** Exceptions and [flask.abort] *)

Inductive exn := TypeError | ValueError | KeyError | OverflowError.

(** What a route does: it returns, aborts with an HTTP status, or lets an
    exception escape (which Flask answers with status 500). A route that
    does not return leaves the database as it was: its session is rolled
    back. *)
Inductive outcome (A : Type) :=
| Return (a : A)
| Abort (code : Z)
| Uncaught (e : exn).
Arguments Return {A} a.
Arguments Abort {A} code.
Arguments Uncaught {A} e.

#[global] Instance outcome_ret : MRet outcome := fun A a => Return a.
#[global] Instance outcome_bind : MBind outcome := fun A B f m =>
  match m with
  | Return a => f a
  | Abort code => Abort code
  | Uncaught e => Uncaught e
  end.

(** [try: m except ValueError: abort(400)] *)
Definition except_ValueError_400 {A} (m : outcome A) : outcome A :=
  match m with
  | Uncaught ValueError => Abort 400
  | _ => m
  end.

(** [try: m except (TypeError, ValueError): abort(400)] *)
Definition except_TypeError_ValueError_400 {A} (m : outcome A) : outcome A :=
  match m with
  | Uncaught ValueError | Uncaught TypeError => Abort 400
  | _ => m
  end.

(** *** Dates and times

    A naive [datetime] is a count of microseconds and a [date] a count of
    days, both from the same origin, the day before 0001-01-01 (the days
    are those of [date.toordinal()]). The arithmetic is that of the
    integers: Python raises [OverflowError] where a result leaves the
    years 1 to 9999, and the bounds within which it does not are stated
    apart, where the optimiser is concerned ([in_calendar],
    [is_timedelta]). *)
Definition date := Z.
Definition datetime := Z.

Definition us_per_minute : Z := 60000000.
Definition us_per_day : Z := 86400000000.

(** [timedelta(minutes=n)] *)
Definition timedelta_minutes (n : Z) : Z := n * us_per_minute.
(** [time(hour=h, minute=m)] *)
Definition time_of_day (hour minute : Z) : Z := (hour * 60 + minute) * us_per_minute.
Definition time_min : Z := 0.
Definition time_max : Z := us_per_day - 1.
(** [datetime.combine(d, t)] *)
Definition combine (d : date) (t : Z) : datetime := d * us_per_day + t.
(** [dt.date()] *)
Definition date_of (dt : datetime) : date := dt / us_per_day.
(** [delta.days] *)
Definition timedelta_days (delta : Z) : Z := delta / us_per_day.

(** The two parsers of the Python library that the routes call on strings:
    [int(s)] and [datetime.fromisoformat(s)]; [None] stands for
    [ValueError]. *)
Class Builtins := {
  int_of_str : string -> option Z;
  fromisoformat : string -> option datetime;
}.

(** [int(v)] *)
Definition py_int `{Builtins} (v : json) : outcome Z :=
  match v with
  | JInt n => Return n
  | JBool b => Return (if b then 1 else 0)
  | JStr s =>
      match int_of_str s with
      | Some n => Return n
      | None => Uncaught ValueError
      end
  | JNull => Uncaught TypeError
  end.

(** [datetime.fromisoformat(v)] *)
Definition datetime_fromisoformat `{Builtins} (v : json) : outcome datetime :=
  match v with
  | JStr s =>
      match fromisoformat s with
      | Some dt => Return dt
      | None => Uncaught ValueError
      end
  | _ => Uncaught TypeError
  end.

(** *** Floats *)

(** [float(z)], the conversion applied to the [int] operand of a mixed
    operation: the nearest binary64 number, ties to even. (Beyond the range
    of binary64 Python raises [OverflowError] where this gives an infinity;
    the scorers convert counts of list elements and sums of durations.) *)
Definition float_of_int (z : Z) : float :=
  SF2Prim (binary_normalize prec emax z 0 false).

Definition spec_of_int (z : Z) : spec_float :=
  match z with
  | Z0 => S754_zero false
  | Zpos p => S754_finite false p 0
  | Zneg p => S754_finite true p 0
  end.

(** [a / b] on two [int]s: the correctly rounded quotient. The only
    divisor in the modelled code is the constant [8 * 60]. *)
Definition truediv (a b : Z) : float :=
  SF2Prim (SFdiv prec emax (spec_of_int a) (spec_of_int b)).

(** [min(a, b)]: the first argument unless the second is smaller. *)
Definition py_min (a b : float) : float :=
  if (b <? a)%float then b else a.

(** The integer nearest to [num / den], ties to even ([0 < den]). *)
Definition round_half_even (num den : Z) : Z :=
  let q := num / den in
  match 2 * (num mod den) ?= den with
  | Lt => q
  | Gt => q + 1
  | Eq => if Z.even q then q else q + 1
  end.

(** [round(x, 2)]: the exact value of [x] is rounded to two decimals, ties
    to even, and the decimal is converted back to the nearest float. *)
Definition round2 (x : float) : float :=
  match Prim2SF x with
  | S754_finite s m e =>
      let hundredths :=
        if 0 <=? e then Z.pos m * 100 * 2 ^ e
        else round_half_even (Z.pos m * 100) (2 ^ (- e)) in
      let r := truediv hundredths 100 in
      if s then (- r)%float else r
  | _ => x
  end.

(** *** Insertion-ordered dictionaries with string keys *)

Definition dict (V : Type) := list (string * V).

Fixpoint dict_get {V} (k : string) (d : dict V) : option V :=
  match d with
  | [] => None
  | (k', v) :: d' => if String.eqb k k' then Some v else dict_get k d'
  end.

(** [d[k] = v]: an existing key keeps its place, a new one goes last. *)
Fixpoint dict_set {V} (k : string) (v : V) (d : dict V) : dict V :=
  match d with
  | [] => [(k, v)]
  | (k', v') :: d' =>
      if String.eqb k k' then (k', v) :: d' else (k', v') :: dict_set k v d'
  end.

Definition dict_keys {V} (d : dict V) : list string := d.*1.

End Py.
Export Py.

(** ** The models of [app/models.py]

    Only the columns the modelled routes read or write are kept; the
    [created_at]/[updated_at] stamps of [TimestampMixin] are kept where a
    route reads them ([Client.updated_at]). A column that receives a member
    of the request body unconverted has type [json]. *)

Module Client.
Record t := mk { id : Z; name : string; updated_at : datetime }.
End Client.

Module Ticket.
Record t := mk {
  id : Z;
  client_id : Z;
  subject : string;
  description : json;
  priority : string;
  status : string;
  assigned_to : json;
  due_date : option date;
}.
Definition set_status (v : string) (x : t) : t :=
  mk (id x) (client_id x) (subject x) (description x) (priority x) v
     (assigned_to x) (due_date x).
Definition set_due_date (v : option date) (x : t) : t :=
  mk (id x) (client_id x) (subject x) (description x) (priority x) (status x)
     (assigned_to x) v.
End Ticket.

Module Task.
Record t := mk {
  id : Z;
  client_id : option Z;
  status : string;
  priority : string;
  due_date : option date;
  assigned_to : option string;
}.
End Task.

Module Appointment.
Record t := mk {
  id : Z;
  client_id : Z;
  start_time : datetime;
  duration_minutes : Z;
  status : string;
  assigned_to : option string;
}.
End Appointment.

Module MonitoringIncident.
Record t := mk {
  id : Z;
  client_id : Z;
  source : string;
  external_id : string;
  severity : string;
  message : json;
  status : string;
  occurred_at : datetime;
  ticket_id : option Z;
}.
Definition set_status (v : string) (x : t) : t :=
  mk (id x) (client_id x) (source x) (external_id x) (severity x) (message x)
     v (occurred_at x) (ticket_id x).
Definition set_severity (v : string) (x : t) : t :=
  mk (id x) (client_id x) (source x) (external_id x) v (message x)
     (status x) (occurred_at x) (ticket_id x).
Definition set_message (v : json) (x : t) : t :=
  mk (id x) (client_id x) (source x) (external_id x) (severity x) v
     (status x) (occurred_at x) (ticket_id x).
End MonitoringIncident.

(** The database: one list of rows per table, oldest row first. *)
Record Store := {
  clients : list Client.t;
  tickets : list Ticket.t;
  tasks : list Task.t;
  appointments : list Appointment.t;
  incidents : list MonitoringIncident.t;
}.

(** The key an integer primary key column gives a new row: one past the
    largest key in the table. *)
Definition next_id (ids : list Z) : Z := 1 + foldr Z.max 0 ids.

(** The range of the database's INTEGER type, 64 bits with a sign. The
    keys of the rows lie in it; the driver refuses to bind an [int] beyond
    it and raises [OverflowError]. *)
Definition is_INTEGER (n : Z) : bool := (- 2 ^ 63 <=? n) && (n <? 2 ^ 63).

(** [x or None] on a nullable string column *)
Definition or_None (x : option string) : option string :=
  match x with
  | Some s => if String.eqb s "" then None else Some s
  | None => None
  end.

(** ** Risk scoring *)

Module Scoring.

(** [sum(1 for x in xs if P x)] *)
Definition count {A} (P : A -> Prop) `{forall x, Decision (P x)} (xs : list A) : Z :=
  Z.of_nat (length (filter P xs)).

Definition overdue (today : date) (task : Task.t) : Prop :=
  Task.status task <> "completed" /\
  exists d, Task.due_date task = Some d /\ d < today.

#[global] Instance overdue_dec today task : Decision (overdue today task).
Proof.
  unfold overdue. destruct (Task.due_date task) as [d|].
  - destruct (decide (Task.status task <> "completed" /\ d < today)) as [Hy|Hn].
    + left. destruct Hy. split; [assumption|]. exists d. split; [reflexivity|assumption].
    + right. intros [H1 (d' & Hd & Hlt)]. injection Hd as <-. apply Hn. split; assumption.
  - right. intros [_ (d' & Hd & _)]. discriminate.
Defined.

Definition churn_label (probability : float) : string :=
  if (0.6 <=? probability)%float then "high"
  else if (0.35 <=? probability)%float then "medium"
  else "low".

(** [calculate_churn_risk]; [utcnow] is the reading of [datetime.utcnow()]. *)
Definition calculate_churn_risk (utcnow : datetime) (client : Client.t)
    (tickets : list Ticket.t) (tasks : list Task.t)
    (appointments : list Appointment.t) : float * string :=
  let open_tickets := count (fun ticket => Ticket.status ticket = "open") tickets in
  let high_priority :=
    count (fun ticket => Ticket.status ticket = "open" /\ Ticket.priority ticket = "high")
          tickets in
  let overdue_tasks := count (overdue (date_of utcnow)) tasks in
  let missed_appointments :=
    count (fun appt => Appointment.status appt = "cancelled") appointments in
  let days_since_touch := timedelta_days (utcnow - Client.updated_at client) in
  let probability := 0.05%float in
  let probability :=
    (probability + py_min 0.3 (float_of_int open_tickets * 0.05))%float in
  let probability :=
    (probability + py_min 0.3 (float_of_int high_priority * 0.1))%float in
  let probability :=
    (probability + py_min 0.2 (float_of_int overdue_tasks * 0.08))%float in
  let probability :=
    (probability + if negb (missed_appointments =? 0)%Z then 0.1 else float_of_int 0)%float in
  let probability :=
    (probability + if (30 <? days_since_touch)%Z then 0.05 else float_of_int 0)%float in
  let probability := py_min probability 0.95 in
  (probability, churn_label probability).

(** The arithmetic of [calculate_churn_risk] on the four counts and the
    two flags it derives from them. *)
Definition churn_probability (open_tickets high_priority overdue_tasks : Z)
    (missed stale : bool) : float :=
  py_min
    (0.05 + py_min 0.3 (float_of_int open_tickets * 0.05)
          + py_min 0.3 (float_of_int high_priority * 0.1)
          + py_min 0.2 (float_of_int overdue_tasks * 0.08)
          + (if missed then 0.1 else float_of_int 0)
          + (if stale then 0.05 else float_of_int 0))%float
    0.95.

(** *** Engineer load *)

Record Workload := { open_tasks : Z; scheduled_minutes : Z }.

(** The factory of the [defaultdict]. *)
Definition no_work : Workload := {| open_tasks := 0; scheduled_minutes := 0 |}.

(** [workload[k][field] += n] on the [defaultdict]: a missing key is first
    inserted, last, with the factory's value. *)
Definition bump (k : string) (f : Workload -> Workload) (workload : dict Workload)
    : dict Workload :=
  dict_set k (f (default no_work (dict_get k workload))) workload.

Definition add_task (workload : dict Workload) (task : Task.t) : dict Workload :=
  match or_None (Task.assigned_to task) with
  | Some engineer =>
      if decide (Task.status task <> "completed") then
        bump engineer
             (fun w => {| open_tasks := open_tasks w + 1;
                          scheduled_minutes := scheduled_minutes w |})
             workload
      else workload
  | None => workload
  end.

Definition add_appointment (workload : dict Workload) (appointment : Appointment.t)
    : dict Workload :=
  match or_None (Appointment.assigned_to appointment) with
  | Some engineer =>
      if decide (Appointment.status appointment = "scheduled") then
        bump engineer
             (fun w => {| open_tasks := open_tasks w;
                          scheduled_minutes :=
                            scheduled_minutes w + Appointment.duration_minutes appointment |})
             workload
      else workload
  | None => workload
  end.

Record Forecast := {
  engineer : string;
  forecast_open_tasks : Z;
  forecast_scheduled_minutes : Z;
  utilisation : float;
  status : string;
}.

Definition utilisation_of (data : Workload) : float :=
  py_min 1.0 (truediv (scheduled_minutes data) (8 * 60)).

Definition score_of (data : Workload) : float :=
  py_min 1.0 (float_of_int (open_tasks data) * 0.05 + utilisation_of data)%float.

Definition status_of (score : float) : string :=
  if (0.8 <=? score)%float then "overloaded"
  else if (score <=? 0.35)%float then "underutilised"
  else "balanced".

(** The body of the loop over [workload.items()]. *)
Definition forecast (item : string * Workload) : Forecast :=
  let '(engineer, data) := item in
  let utilisation := utilisation_of data in
  let score := score_of data in
  {| engineer := engineer;
     forecast_open_tasks := open_tasks data;
     forecast_scheduled_minutes := scheduled_minutes data;
     utilisation := round2 utilisation;
     status := status_of score |}.

(** [calculate_engineer_load], the list under the key ["engineers"]. *)
Definition calculate_engineer_load (tasks : list Task.t)
    (appointments : list Appointment.t) : list Forecast :=
  let workload := foldl add_task [] tasks in
  let workload := foldl add_appointment workload appointments in
  forecast <$> workload.

End Scoring.

(** ** Incident ingestion: [POST /integrations/zabbix/events] *)

Module Ingest.

Definition SEVERITY_PRIORITY_MAP : gmap string string :=
  {[ "disaster" := "high";
     "high" := "high";
     "average" := "normal";
     "warning" := "normal";
     "information" := "low";
     "not_classified" := "low" ]}.

(** [SEVERITY_PRIORITY_MAP.get(severity, "normal")] *)
Definition priority_of_severity (severity : string) : string :=
  default "normal" (SEVERITY_PRIORITY_MAP !! severity).

(** The filter [source="zabbix", external_id=...] of the lookup. *)
Definition same_event (external_id : string) (i : MonitoringIncident.t) : bool :=
  bool_decide (MonitoringIncident.source i = "zabbix" /\
               MonitoringIncident.external_id i = external_id).

Definition has_id (tid : Z) (t : Ticket.t) : bool := bool_decide (Ticket.id t = tid).

(** The relationship [incident.ticket]. *)
Definition linked_ticket (tickets : list Ticket.t) (i : MonitoringIncident.t)
    : option Ticket.t :=
  match MonitoringIncident.ticket_id i with
  | Some tid => find (has_id tid) tickets
  | None => None
  end.

(** An attribute write to the first row that satisfies [P], the row a
    [.first()] or a relationship has loaded. *)
Fixpoint alter_first {A} (P : A -> bool) (f : A -> A) (rows : list A) : list A :=
  match rows with
  | [] => []
  | x :: rows' => if P x then f x :: rows' else x :: alter_first P f rows'
  end.

(** [Client.query.get_or_404(client_id)]: the row of that key, 404 when
    there is none, and [OverflowError] when [client_id], which is then
    the key of no row, is beyond the INTEGER range. *)
Definition get_or_404 (client_id : Z) (rows : list Client.t) : outcome Client.t :=
  match find (fun c => bool_decide (Client.id c = client_id)) rows with
  | Some c => Return c
  | None => if is_INTEGER client_id then Abort 404 else Uncaught OverflowError
  end.

(** The JSON body of the response with its HTTP status:
    [incident.to_dict(include_ticket=True)]. *)
Record Response := {
  incident : MonitoringIncident.t;
  ticket : option Ticket.t;
  status_code : Z;
}.

(** The route answers 201 when it has created the incident, 200 otherwise. *)
Definition created (r : Response) : bool := status_code r =? 201.

Definition resolves (new_status : string) : bool :=
  bool_decide (new_status = "resolved" \/ new_status = "ok").

(** The branch [if existing:]. The commit is the write of the rows; it is
    that of a request whose [message] is text (SQLite keeps the text of
    another scalar, and rejects null). *)
Definition update_existing (db : Store) (data : gmap string json)
    (existing : MonitoringIncident.t) (severity : string) (message : json)
    : Store * Response :=
  let key := same_event (MonitoringIncident.external_id existing) in
  let '(existing1, tickets1) :=
    match data !! "status" with
    | Some raw_status =>
        if truthy raw_status then
          let new_status := lower (py_str raw_status) in
          (MonitoringIncident.set_status new_status existing,
           match linked_ticket (tickets db) existing with
           | Some t =>
               if resolves new_status then
                 alter_first (has_id (Ticket.id t)) (Ticket.set_status "resolved")
                             (tickets db)
               else tickets db
           | None => tickets db
           end)
        else (existing, tickets db)
    | None => (existing, tickets db)
    end in
  let existing2 :=
    MonitoringIncident.set_message message
      (MonitoringIncident.set_severity severity existing1) in
  ({| clients := clients db;
      tickets := tickets1;
      tasks := tasks db;
      appointments := appointments db;
      incidents := alter_first key (fun _ => existing2) (incidents db) |},
   {| incident := existing2;
      ticket := linked_ticket tickets1 existing2;
      status_code := 200 |}).

(** The rest of the route, reached when the lookup finds nothing. The
    commit is again the write of the rows, for a request whose [message]
    and [assigned_to] are text. *)
Definition create_incident `{Builtins} (utcnow : datetime) (db : Store)
    (data : gmap string json) (client : Client.t) (event_id : json)
    (severity priority : string) (message : json) : outcome (Store * Response) :=
  let ticket_subject :=
    or_else (data !! "problem") (JStr ("Zabbix incident " +:+ py_str event_id)) in
  let ticket_description := message in
  let ticket :=
    {| Ticket.id := next_id (Ticket.id <$> tickets db);
       Ticket.client_id := Client.id client;
       Ticket.subject := "[Zabbix] " +:+ py_str ticket_subject;
       Ticket.description := ticket_description;
       Ticket.priority := priority;
       Ticket.status := "open";
       Ticket.assigned_to := or_else (data !! "assigned_to") (JStr "Monitoring");
       Ticket.due_date := None |} in
  let ticket :=
    if String.eqb priority "high"
    then Ticket.set_due_date (Some (date_of utcnow + 1)) ticket
    else ticket in
  occurred_at ←
    match data !! "occurred_at" with
    | Some raw =>
        if truthy raw then except_ValueError_400 (datetime_fromisoformat raw)
        else Return utcnow
    | None => Return utcnow
    end;
  let incident :=
    {| MonitoringIncident.id := next_id (MonitoringIncident.id <$> incidents db);
       MonitoringIncident.client_id := Client.id client;
       MonitoringIncident.source := "zabbix";
       MonitoringIncident.external_id := py_str event_id;
       MonitoringIncident.severity := severity;
       MonitoringIncident.message := message;
       MonitoringIncident.status :=
         lower (py_str (default (JStr "open") (data !! "status")));
       MonitoringIncident.occurred_at := occurred_at;
       MonitoringIncident.ticket_id := Some (Ticket.id ticket) |} in
  Return ({| clients := clients db;
             tickets := tickets db ++ [ticket];
             tasks := tasks db;
             appointments := appointments db;
             incidents := incidents db ++ [incident] |},
          {| incident := incident; ticket := Some ticket; status_code := 201 |}).

(** [ingest_zabbix_event]: [data] is the decoded request body, [utcnow] the
    reading of the clock, [db] the database before the request; the result
    carries the database after the commit. *)
Definition ingest_zabbix_event `{Builtins} (utcnow : datetime) (db : Store)
    (data : gmap string json) : outcome (Store * Response) :=
  match data !! "event_id", data !! "client_id", data !! "severity", data !! "message" with
  | Some event_id, Some raw_client_id, Some raw_severity, Some message =>
      client_id ← except_TypeError_ValueError_400 (py_int raw_client_id);
      client ← get_or_404 client_id (clients db);
      let severity := lower (py_str raw_severity) in
      let priority := priority_of_severity severity in
      match find (same_event (py_str event_id)) (incidents db) with
      | Some existing => Return (update_existing db data existing severity message)
      | None => create_incident utcnow db data client event_id severity priority message
      end
  | _, _, _, _ => Abort 400
  end.

(** The tickets that the incidents of one event are linked to. *)
Definition tickets_of_event (db : Store) (external_id : string) : list Ticket.t :=
  filter (fun t => Exists (fun i => same_event external_id i = true /\
                                    MonitoringIncident.ticket_id i = Some (Ticket.id t))
                          (incidents db))
         (tickets db).

End Ingest.

(** ** Schedule optimisation: [POST /schedule/optimize] *)

Module Schedule.

(** The request body: its scalar members, and the [engineers] array
    ([data.get("engineers") or []], empty when the member is absent). *)
Record Request := {
  body : gmap string json;
  engineers : list json;
}.

(** One entry of ["suggestions"]; the instants are kept as [datetime]s,
    which [isoformat()] renders one to one. *)
Record Suggestion := {
  appointment_id : Z;
  client : option string;
  assigned_engineer : option string;
  recommended_engineer : string;
  current_start : datetime;
  optimized_start : datetime;
  optimized_end : datetime;
  travel_buffer_minutes : Z;
  notes : option string;
}.

Record Plan := {
  date : date;
  appointments_considered : Z;
  reassignments : Z;
  suggestions : list Suggestion;
  generated_at : datetime;
}.

(** The variables the loop over the appointments updates. *)
Record Loop := {
  engineer_slots : dict datetime;
  reassigned : Z;
  suggested : list Suggestion;
}.

(** [min(engineer_slots, key=engineer_slots.get)]: the first key, in
    insertion order, whose slot is the least. *)
Fixpoint min_key_from (best : string) (best_slot : datetime) (d : dict datetime)
    : string :=
  match d with
  | [] => best
  | (k, v) :: d' =>
      if v <? best_slot then min_key_from k v d' else min_key_from best best_slot d'
  end.

Definition min_key (d : dict datetime) : option string :=
  match d with
  | [] => None
  | (k, v) :: d' => Some (min_key_from k v d')
  end.

(** [appointment.client.name if appointment.client else None] *)
Definition client_name (rows : list Client.t) (client_id : Z) : option string :=
  Client.name <$> find (fun c => bool_decide (Client.id c = client_id)) rows.

(** The second half of the loop body: the suggestion for [appointment]
    once its [engineer] is chosen, [slot] being [engineer_slots[engineer]]. *)
Definition suggest (db : Store) (day_end : datetime) (travel_buffer : Z)
    (appointment : Appointment.t) (engineer : string) (slot : datetime) : Suggestion :=
  let suggested_start := Z.max (Appointment.start_time appointment) slot in
  let reason :=
    if Appointment.start_time appointment <? suggested_start
    then Some "Resolved overlap with preceding visit" else None in
  let suggested_end :=
    suggested_start + timedelta_minutes (Appointment.duration_minutes appointment) in
  let reason :=
    if day_end <? suggested_end + timedelta_minutes travel_buffer
    then Some "Extends beyond workday; consider another engineer" else reason in
  {| appointment_id := Appointment.id appointment;
     client := client_name (clients db) (Appointment.client_id appointment);
     assigned_engineer := Appointment.assigned_to appointment;
     recommended_engineer := engineer;
     current_start := Appointment.start_time appointment;
     optimized_start := suggested_start;
     optimized_end := suggested_end;
     travel_buffer_minutes := travel_buffer;
     notes := reason |}.

(** The body of [for appointment in appointments:]. *)
Definition step (db : Store) (day_start day_end : datetime) (travel_buffer : Z)
    (st : Loop) (appointment : Appointment.t) : outcome Loop :=
  let engineer := or_None (Appointment.assigned_to appointment) in
  let slots :=
    match engineer with
    | Some e =>
        match dict_get e (engineer_slots st) with
        | Some _ => engineer_slots st
        | None => dict_set e day_start (engineer_slots st)
        end
    | None => engineer_slots st
    end in
  let '(engineer, slots, reassigned) :=
    match engineer with
    | Some e => (e, slots, reassigned st)
    | None =>
        match min_key slots with
        | Some e => (e, slots, reassigned st + 1)
        | None => ("Unassigned", dict_set "Unassigned" day_start slots, reassigned st + 1)
        end
    end in
  match dict_get engineer slots with
  | None => Uncaught KeyError
  | Some slot =>
      let suggestion := suggest db day_end travel_buffer appointment engineer slot in
      Return
        {| engineer_slots :=
             dict_set engineer
                      (optimized_end suggestion + timedelta_minutes travel_buffer) slots;
           reassigned := reassigned;
           suggested := suggested st ++ [suggestion] |}
  end.

Fixpoint loop (db : Store) (day_start day_end : datetime) (travel_buffer : Z)
    (st : Loop) (todo : list Appointment.t) : outcome Loop :=
  match todo with
  | [] => Return st
  | appointment :: todo' =>
      st' ← step db day_start day_end travel_buffer st appointment;
      loop db day_start day_end travel_buffer st' todo'
  end.

(** [.order_by(Appointment.start_time.asc())]: rows with equal start times
    keep their table order. *)
Fixpoint insert_by_start (a : Appointment.t) (sorted : list Appointment.t)
    : list Appointment.t :=
  match sorted with
  | [] => [a]
  | b :: sorted' =>
      if Appointment.start_time b <? Appointment.start_time a
      then b :: insert_by_start a sorted'
      else a :: b :: sorted'
  end.

Definition order_by_start_time (rows : list Appointment.t) : list Appointment.t :=
  foldr insert_by_start [] rows.

Definition in_window (start_window end_window : datetime) (a : Appointment.t) : Prop :=
  Appointment.status a = "scheduled" /\
  start_window <= Appointment.start_time a /\
  Appointment.start_time a <= end_window.

(** The query of the route: the scheduled appointments of the target day,
    by start time. *)
Definition scheduled_on (target_date : Py.date) (rows : list Appointment.t)
    : list Appointment.t :=
  order_by_start_time
    (filter (in_window (combine target_date time_min) (combine target_date time_max))
            rows).

(** [optimise_schedule], on instants that are integers: no operation on
    dates overflows. *)
Definition optimise_schedule `{Builtins} (utcnow : datetime) (db : Store)
    (request : Request) : outcome Plan :=
  let data := body request in
  match data !! "date" with
  | None => Abort 400
  | Some raw_date =>
      parsed ← except_ValueError_400 (datetime_fromisoformat raw_date);
      let target_date := date_of parsed in
      travel_buffer ← py_int (default (JInt 30) (data !! "travel_buffer_minutes"));
      workday_minutes ← py_int (default (JInt (8 * 60)) (data !! "workday_minutes"));
      let engineers_input := engineers request in
      let day_start := combine target_date (time_of_day 9 0) in
      let day_end := day_start + timedelta_minutes workday_minutes in
      let engineer_slots :=
        foldl (fun slots engineer => dict_set (py_str engineer) day_start slots)
              [] engineers_input in
      let appointments := scheduled_on target_date (appointments db) in
      final ← loop db day_start day_end travel_buffer
                {| engineer_slots := engineer_slots; reassigned := 0; suggested := [] |}
                appointments;
      Return {| date := target_date;
                appointments_considered := Z.of_nat (length appointments);
                reassignments := reassigned final;
                suggestions := suggested final;
                generated_at := utcnow |}
  end.

(** The suggestions made to one engineer, in processing order. *)
Definition suggestions_for (engineer : string) (l : list Suggestion) : list Suggestion :=
  filter (fun s => recommended_engineer s = engineer) l.

(** Every element of [l] and its successor satisfy [R]. *)
Fixpoint chain {A} (R : A -> A -> Prop) (l : list A) : Prop :=
  match l with
  | x :: (y :: _) as l' => R x y /\ chain R l'
  | _ => True
  end.

(** Each start is at least the previous end plus the buffer. *)
Definition respects_buffer (s s' : Suggestion) : Prop :=
  optimized_end s + timedelta_minutes (travel_buffer_minutes s) <= optimized_start s'.

(** Successive end times, the buffer added, do not decrease. *)
Definition ends_nondecreasing (s s' : Suggestion) : Prop :=
  optimized_end s + timedelta_minutes (travel_buffer_minutes s)
  <= optimized_end s' + timedelta_minutes (travel_buffer_minutes s').

End Schedule.

(** ** Plain instances of the library parsers

    [int] and [fromisoformat] restricted to the plain forms [-?[0-9]+] and
    [YYYY-MM-DD], on which they agree with Python's; they serve to run the
    routes on concrete requests. *)

Module Plain.

Definition digit (c : ascii) : option Z :=
  let n := N_of_ascii c in
  if ((48 <=? n) && (n <=? 57))%N then Some (Z.of_N n - 48) else None.

Fixpoint digits_from (acc : Z) (s : string) : option Z :=
  match s with
  | EmptyString => Some acc
  | String c s' =>
      match digit c with
      | Some d => digits_from (10 * acc + d) s'
      | None => None
      end
  end.

Definition unsigned (s : string) : option Z :=
  match s with
  | EmptyString => None
  | _ => digits_from 0 s
  end.

Definition decimal (s : string) : option Z :=
  match s with
  | String "-" s' => Z.opp <$> unsigned s'
  | _ => unsigned s
  end.

Definition is_leap (y : Z) : bool :=
  (y mod 4 =? 0) && (negb (y mod 100 =? 0) || (y mod 400 =? 0)).

Definition days_in_month (y m : Z) : Z :=
  if m =? 2 then (if is_leap y then 29 else 28)
  else if (m =? 4) || (m =? 6) || (m =? 9) || (m =? 11) then 30
  else 31.

Definition days_before_year (y : Z) : Z :=
  let y' := y - 1 in y' * 365 + y' / 4 - y' / 100 + y' / 400.

Definition days_before_month (y m : Z) : Z :=
  foldr Z.add 0 (days_in_month y <$> seqZ 1 (m - 1)).

(** [date(y, m, d).toordinal()] *)
Definition ordinal (y m d : Z) : Z := days_before_year y + days_before_month y m + d.

Definition iso_date (s : string) : option datetime :=
  if (String.length s =? 10)%nat &&
     String.eqb (substring 4 1 s) "-" && String.eqb (substring 7 1 s) "-"
  then
    match unsigned (substring 0 4 s), unsigned (substring 5 2 s),
          unsigned (substring 8 2 s) with
    | Some y, Some m, Some d =>
        if (1 <=? y) && (1 <=? m) && (m <=? 12) && (1 <=? d) && (d <=? days_in_month y m)
        then Some (combine (ordinal y m d) time_min)
        else None
    | _, _, _ => None
    end
  else None.

Definition builtins : Builtins :=
  {| int_of_str := decimal; fromisoformat := iso_date |}.

End Plain.

(** ** Further routes

    As before a commit is the write of the rows. A lookup by a key beyond
    the range of the database's INTEGER type finds no row and raises
    [OverflowError], as in [Ingest.get_or_404]. *)

(** ** Sanitisers: [sanitise_theme] and [sanitise_appointment_status]

    Both are modelled on the values of their annotation, [Optional[str]]. *)

Module Sanitise.

Definition ALLOWED_APPOINTMENT_STATUSES : list string :=
  ["scheduled"; "completed"; "cancelled"].

(** [sanitise_theme] *)
Definition sanitise_theme (value : option string) : string :=
  match or_None value with
  | Some v => if bool_decide (lower v ∈ ["light"; "dark"]) then lower v else "light"
  | None => "light"
  end.

(** [sanitise_appointment_status] *)
Definition sanitise_appointment_status (value : option string) : outcome string :=
  match or_None value with
  | None => Return "scheduled"
  | Some v =>
      let status := lower v in
      if bool_decide (status ∈ ALLOWED_APPOINTMENT_STATUSES) then Return status
      else Abort 400
  end.

End Sanitise.

(** ** Appointments: [POST /clients/<id>/appointments] and
    [PUT /appointments/<id>] *)

Module Appointments.
Import Sanitise.

(** The UTC offset, in microseconds, of a string that [fromisoformat]
    reads as an aware datetime; [None] for a naive one. *)
Class Zones := { utcoffset : string -> option Z }.

(** [parse_iso_datetime]: an aware datetime is converted to UTC and made
    naive. *)
Definition parse_iso_datetime `{Builtins} `{Zones} (value : string) : outcome datetime :=
  match fromisoformat value with
  | None => Abort 400
  | Some dt =>
      Return (match utcoffset value with
              | Some offset => dt - offset
              | None => dt
              end)
  end.

(** The request body: its scalar members, and apart from them the
    members [status] and [assigned_to] on the values the API gives them, a
    string or null ([Some None]); [None] stands for an absent member. (A
    status of another JSON type makes [.lower()] raise; the text columns
    [title], [description], [location] and [notes], which the routes copy
    and nothing modelled reads, are left out.) *)
Record Request := {
  body : gmap string json;
  status : option (option string);
  assigned_to : option (option string);
}.

Definition set_assigned_to (v : option string) (x : Appointment.t) : Appointment.t :=
  Appointment.mk (Appointment.id x) (Appointment.client_id x) (Appointment.start_time x)
                 (Appointment.duration_minutes x) (Appointment.status x) v.
Definition set_status (v : string) (x : Appointment.t) : Appointment.t :=
  Appointment.mk (Appointment.id x) (Appointment.client_id x) (Appointment.start_time x)
                 (Appointment.duration_minutes x) v (Appointment.assigned_to x).
Definition set_start_time (v : datetime) (x : Appointment.t) : Appointment.t :=
  Appointment.mk (Appointment.id x) (Appointment.client_id x) v
                 (Appointment.duration_minutes x) (Appointment.status x)
                 (Appointment.assigned_to x).
Definition set_duration_minutes (v : Z) (x : Appointment.t) : Appointment.t :=
  Appointment.mk (Appointment.id x) (Appointment.client_id x) (Appointment.start_time x)
                 v (Appointment.status x) (Appointment.assigned_to x).

Definition has_id (appointment_id : Z) (a : Appointment.t) : bool :=
  bool_decide (Appointment.id a = appointment_id).

Definition with_appointments (db : Store) (rows : list Appointment.t) : Store :=
  {| clients := clients db; tickets := tickets db; tasks := tasks db;
     appointments := rows; incidents := incidents db |}.

(** [create_client_appointment]; the result is the database after the
    commit and the appointment the route answers, with status 201. *)
Definition create_client_appointment `{Builtins} `{Zones} (db : Store) (client_id : Z)
    (request : Request) : outcome (Store * Appointment.t) :=
  _ ← Ingest.get_or_404 client_id (clients db);
  let data := body request in
  match data !! "start_time" with
  | None => Abort 400
  | Some raw_start =>
      start_time ← parse_iso_datetime (py_str raw_start);
      duration_minutes ←
        except_TypeError_ValueError_400
          (py_int (default (JInt 60) (data !! "duration_minutes")));
      if duration_minutes <=? 0 then Abort 400
      else
        status ← sanitise_appointment_status (mjoin (status request));
        let appointment :=
          {| Appointment.id := next_id (Appointment.id <$> appointments db);
             Appointment.client_id := client_id;
             Appointment.start_time := start_time;
             Appointment.duration_minutes := duration_minutes;
             Appointment.status := status;
             Appointment.assigned_to := mjoin (assigned_to request) |} in
        Return (with_appointments db (appointments db ++ [appointment]), appointment)
  end.

(** [update_appointment] *)
Definition update_appointment `{Builtins} `{Zones} (db : Store) (appointment_id : Z)
    (request : Request) : outcome (Store * Appointment.t) :=
  match find (has_id appointment_id) (appointments db) with
  | None => if is_INTEGER appointment_id then Abort 404 else Uncaught OverflowError
  | Some appointment =>
      let data := body request in
      let appointment :=
        match assigned_to request with
        | Some v => set_assigned_to v appointment
        | None => appointment
        end in
      appointment ←
        match status request with
        | Some v => status ← sanitise_appointment_status v;
                    Return (set_status status appointment)
        | None => Return appointment
        end;
      appointment ←
        match data !! "start_time" with
        | Some raw_start =>
            if truthy raw_start
            then start_time ← parse_iso_datetime (py_str raw_start);
                 Return (set_start_time start_time appointment)
            else Return appointment
        | None => Return appointment
        end;
      appointment ←
        match data !! "duration_minutes" with
        | Some JNull => Abort 400
        | Some raw_duration =>
            duration ← except_TypeError_ValueError_400 (py_int raw_duration);
            if duration <=? 0 then Abort 400
            else Return (set_duration_minutes duration appointment)
        | None => Return appointment
        end;
      Return (with_appointments db
                (Ingest.alter_first (has_id appointment_id) (fun _ => appointment)
                                    (appointments db)),
              appointment)
  end.

End Appointments.

(** ** Tasks: [POST /tasks/<id>/complete] *)

Module Tasks.

Definition set_status (v : string) (x : Task.t) : Task.t :=
  Task.mk (Task.id x) (Task.client_id x) v (Task.priority x) (Task.due_date x)
          (Task.assigned_to x).

Definition has_id (task_id : Z) (t : Task.t) : bool := bool_decide (Task.id t = task_id).

(** [complete_task]; the stamp [completed_at], which nothing modelled
    reads, is left out of the row. *)
Definition complete_task (db : Store) (task_id : Z) : outcome (Store * Task.t) :=
  match find (has_id task_id) (tasks db) with
  | None => if is_INTEGER task_id then Abort 404 else Uncaught OverflowError
  | Some task =>
      let task := set_status "completed" task in
      Return ({| clients := clients db; tickets := tickets db;
                 tasks := Ingest.alter_first (has_id task_id) (fun _ => task) (tasks db);
                 appointments := appointments db; incidents := incidents db |},
              task)
  end.

End Tasks.

(** ** Analytics: [GET /analytics/forecasts] *)

Module Analytics.

Record Prediction := {
  client_id : Z;
  client_name : string;
  churn_probability : float;
  churn_level : string;
  open_tickets : Z;
  open_high_priority_tickets : Z;
  open_tasks : Z;
  monitoring_incidents : Z;
  recommendation : string;
}.

Record Forecasts := {
  client_churn : list Prediction;
  engineer_load : list Scoring.Forecast;
  total_clients : Z;
  high_risk_clients : Z;
  generated_at : datetime;
}.

(** [.order_by(Client.name)]: by the bytes of the name; rows with equal
    names keep their table order. *)
Fixpoint insert_by_name (c : Client.t) (sorted : list Client.t) : list Client.t :=
  match sorted with
  | [] => [c]
  | b :: sorted' =>
      if String.ltb (Client.name b) (Client.name c)
      then b :: insert_by_name c sorted'
      else c :: b :: sorted'
  end.

Definition order_by_name (rows : list Client.t) : list Client.t :=
  foldr insert_by_name [] rows.

(** The relationships [client.tickets], [client.tasks],
    [client.appointments] and [client.monitoring_incidents]. *)
Definition tickets_of (db : Store) (client : Client.t) : list Ticket.t :=
  filter (fun t => Ticket.client_id t = Client.id client) (tickets db).
Definition tasks_of (db : Store) (client : Client.t) : list Task.t :=
  filter (fun t => Task.client_id t = Some (Client.id client)) (tasks db).
Definition appointments_of (db : Store) (client : Client.t) : list Appointment.t :=
  filter (fun a => Appointment.client_id a = Client.id client) (appointments db).
Definition incidents_of (db : Store) (client : Client.t) : list MonitoringIncident.t :=
  filter (fun i => MonitoringIncident.client_id i = Client.id client) (incidents db).

(** The variables of the loop over the clients; [turn] counts the clients
    seen, and the readings of the clock. *)
Record Loop := {
  turn : nat;
  churn_predictions : list Prediction;
  high_risk : Z;
}.

(** The body of [for client in clients:]; [clock k] is the reading of
    [datetime.utcnow()] while the client number [k] is scored. *)
Definition step (clock : nat -> datetime) (db : Store) (st : Loop) (client : Client.t)
    : Loop :=
  let tickets := tickets_of db client in
  let tasks := tasks_of db client in
  let appointments := appointments_of db client in
  let '(probability, label) :=
    Scoring.calculate_churn_risk (clock (turn st)) client tickets tasks appointments in
  let recommendation := "Maintain regular check-ins" in
  let '(high_risk, recommendation) :=
    if String.eqb label "high"
    then (high_risk st + 1, "Escalate to account manager for recovery plan")
    else if String.eqb label "medium"
    then (high_risk st, "Schedule proactive review within two weeks")
    else (high_risk st, recommendation) in
  {| turn := S (turn st);
     churn_predictions :=
       churn_predictions st ++
       [{| client_id := Client.id client;
           client_name := Client.name client;
           churn_probability := round2 probability;
           churn_level := label;
           open_tickets :=
             Scoring.count (fun ticket => Ticket.status ticket = "open") tickets;
           open_high_priority_tickets :=
             Scoring.count (fun ticket => Ticket.status ticket = "open" /\
                                          Ticket.priority ticket = "high") tickets;
           open_tasks := Scoring.count (fun task => Task.status task <> "completed") tasks;
           monitoring_incidents :=
             Scoring.count (fun incident => MonitoringIncident.status incident <> "resolved")
                           (incidents_of db client);
           recommendation := recommendation |}];
     high_risk := high_risk |}.

(** [analytics_forecasts] *)
Definition analytics_forecasts (clock : nat -> datetime) (db : Store) : Forecasts :=
  let clients := order_by_name (clients db) in
  let final :=
    foldl (step clock db) {| turn := 0; churn_predictions := []; high_risk := 0 |} clients in
  {| client_churn := churn_predictions final;
     engineer_load := Scoring.calculate_engineer_load (tasks db) (appointments db);
     total_clients := Z.of_nat (length clients);
     high_risk_clients := high_risk final;
     generated_at := clock (turn final) |}.

End Analytics.

(** ** Accounts: login and two-factor authentication *)

Module User.
Record t := mk {
  id : Z;
  username : json;
  email : json;
  password_hash : string;
  two_factor_enabled : bool;
  two_factor_secret : option string;
}.
Definition set_two_factor (enabled : bool) (secret : option string) (x : t) : t :=
  mk (id x) (username x) (email x) (password_hash x) enabled secret.
End User.

Module Auth.

(** The library calls of the routes: [check_password_hash(pwhash,
    password)] of werkzeug, and of pyotp [TOTP(secret).verify(otp)] at an
    instant and [TOTP(secret).provisioning_uri(name, issuer_name="CRM Desk")]. *)
Class Library := {
  check_password_hash : string -> json -> outcome bool;
  totp_verify : option string -> string -> datetime -> outcome bool;
  provisioning_uri : string -> json -> string;
}.

(** What a route answers. *)
Inductive Answer :=
| LoginSuccessful (user : User.t)
| TwoFactorRequired (user_id : Z)
| SetupStarted (secret : string) (uri : string)
| TwoFactorEnabled (user : User.t)
| TwoFactorDisabled (user : User.t).

Definition has_id (user_id : Z) (u : User.t) : bool := bool_decide (User.id u = user_id).

(** [require_user] *)
Definition require_user (users : list User.t) (user_id : Z) : outcome User.t :=
  match find (has_id user_id) users with
  | Some user => Return user
  | None => if is_INTEGER user_id then Abort 404 else Uncaught OverflowError
  end.

(** [login_user]; [utcnow] is the instant at which the code is verified.
    The lookup is that of a username that is text (the database compares
    a number with the stored names as its text). *)
Definition login_user `{Builtins} `{Library} (utcnow : datetime) (users : list User.t)
    (data : gmap string json) : outcome Answer :=
  let username := default JNull (data !! "username") in
  let password := default JNull (data !! "password") in
  if negb (truthy username) || negb (truthy password) then Abort 400
  else
    match find (fun u => bool_decide (User.username u = username)) users with
    | None => Abort 401
    | Some user =>
        ok ← check_password_hash (User.password_hash user) password;
        if negb ok then Abort 401
        else if User.two_factor_enabled user then
          let otp := default JNull (data !! "otp") in
          if negb (truthy otp) then Return (TwoFactorRequired (User.id user))
          else
            valid ← totp_verify (User.two_factor_secret user) (py_str otp) utcnow;
            if negb valid then Abort 401 else Return (LoginSuccessful user)
        else Return (LoginSuccessful user)
    end.

Definition write (users : list User.t) (user : User.t) : list User.t :=
  Ingest.alter_first (has_id (User.id user)) (fun _ => user) users.

(** [setup_two_factor]; [secret] is the draw of [pyotp.random_base32()]. *)
Definition setup_two_factor `{Builtins} `{Library} (secret : string) (users : list User.t)
    (data : gmap string json) : outcome (list User.t * Answer) :=
  let user_id := default JNull (data !! "user_id") in
  let password := default JNull (data !! "password") in
  if bool_decide (user_id = JNull) || bool_decide (password = JNull) then Abort 400
  else
    user_id ← py_int user_id;
    user ← require_user users user_id;
    ok ← check_password_hash (User.password_hash user) password;
    if negb ok then Abort 401
    else
      let user := User.set_two_factor false (Some secret) user in
      Return (write users user,
              SetupStarted secret (provisioning_uri secret (User.email user))).

(** [verify_two_factor] *)
Definition verify_two_factor `{Builtins} `{Library} (utcnow : datetime)
    (users : list User.t) (data : gmap string json) : outcome (list User.t * Answer) :=
  let user_id := default JNull (data !! "user_id") in
  let otp := default JNull (data !! "otp") in
  if bool_decide (user_id = JNull) || bool_decide (otp = JNull) then Abort 400
  else
    user_id ← py_int user_id;
    user ← require_user users user_id;
    match or_None (User.two_factor_secret user) with
    | None => Abort 400
    | Some _ =>
        valid ← totp_verify (User.two_factor_secret user) (py_str otp) utcnow;
        if negb valid then Abort 401
        else
          let user := User.set_two_factor true (User.two_factor_secret user) user in
          Return (write users user, TwoFactorEnabled user)
    end.

(** [disable_two_factor] *)
Definition disable_two_factor `{Builtins} `{Library} (users : list User.t)
    (data : gmap string json) : outcome (list User.t * Answer) :=
  let user_id := default JNull (data !! "user_id") in
  let password := default JNull (data !! "password") in
  if bool_decide (user_id = JNull) || bool_decide (password = JNull) then Abort 400
  else
    user_id ← py_int user_id;
    user ← require_user users user_id;
    ok ← check_password_hash (User.password_hash user) password;
    if negb ok then Abort 401
    else
      let user := User.set_two_factor false None user in
      Return (write users user, TwoFactorDisabled user).

End Auth.

(** ** The knowledge base: the tags of an article *)

Module KnowledgeBase.

(** [",".join(tags)] *)
Fixpoint join_comma (tags : list string) : string :=
  match tags with
  | [] => ""
  | [tag] => tag
  | tag :: tags' => String.append tag (String "," (join_comma tags'))
  end.

(** [text.split(",")] *)
Fixpoint split_comma (text : string) : list string :=
  match text with
  | EmptyString => [""]
  | String c text' =>
      if Ascii.eqb c ","
      then "" :: split_comma text'
      else match split_comma text' with
           | piece :: pieces => String c piece :: pieces
           | [] => [String c ""]
           end
  end.

(** The whitespace of [str.strip()] among the ASCII characters: tab to
    carriage return, the four separators, and the space. *)
Definition is_space (c : ascii) : bool :=
  let n := N_of_ascii c in
  ((9 <=? n) && (n <=? 13) || (28 <=? n) && (n <=? 32))%N.

Fixpoint drop_spaces (l : list ascii) : list ascii :=
  match l with
  | c :: l' => if is_space c then drop_spaces l' else l
  | [] => []
  end.

(** [tag.strip()] *)
Definition strip (tag : string) : string :=
  string_of_list_ascii
    (rev (drop_spaces (rev (drop_spaces (list_ascii_of_string tag))))).

(** The member [tags] of a request: an array of strings, or else a string
    or null. *)
Inductive tags_member :=
| TagList (tags : list string)
| TagText (text : option string).

(** What [create_knowledge_base_article] and
    [update_knowledge_base_article] write to the column [tags]. *)
Definition stored_tags (member : tags_member) : option string :=
  match member with
  | TagList tags => Some (join_comma tags)
  | TagText text => text
  end.

(** The entry ["tags"] of [KnowledgeBaseArticle.to_dict]. *)
Definition tag_list (tags : option string) : list string :=
  filter (fun tag => tag <> "") (strip <$> split_comma (default "" (or_None tags))).

End KnowledgeBase.

(** ** Auxiliary definitions for the proofs *)

(** [m * 2 ^ e] counted in units of [2 ^ c], for [c <= e]: the scale on which
    the values of two binary floats are compared. *)
Definition scaled (m e c : Z) : Z := m * 2 ^ (e - c).

(** What the churn bound needs of a probability: it lies between the base
    and the cap, and it compares with [0.6] as a number does (it is no NaN). *)
Definition churn_check (probability : float) : bool :=
  (0.05 <=? probability)%float && (probability <=? 0.95)%float &&
  Bool.eqb (probability <? 0.6)%float (negb (0.6 <=? probability)%float).

(** What [calculate_engineer_load] is to compute for the engineer [e],
    stated on the input lists. *)
Module LoadSpec.

Definition task_counts (e : string) (task : Task.t) : Prop :=
  Task.status task <> "completed" /\ Task.assigned_to task = Some e.

Definition appointment_counts (e : string) (a : Appointment.t) : Prop :=
  Appointment.status a = "scheduled" /\ Appointment.assigned_to a = Some e.

Definition open_tasks_of (e : string) (tasks : list Task.t) : Z :=
  Scoring.count (task_counts e) tasks.

Definition scheduled_minutes_of (e : string) (appointments : list Appointment.t) : Z :=
  foldr Z.add 0 (Appointment.duration_minutes <$> filter (appointment_counts e) appointments).

(** [e] names an engineer with work: the name is not empty, and a task
    that is not completed or a scheduled appointment is assigned to it. *)
Definition has_work (e : string) (tasks : list Task.t)
    (appointments : list Appointment.t) : Prop :=
  e <> "" /\
  (Exists (task_counts e) tasks \/ Exists (appointment_counts e) appointments).

Definition workload_of (e : string) (tasks : list Task.t)
    (appointments : list Appointment.t) : Scoring.Workload :=
  {| Scoring.open_tasks := open_tasks_of e tasks;
     Scoring.scheduled_minutes := scheduled_minutes_of e appointments |}.

End LoadSpec.

(** A scheduled appointment of client 5. *)
Definition visit (id : Z) (start : datetime) (duration : Z) (engineer : option string)
    : Appointment.t :=
  {| Appointment.id := id; Appointment.client_id := 5; Appointment.start_time := start;
     Appointment.duration_minutes := duration; Appointment.status := "scheduled";
     Appointment.assigned_to := engineer |}.

(** A request body that the webhook accepts on a given database: the four
    required members are present, [client_id] converts to an integer, and
    that integer is the key of a client. *)
Definition accepted `{Builtins} (db : Store) (data : gmap string json)
    (event_id raw_severity message : json) : Prop :=
  data !! "event_id" = Some event_id /\
  data !! "severity" = Some raw_severity /\
  data !! "message" = Some message /\
  exists raw_client_id client_id,
    data !! "client_id" = Some raw_client_id /\
    except_TypeError_ValueError_400 (py_int raw_client_id) = Return client_id /\
    is_Some (find (fun c => bool_decide (Client.id c = client_id)) (clients db)).

(** Sample data: two clients, the event of the scenario of the
    specification, and two later deliveries under the same event id. *)
Module Sample.

Definition acme : Client.t :=
  {| Client.id := 5; Client.name := "Acme Industries"; Client.updated_at := 0 |}.

Definition globex : Client.t :=
  {| Client.id := 6; Client.name := "Globex Corp"; Client.updated_at := 0 |}.

Definition fresh_db : Store :=
  {| clients := [acme; globex]; tickets := []; tasks := []; appointments := [];
     incidents := [] |}.

Definition event : gmap string json :=
  {[ "event_id" := JStr "EVT-1"; "client_id" := JInt 5;
     "severity" := JStr "disaster"; "message" := JStr "down" ]}.

(** The same event, now a warning, reported as resolved. *)
Definition event_resolved : gmap string json :=
  <["status" := JStr "resolved"]> (<["severity" := JStr "Warning"]> event).

(** The same event id under another client and another time. *)
Definition event_moved : gmap string json :=
  <["client_id" := JInt 6]> (<["occurred_at" := JStr "2024-05-02"]> event).

Definition first_ticket : Ticket.t :=
  {| Ticket.id := 1; Ticket.client_id := 5;
     Ticket.subject := "[Zabbix] Zabbix incident EVT-1";
     Ticket.description := JStr "down"; Ticket.priority := "high";
     Ticket.status := "open"; Ticket.assigned_to := JStr "Monitoring";
     Ticket.due_date := Some 1 |}.

Definition first_incident : MonitoringIncident.t :=
  {| MonitoringIncident.id := 1; MonitoringIncident.client_id := 5;
     MonitoringIncident.source := "zabbix";
     MonitoringIncident.external_id := "EVT-1";
     MonitoringIncident.severity := "disaster";
     MonitoringIncident.message := JStr "down";
     MonitoringIncident.status := "open";
     MonitoringIncident.occurred_at := 1000;
     MonitoringIncident.ticket_id := Some 1 |}.

(** The database after [event] has been ingested at instant 1000 on
    [fresh_db], and the answer to that request. *)
Definition db_after_first : Store :=
  {| clients := [acme; globex]; tickets := [first_ticket]; tasks := [];
     appointments := []; incidents := [first_incident] |}.

Definition first_response : Ingest.Response :=
  {| Ingest.incident := first_incident; Ingest.ticket := Some first_ticket;
     Ingest.status_code := 201 |}.

End Sample.

(** The failure condition of the optimiser as the specification words it:
    the target date does not parse, or [travel_buffer_minutes] is not a
    positive integer (an absent member stands for the default, 30). *)
Module Claimed.

Definition unparseable_date `{Builtins} (request : Schedule.Request) : Prop :=
  match Schedule.body request !! "date" with
  | Some (JStr s) => fromisoformat s = None
  | Some _ => True
  | None => True
  end.

Definition positive_integer (member : option json) : Prop :=
  match member with
  | None => True
  | Some (JInt n) => 0 < n
  | Some _ => False
  end.

Definition invalid_input `{Builtins} (request : Schedule.Request) : Prop :=
  unparseable_date request \/
  ~ positive_integer (Schedule.body request !! "travel_buffer_minutes").

End Claimed.

(** The invariant of the optimiser's loop: per engineer the suggestions made
    so far respect the buffer, and the engineer's slot is at least the end of
    the last one plus the buffer. *)
Definition loop_invariant (travel_buffer : Z) (st : Schedule.Loop) : Prop :=
  (forall s, s ∈ Schedule.suggested st -> Schedule.travel_buffer_minutes s = travel_buffer) /\
  forall e,
    Schedule.chain Schedule.respects_buffer
                   (Schedule.suggestions_for e (Schedule.suggested st)) /\
    forall s, last (Schedule.suggestions_for e (Schedule.suggested st)) = Some s ->
              exists slot, dict_get e (Schedule.engineer_slots st) = Some slot /\
                           Schedule.optimized_end s + timedelta_minutes travel_buffer <= slot.

Module SampleDay.

(** 2024-05-01 *)
Definition day : Py.date := Plain.ordinal 2024 5 1.

Definition at_ (hour minute : Z) : datetime := combine day (time_of_day hour minute).

Definition request (travel_buffer : Z) : Schedule.Request :=
  {| Schedule.body := {[ "date" := JStr "2024-05-01";
                         "travel_buffer_minutes" := JInt travel_buffer ]};
     Schedule.engineers := [JStr "Alice"] |}.

(** Two overlapping one-hour visits of Alice, at 09:00 and 09:15. *)
Definition overlapping : Store :=
  {| clients := [Sample.acme]; tickets := []; tasks := []; incidents := [];
     appointments := [ visit 1 (at_ 9 0) 60 (Some "Alice");
                       visit 2 (at_ 9 15) 60 (Some "Alice") ] |}.

(** A two-hour visit at 09:00 followed by a ten-minute one at 09:10. *)
Definition long_then_short : Store :=
  {| clients := [Sample.acme]; tickets := []; tasks := []; incidents := [];
     appointments := [ visit 1 (at_ 9 0) 120 (Some "Alice");
                       visit 2 (at_ 9 10) 10 (Some "Alice") ] |}.

End SampleDay.
(** ** Further auxiliary definitions: the webhook *)

(** A string of ASCII characters: on these [lower] is Python's
    [str.lower]. *)
Definition is_ascii (s : string) : Prop :=
  Forall (fun c => (N_of_ascii c < 128)%N) (list_ascii_of_string s).

(** The webhook copies two members of the request to text columns as they
    are: [message], and [assigned_to] unless it is absent or falsy and
    "Monitoring" takes its place. What the theorems say of the stored
    rows and of the commit, they say of requests in which these members
    are text, that is JSON strings. (Of another scalar the column holds
    the text, not the value; the commit fails on a null [message], the
    column being declared NOT NULL, and on an integer beyond the INTEGER
    range.) *)
Definition is_text (v : json) : Prop := exists s, v = JStr s.

Definition text_members (data : gmap string json) : Prop :=
  (forall v, data !! "message" = Some v -> is_text v) /\
  is_text (or_else (data !! "assigned_to") (JStr "Monitoring")).

(** The instant the webhook records for a new incident: the [occurred_at]
    member parsed when it is present and truthy, the clock otherwise. *)
Definition reported_time `{Builtins} (utcnow : datetime) (data : gmap string json)
    : outcome datetime :=
  match data !! "occurred_at" with
  | Some raw =>
      if truthy raw then except_ValueError_400 (datetime_fromisoformat raw)
      else Return utcnow
  | None => Return utcnow
  end.

(** The columns of the constraint [uq_incident_source]. *)
Definition incident_key (i : MonitoringIncident.t) : string * string :=
  (MonitoringIncident.source i, MonitoringIncident.external_id i).

(** The constraints the schema of [app/models.py] puts on the modelled
    tables: the primary keys, the unique constraint on
    [(source, external_id)], the foreign keys, and the one-to-one link
    between a ticket and its monitoring incident. *)
Record integrity (db : Store) : Prop := {
  ticket_pk : NoDup (Ticket.id <$> tickets db);
  incident_pk : NoDup (MonitoringIncident.id <$> incidents db);
  uq_incident_source : NoDup (incident_key <$> incidents db);
  incident_ticket_fk : forall i tid,
    i ∈ incidents db -> MonitoringIncident.ticket_id i = Some tid ->
    tid ∈ Ticket.id <$> tickets db;
  incident_client_fk : forall i,
    i ∈ incidents db -> MonitoringIncident.client_id i ∈ Client.id <$> clients db;
  ticket_client_fk : forall t,
    t ∈ tickets db -> Ticket.client_id t ∈ Client.id <$> clients db;
  one_incident_per_ticket : NoDup (omap MonitoringIncident.ticket_id (incidents db));
}.

(** A ticket after a delivery of the webhook: as it was, or resolved. *)
Definition kept_or_resolved (t t' : Ticket.t) : Prop :=
  t' = t \/ t' = Ticket.set_status "resolved" t.

(** The conditions under which the webhook does not answer with an
    incident. *)
Module Rejected.

Definition required : list string := ["event_id"; "client_id"; "severity"; "message"].

(** A required member is absent. *)
Definition incomplete (data : gmap string json) : Prop :=
  exists field, field ∈ required /\ data !! field = None.

(** [int(data["client_id"])] raises. *)
Definition bad_client_id `{Builtins} (data : gmap string json) : Prop :=
  exists raw, data !! "client_id" = Some raw /\ forall n, py_int raw <> Return n.

(** [client_id] converts to the key of a client. *)
Definition known_client `{Builtins} (db : Store) (data : gmap string json) : Prop :=
  exists raw n,
    data !! "client_id" = Some raw /\ py_int raw = Return n /\
    n ∈ (Client.id <$> clients db).

(** [client_id] converts to an integer of the INTEGER range that is the
    key of no client. *)
Definition unknown_client `{Builtins} (db : Store) (data : gmap string json) : Prop :=
  exists raw n,
    data !! "client_id" = Some raw /\ py_int raw = Return n /\
    (n ∉ (Client.id <$> clients db)) /\ is_INTEGER n = true.

(** [client_id] converts to an integer beyond the INTEGER range (and so
    to the key of no client). *)
Definition beyond_INTEGER `{Builtins} (db : Store) (data : gmap string json) : Prop :=
  exists raw n,
    data !! "client_id" = Some raw /\ py_int raw = Return n /\
    (n ∉ (Client.id <$> clients db)) /\ is_INTEGER n = false.

(** No incident is stored under the event id of the request. *)
Definition new_event (db : Store) (data : gmap string json) : Prop :=
  exists event_id,
    data !! "event_id" = Some event_id /\
    find (Ingest.same_event (py_str event_id)) (incidents db) = None.

(** [occurred_at] is a non-empty string that [fromisoformat] rejects. *)
Definition bad_time `{Builtins} (data : gmap string json) : Prop :=
  exists s, data !! "occurred_at" = Some (JStr s) /\ s <> "" /\ fromisoformat s = None.

(** [occurred_at] is truthy and not a string. *)
Definition time_not_text (data : gmap string json) : Prop :=
  exists raw, data !! "occurred_at" = Some raw /\ truthy raw = true /\
              forall s, raw <> JStr s.

End Rejected.

(** ** Further auxiliary definitions: the optimiser *)

(** A nullable name that [x or None] turns into [None]: no engineer. *)
Definition unassigned (x : option string) : Prop := or_None x = None.

#[global] Instance unassigned_dec x : Decision (unassigned x).
Proof. unfold unassigned. solve_decision. Defined.

(** The state of the optimiser's loop after a turn that books [a] with
    [engineer], whose slot in [slots] is [slot]. *)
Definition booked (db : Store) (day_end : datetime) (travel_buffer : Z)
    (st : Schedule.Loop) (a : Appointment.t) (engineer : string)
    (slots : dict datetime) (slot : datetime) (reassigned : Z) : Schedule.Loop :=
  let s := Schedule.suggest db day_end travel_buffer a engineer slot in
  {| Schedule.engineer_slots :=
       dict_set engineer
                (Schedule.optimized_end s + timedelta_minutes travel_buffer) slots;
     Schedule.reassigned := reassigned;
     Schedule.suggested := Schedule.suggested st ++ [s] |}.

(** The suggestion [s] is the one the loop makes for [a] with some
    engineer - the appointment's own, when it has one - and some slot. *)
Definition books (db : Store) (day_end : datetime) (travel_buffer : Z)
    (a : Appointment.t) (s : Schedule.Suggestion) : Prop :=
  exists engineer slot,
    s = Schedule.suggest db day_end travel_buffer a engineer slot /\
    forall e, or_None (Appointment.assigned_to a) = Some e -> engineer = e.

(** The slots the route starts the loop with:
    [{engineer: day_start for engineer in engineers_input}]. *)
Definition initial_slots (day_start : datetime) (engineers_input : list json)
    : dict datetime :=
  foldl (fun slots engineer => dict_set (py_str engineer) day_start slots)
        [] engineers_input.

(** The start of the working day of the plan, 09:00. *)
Definition day_start_of (d : Py.date) : datetime := combine d (time_of_day 9 0).

(** The notes of the optimiser. *)
Definition note_overlap : string := "Resolved overlap with preceding visit".
Definition note_workday : string := "Extends beyond workday; consider another engineer".

(** *** The range of Python's dates

    A [datetime] lies in the years 1 to 9999 and a [timedelta] spans at
    most 999999999 days; an operation whose result would lie beyond
    raises [OverflowError]. The optimiser is modelled on the integers;
    what follows states when the instants and the intervals of a run are
    ones that Python has. Days are counted as [date.toordinal()] counts
    them: day 1 is 0001-01-01 and day 3652059 is 9999-12-31. *)
Definition datetime_min : datetime := combine 1 time_min.
Definition datetime_max : datetime := combine 3652059 time_max.

Definition in_calendar (dt : datetime) : Prop := datetime_min <= dt <= datetime_max.

(** [timedelta(minutes=n)] exists. *)
Definition is_timedelta (minutes : Z) : Prop :=
  - 999999999 <= minutes / (24 * 60) <= 999999999.

(** The three instants of a suggestion - its start, its end, and the end
    with the buffer added, to which the slot of the engineer moves - lie
    between [lo] and [hi]. *)
Definition between (lo hi : datetime) (travel_buffer : Z) (s : Schedule.Suggestion)
    : Prop :=
  lo <= Schedule.optimized_start s <= hi /\
  lo <= Schedule.optimized_end s <= hi /\
  lo <= Schedule.optimized_end s + timedelta_minutes travel_buffer <= hi.

(** No date operation of a run of the optimiser overflows: the end of the
    working day, and for each appointment the two intervals the loop
    makes and the instants it computes. *)
Definition no_overflow (day_end : datetime) (travel_buffer workday : Z)
    (todo : list Appointment.t) (suggestions : list Schedule.Suggestion) : Prop :=
  is_timedelta workday /\ in_calendar day_end /\
  Forall (fun a => is_timedelta (Appointment.duration_minutes a) /\
                   is_timedelta travel_buffer) todo /\
  Forall (between datetime_min datetime_max travel_buffer) suggestions.

(** The minutes by which the visits of [todo], each with its buffer, can
    move a slot, whatever their signs. *)
Definition minutes_moved (travel_buffer : Z) (todo : list Appointment.t) : Z :=
  foldr (fun a total =>
           Z.abs (Appointment.duration_minutes a) + Z.abs travel_buffer + total)
        0 todo.

(** The minutes of a year of 365 days. *)
Definition a_year : Z := 365 * 24 * 60.

(** A run of the optimiser that is sure to stay within the calendar: the
    day lies between 0002-01-01 and 9998-12-31, the working day is at most
    a year long, and the visits of the day with their buffers move a slot
    by at most a year. *)
Definition within_a_year (target_date : Py.date) (travel_buffer workday : Z)
    (todo : list Appointment.t) : Prop :=
  366 <= target_date <= 3652059 - 365 /\
  Z.abs workday <= a_year /\
  minutes_moved travel_buffer todo <= a_year.

(** ** Further auxiliary definitions: the scorers *)

(** The evidence the churn scorer counts: open tickets, open tickets of
    high priority, overdue tasks, whether an appointment was cancelled,
    whether the client was last touched more than 30 days ago. *)
Definition evidence : Type := Z * Z * Z * bool * bool.

Definition churn_of (x : evidence) : float :=
  let '(open_tickets, high_priority, overdue_tasks, missed, stale) := x in
  Scoring.churn_probability open_tickets high_priority overdue_tasks missed stale.

(** The counts up to the one at which each capped term is at its cap. *)
Definition evidence_grid : list evidence :=
  open_tickets ← seqZ 0 7; high_priority ← seqZ 0 4; overdue_tasks ← seqZ 0 4;
  missed ← [false; true]; stale ← [false; true];
  [(open_tickets, high_priority, overdue_tasks, missed, stale)].

Definition evidence_le (x y : evidence) : bool :=
  let '(n1, n2, n3, missed, stale) := x in
  let '(n1', n2', n3', missed', stale') := y in
  (n1 <=? n1') && (n2 <=? n2') && (n3 <=? n3') && implb missed missed' &&
  implb stale stale'.

(** "low" before "medium" before "high". *)
Definition label_rank (label : string) : Z :=
  if String.eqb label "high" then 2 else if String.eqb label "medium" then 1 else 0.

Definition risk_le (p p' : float) : bool :=
  (p <=? p')%float &&
  (label_rank (Scoring.churn_label p) <=? label_rank (Scoring.churn_label p')).

(** The probability at every point of the grid. *)
Definition churn_table : list (evidence * float) :=
  (fun x => (x, churn_of x)) <$> evidence_grid.

(** Of two rows of the table, the one with more evidence has no less risk. *)
Definition monotone_on (xp yq : evidence * float) : bool :=
  implb (evidence_le xp.1 yq.1) (risk_le xp.2 yq.2).

(** The sums over the engineers of a workload. *)
Definition total_open_tasks (workload : dict Scoring.Workload) : Z :=
  foldr Z.add 0 ((fun item => Scoring.open_tasks item.2) <$> workload).

Definition total_scheduled_minutes (workload : dict Scoring.Workload) : Z :=
  foldr Z.add 0 ((fun item => Scoring.scheduled_minutes item.2) <$> workload).

(** A task that [calculate_engineer_load] counts: it has an engineer and
    is not completed; and the like for an appointment. *)
Definition counted_task (task : Task.t) : Prop :=
  ~ unassigned (Task.assigned_to task) /\ Task.status task <> "completed".

Definition counted_appointment (a : Appointment.t) : Prop :=
  ~ unassigned (Appointment.assigned_to a) /\ Appointment.status a = "scheduled".

#[global] Instance counted_task_dec task : Decision (counted_task task).
Proof. unfold counted_task. apply _. Defined.

#[global] Instance counted_appointment_dec a : Decision (counted_appointment a).
Proof. unfold counted_appointment. apply _. Defined.

(** ** Further auxiliary definitions: appointments, accounts, analytics *)

(** An appointment as the two appointment routes leave it: its duration
    is positive and its status is one of the three the API knows. *)
Definition well_formed (a : Appointment.t) : Prop :=
  0 < Appointment.duration_minutes a /\
  Appointment.status a ∈ Sanitise.ALLOWED_APPOINTMENT_STATUSES.

(** The entry of ["client_churn"] that the loop of the analytics route
    makes for [client] when the clock reads [utcnow]. *)
Definition prediction (utcnow : datetime) (db : Store) (client : Client.t)
    : Analytics.Prediction :=
  let tickets := Analytics.tickets_of db client in
  let tasks := Analytics.tasks_of db client in
  let risk :=
    Scoring.calculate_churn_risk utcnow client tickets tasks
      (Analytics.appointments_of db client) in
  {| Analytics.client_id := Client.id client;
     Analytics.client_name := Client.name client;
     Analytics.churn_probability := round2 risk.1;
     Analytics.churn_level := risk.2;
     Analytics.open_tickets :=
       Scoring.count (fun ticket => Ticket.status ticket = "open") tickets;
     Analytics.open_high_priority_tickets :=
       Scoring.count (fun ticket => Ticket.status ticket = "open" /\
                                    Ticket.priority ticket = "high") tickets;
     Analytics.open_tasks :=
       Scoring.count (fun task => Task.status task <> "completed") tasks;
     Analytics.monitoring_incidents :=
       Scoring.count (fun incident => MonitoringIncident.status incident <> "resolved")
                     (Analytics.incidents_of db client);
     Analytics.recommendation :=
       if String.eqb risk.2 "high" then "Escalate to account manager for recovery plan"
       else if String.eqb risk.2 "medium" then "Schedule proactive review within two weeks"
       else "Maintain regular check-ins" |}.

(** The probability as the analytics route reports it, rounded to two
    decimals, lies between the base and the cap and compares with the two
    thresholds as the unrounded probability does (and what is at least 0.6
    is at least 0.35: the probability is a number). *)
Definition reported_check (probability : float) : bool :=
  let reported := round2 probability in
  (0.05 <=? reported)%float && (reported <=? 0.95)%float &&
  Bool.eqb (0.6 <=? reported)%float (0.6 <=? probability)%float &&
  Bool.eqb (0.35 <=? reported)%float (0.35 <=? probability)%float &&
  implb (0.6 <=? probability)%float (0.35 <=? probability)%float.

(** An account whose two-factor authentication is enabled has a secret. *)
Definition coherent (u : User.t) : Prop :=
  User.two_factor_enabled u = true -> is_Some (or_None (User.two_factor_secret u)).

(** The three routes under [/auth/two-factor]. *)
Inductive two_factor_call :=
| Setup (secret : string)
| Verify (utcnow : datetime)
| Disable.

Definition two_factor `{Builtins} `{Auth.Library} (call : two_factor_call)
    (users : list User.t) (data : gmap string json)
    : outcome (list User.t * Auth.Answer) :=
  match call with
  | Setup secret => Auth.setup_two_factor secret users data
  | Verify utcnow => Auth.verify_two_factor utcnow users data
  | Disable => Auth.disable_two_factor users data
  end.

(** The account [u'] is [u] but for the two columns of its two-factor
    state. *)
Definition same_account (u u' : User.t) : Prop :=
  User.id u' = User.id u /\ User.username u' = User.username u /\
  User.email u' = User.email u /\ User.password_hash u' = User.password_hash u.

(** ** Plain instances of the other library calls, and further sample data

    Naive dates only; a password hash that is the password itself; and a
    one-time code that is the secret itself. They serve to run the routes
    on concrete requests. *)

Module Demo.

Definition zones : Appointments.Zones := {| Appointments.utcoffset := fun _ => None |}.

Definition library : Auth.Library :=
  {| Auth.check_password_hash :=
       fun pwhash password => Return (bool_decide (password = JStr pwhash));
     Auth.totp_verify := fun secret otp _ => Return (bool_decide (secret = Some otp));
     Auth.provisioning_uri :=
       fun secret _ => "otpauth://totp/CRM%20Desk?secret=" +:+ secret |}.

(** An account with two-factor authentication enabled, and the same
    account before the code was verified. *)
Definition alice : User.t :=
  {| User.id := 1; User.username := JStr "alice"; User.email := JStr "alice@example.com";
     User.password_hash := "correct horse"; User.two_factor_enabled := true;
     User.two_factor_secret := Some "JBSWY3DPEHPK3PXP" |}.

Definition alice_pending : User.t := User.set_two_factor false (Some "JBSWY3DPEHPK3PXP") alice.

Definition login : gmap string json :=
  {[ "username" := JStr "alice"; "password" := JStr "correct horse";
     "otp" := JStr "JBSWY3DPEHPK3PXP" ]}.

Definition login_without_code : gmap string json :=
  {[ "username" := JStr "alice"; "password" := JStr "correct horse" ]}.

Definition with_password : gmap string json :=
  {[ "user_id" := JInt 1; "password" := JStr "correct horse" ]}.

Definition with_code : gmap string json :=
  {[ "user_id" := JInt 1; "otp" := JStr "JBSWY3DPEHPK3PXP" ]}.

(** A request for a visit of 45 minutes, and one that moves a visit to 90
    minutes and resets its status. *)
Definition new_visit : Appointments.Request :=
  {| Appointments.body := {[ "start_time" := JStr "2024-05-01";
                             "duration_minutes" := JInt 45 ]};
     Appointments.status := Some (Some "Completed");
     Appointments.assigned_to := Some (Some "Alice") |}.

Definition longer_visit : Appointments.Request :=
  {| Appointments.body := {[ "duration_minutes" := JInt 90 ]};
     Appointments.status := Some None;
     Appointments.assigned_to := None |}.

(** An event without severity. *)
Definition event_without_severity : gmap string json :=
  {[ "event_id" := JStr "EVT-2"; "client_id" := JInt 5; "message" := JStr "down" ]}.

(** The event of the scenario under a client key beyond 64 bits. *)
Definition event_of_no_client : gmap string json :=
  <["client_id" := JInt (2 ^ 70)]> Sample.event.

(** Two visits without engineer on the day of [SampleDay]. *)
Definition unassigned_day : Store :=
  {| clients := [Sample.acme]; tickets := []; tasks := []; incidents := [];
     appointments := [ visit 1 (SampleDay.at_ 8 0) 60 None;
                       visit 2 (SampleDay.at_ 9 15) 60 None ] |}.

(** The state of the optimiser's loop when Bob is free before Alice. *)
Definition bob_free_first : Schedule.Loop :=
  {| Schedule.engineer_slots := [("Alice", SampleDay.at_ 10 30); ("Bob", SampleDay.at_ 9 0)];
     Schedule.reassigned := 0;
     Schedule.suggested := [] |}.

(** An open ticket of high priority. *)
Definition outage : Ticket.t :=
  {| Ticket.id := 7; Ticket.client_id := 5; Ticket.subject := "VPN outage";
     Ticket.description := JNull; Ticket.priority := "high"; Ticket.status := "open";
     Ticket.assigned_to := JNull; Ticket.due_date := None |}.

End Demo.

(** * Proofs *)

(** ** Rounding to binary64 never goes below a representable lower bound

    The scorers multiply a count by a constant and cap the product. That the
    cap is reached from some count on rests on one fact about rounding: if
    the exact result is at least a float [L], so is the rounded one. It is
    proved here from the bit-level specification of the operations. *)

Section Rounding.

Lemma digits2_pos_bounds (m : positive) :
  2 ^ (Z.pos (digits2_pos m) - 1) <= Z.pos m < 2 ^ Z.pos (digits2_pos m).
Proof.
  induction m as [m IH | m IH |]; cbn [digits2_pos].
  - rewrite Pos2Z.inj_succ, Z.pow_succ_r by lia.
    replace (Z.succ (Z.pos (digits2_pos m)) - 1) with (Z.succ (Z.pos (digits2_pos m) - 1)) by lia.
    rewrite Z.pow_succ_r by lia. lia.
  - rewrite Pos2Z.inj_succ, Z.pow_succ_r by lia.
    replace (Z.succ (Z.pos (digits2_pos m)) - 1) with (Z.succ (Z.pos (digits2_pos m) - 1)) by lia.
    rewrite Z.pow_succ_r by lia. lia.
  - cbn. lia.
Qed.

Lemma shr_1_m mrs : 0 <= shr_m mrs -> shr_m (shr_1 mrs) = shr_m mrs / 2.
Proof.
  destruct mrs as [m r s]; cbn [shr_m shr_1]. intros Hm.
  destruct m as [|[p|p|]|p]; cbn [shr_m]; try lia.
  - reflexivity.
  - rewrite Pos2Z.inj_xI. apply Z.div_unique with 1; lia.
  - rewrite Pos2Z.inj_xO. apply Z.div_unique with 0; lia.
  - reflexivity.
Qed.

Lemma iter_shr_1_m (p : positive) : forall mrs,
  0 <= shr_m mrs -> shr_m (SpecFloat.iter_pos shr_1 p mrs) = shr_m mrs / 2 ^ Z.pos p.
Proof.
  induction p as [p IH | p IH |]; intros mrs Hm; cbn [SpecFloat.iter_pos].
  - assert (H1 : 0 <= shr_m (shr_1 mrs)) by (rewrite shr_1_m by lia; apply Z.div_pos; lia).
    assert (H2 : 0 <= shr_m (SpecFloat.iter_pos shr_1 p (shr_1 mrs)))
      by (rewrite IH by lia; apply Z.div_pos; lia).
    rewrite IH, IH, shr_1_m by lia.
    rewrite !Z.div_div by lia. f_equal.
    replace (Z.pos p~1) with (1 + Z.pos p + Z.pos p) by lia.
    rewrite !Z.pow_add_r by lia. change (2 ^ 1) with 2. ring.
  - assert (H2 : 0 <= shr_m (SpecFloat.iter_pos shr_1 p mrs))
      by (rewrite IH by lia; apply Z.div_pos; lia).
    rewrite IH, IH by lia.
    rewrite !Z.div_div by lia. f_equal.
    replace (Z.pos p~0) with (Z.pos p + Z.pos p) by lia.
    rewrite !Z.pow_add_r by lia. ring.
  - rewrite shr_1_m by lia. reflexivity.
Qed.

Lemma shr_record_of_loc_m m l : shr_m (shr_record_of_loc m l) = m.
Proof. destruct l as [|[]]; reflexivity. Qed.

(** What [shr_fexp] does to the mantissa and the exponent. *)
Lemma shr_fexp_shape m e l mrs e' :
  0 < m ->
  shr_fexp prec emax m e l = (mrs, e') ->
  exists k, 0 <= k /\ e' = e + k /\ shr_m mrs = m / 2 ^ k /\
            fexp prec emax (Zdigits2 m + e) <= e' /\
            (k = 0 \/ e' = fexp prec emax (Zdigits2 m + e)).
Proof.
  intros Hm. unfold shr_fexp, shr.
  destruct (fexp prec emax (Zdigits2 m + e) - e) as [|p|p] eqn:Hk; intros [= <- <-].
  - exists 0. rewrite shr_record_of_loc_m, Z.div_1_r. repeat split; lia.
  - exists (Z.pos p). rewrite iter_shr_1_m by (rewrite shr_record_of_loc_m; lia).
    rewrite shr_record_of_loc_m. repeat split; lia.
  - exists 0. rewrite shr_record_of_loc_m, Z.div_1_r. repeat split; lia.
Qed.

Lemma Zdigits2_bounds m : 0 < m -> 2 ^ (Zdigits2 m - 1) <= m < 2 ^ Zdigits2 m.
Proof. destruct m; try lia. intros _. apply digits2_pos_bounds. Qed.

Lemma Zdigits2_pos m : 0 < m -> 0 < Zdigits2 m.
Proof. destruct m; cbn; lia. Qed.

Lemma shr_fexp_small m e l mrs e' :
  0 < m -> shr_fexp prec emax m e l = (mrs, e') -> 0 <= shr_m mrs < 2 ^ 53.
Proof.
  intros Hm H. destruct (shr_fexp_shape _ _ _ _ _ Hm H) as (k & Hk & -> & -> & Hf & _).
  pose proof (Zdigits2_bounds m Hm) as [_ Hd]. pose proof (Zdigits2_pos m Hm) as Hp.
  split; [apply Z.div_pos; lia|].
  apply Z.div_lt_upper_bound; [lia|].
  rewrite <- Z.pow_add_r by lia.
  eapply Z.lt_le_trans; [exact Hd|]. apply Z.pow_le_mono_r; [lia|].
  unfold fexp, prec in Hf. lia.
Qed.

Lemma shr_fexp_lower m e l mrs e' c mL eL :
  0 < m -> c <= e -> c <= eL -> emin <= eL -> 0 <= mL < 2 ^ 53 ->
  scaled mL eL c <= scaled m e c ->
  shr_fexp prec emax m e l = (mrs, e') ->
  e <= e' /\ scaled mL eL c <= scaled (shr_m mrs) e' c.
Proof.
  intros Hm Hce HcL HeL HmL Hle H.
  destruct (shr_fexp_shape _ _ _ _ _ Hm H) as (k & Hk & -> & -> & Hf & Hcase).
  split; [lia|]. unfold scaled in *.
  destruct (Z.eq_dec k 0) as [->|Hk0].
  { now rewrite Z.div_1_r, Z.add_0_r. }
  destruct Hcase as [?|Hcase]; [lia|].
  destruct (Z_le_gt_dec (e + k) eL) as [Hlow|Hhigh].
  - (* the bound is on the grid of the result *)
    replace (eL - c) with ((eL - (e + k)) + k + (e - c)) in * by lia.
    replace (e + k - c) with (k + (e - c)) by lia.
    rewrite !Z.pow_add_r in * by lia.
    assert (H2 : 0 < 2 ^ (e - c)) by (apply Z.pow_pos_nonneg; lia).
    assert (H3 : 0 < 2 ^ k) by (apply Z.pow_pos_nonneg; lia).
    assert (H4 : mL * 2 ^ (eL - (e + k)) * 2 ^ k <= m) by nia.
    assert (H5 : mL * 2 ^ (eL - (e + k)) <= m / 2 ^ k)
      by (apply Z.div_le_lower_bound; lia).
    apply Z.mul_le_mono_nonneg_r with (p := 2 ^ k * 2 ^ (e - c)) in H5; [lia|].
    apply Z.mul_nonneg_nonneg; lia.
  - (* the result has a full mantissa at a larger exponent *)
    pose proof (Zdigits2_bounds m Hm) as [Hd _]. pose proof (Zdigits2_pos m Hm) as Hp.
    unfold fexp, prec, emin, emax in *.
    assert (Hkd : k = Zdigits2 m - 53) by lia.
    assert (H6 : 2 ^ 52 <= m / 2 ^ k).
    { apply Z.div_le_lower_bound; [apply Z.pow_pos_nonneg; lia|].
      rewrite <- Z.pow_add_r by lia.
      replace (k + 52) with (Zdigits2 m - 1) by lia. exact Hd. }
    replace (e + k - c) with ((e + k - eL - 1) + 1 + (eL - c)) by lia.
    rewrite !Z.pow_add_r by lia.
    assert (H2 : 0 < 2 ^ (eL - c)) by (apply Z.pow_pos_nonneg; lia).
    assert (H3 : 0 < 2 ^ (e + k - eL - 1)) by (apply Z.pow_pos_nonneg; lia).
    change (2 ^ 1) with 2. change (2 ^ 53) with (2 * 2 ^ 52) in HmL.
    assert (mL * 2 ^ (eL - c) <= (2 * 2 ^ 52) * 2 ^ (eL - c)) by nia.
    assert ((2 * 2 ^ 52) * 2 ^ (eL - c) <= m / 2 ^ k * 2 * 2 ^ (eL - c)) by nia.
    assert (m / 2 ^ k * 2 * 2 ^ (eL - c) <= m / 2 ^ k * (2 ^ (e + k - eL - 1) * 2 * 2 ^ (eL - c))).
    { assert (0 <= m / 2 ^ k * 2 * 2 ^ (eL - c)) by nia. nia. }
    lia.
Qed.

Lemma round_nearest_even_ge m l : m <= round_nearest_even m l.
Proof. destruct l as [|[]]; cbn; try lia. destruct (Z.even m); lia. Qed.

Lemma scaled_mono m m' e c : c <= e -> m <= m' -> scaled m e c <= scaled m' e c.
Proof.
  intros Hc Hm. unfold scaled. apply Z.mul_le_mono_nonneg_r; [|exact Hm].
  apply Z.pow_nonneg; lia.
Qed.

Lemma scaled_pos_inv mL eL m e c :
  0 < mL -> c <= eL -> c <= e -> scaled mL eL c <= scaled m e c -> 0 < m.
Proof.
  unfold scaled. intros HmL HcL Hc H.
  assert (0 < 2 ^ (eL - c)) by (apply Z.pow_pos_nonneg; lia).
  assert (0 < 2 ^ (e - c)) by (apply Z.pow_pos_nonneg; lia).
  nia.
Qed.

Lemma binary_round_aux_lower s mx ex l c mL eL :
  0 < mx -> c <= ex -> c <= eL -> emin <= eL -> 0 < mL < 2 ^ 53 ->
  scaled mL eL c <= scaled mx ex c ->
  binary_round_aux prec emax s mx ex l = S754_infinity s \/
  exists m e, binary_round_aux prec emax s mx ex l = S754_finite s m e /\
              Z.pos m < 2 ^ 53 /\ ex <= e /\ scaled mL eL c <= scaled (Z.pos m) e c.
Proof.
  intros Hmx Hc HcL HeL HmL Hle. unfold binary_round_aux.
  destruct (shr_fexp prec emax mx ex l) as [mrs1 e1] eqn:H1.
  destruct (shr_fexp_lower mx ex l mrs1 e1 c mL eL Hmx Hc HcL HeL ltac:(lia) Hle H1) as [He1 Hle1].
  set (m1 := round_nearest_even (shr_m mrs1) (loc_of_shr_record mrs1)).
  assert (Hm1 : shr_m mrs1 <= m1) by apply round_nearest_even_ge.
  assert (Hpos0 : 0 < shr_m mrs1) by (eapply scaled_pos_inv; [| |  |exact Hle1]; lia).
  assert (Hle1' : scaled mL eL c <= scaled m1 e1 c).
  { etransitivity; [exact Hle1|]. apply scaled_mono; lia. }
  destruct (shr_fexp prec emax m1 e1 loc_Exact) as [mrs2 e2] eqn:H2.
  destruct (shr_fexp_lower m1 e1 loc_Exact mrs2 e2 c mL eL ltac:(lia) ltac:(lia) HcL HeL ltac:(lia) Hle1' H2)
    as [He2 Hle2].
  pose proof (shr_fexp_small m1 e1 loc_Exact mrs2 e2 ltac:(lia) H2) as Hsmall.
  assert (Hpos2 : 0 < shr_m mrs2) by (eapply scaled_pos_inv; [| |  |exact Hle2]; lia).
  destruct (shr_m mrs2) as [|m2|m2] eqn:Hm2; try lia.
  destruct (e2 <=? emax - prec); [right|now left].
  exists m2, e2. repeat split; solve [lia | exact Hle2].
Qed.

Lemma shl_align_spec mx ex ex' mz ez :
  shl_align mx ex ex' = (mz, ez) ->
  ez <= ex /\ (ez = ex \/ ez = ex') /\ Z.pos mz = Z.pos mx * 2 ^ (ex - ez).
Proof.
  unfold shl_align. destruct (ex' - ex) as [|d|d] eqn:Hd; intros [= <- <-].
  - rewrite Z.sub_diag. cbn. lia.
  - rewrite Z.sub_diag. cbn. lia.
  - change (Pos.iter xO mx d) with (shift_pos d mx).
    rewrite shift_pos_correct. change (Zpower_pos 2 d) with (2 ^ Z.pos d).
    replace (ex - ex') with (Z.pos d) by lia. lia.
Qed.

Lemma binary_round_lower s mx ex c mL eL :
  c <= ex -> c <= emin -> emin <= eL -> 0 < mL < 2 ^ 53 ->
  scaled mL eL c <= scaled (Z.pos mx) ex c ->
  binary_round prec emax s mx ex = S754_infinity s \/
  exists m e, binary_round prec emax s mx ex = S754_finite s m e /\
              Z.pos m < 2 ^ 53 /\ Z.min ex emin <= e /\ scaled mL eL c <= scaled (Z.pos m) e c.
Proof.
  intros Hc Hcm HeL HmL Hle. unfold binary_round.
  destruct (shl_align mx ex _) as [mz ez] eqn:Hal.
  destruct (shl_align_spec _ _ _ _ _ Hal) as (Hez & Hcase & Hval).
  assert (Hfe : emin <= fexp prec emax (Z.pos (digits2_pos mx) + ex)) by (unfold fexp; lia).
  assert (Hcz : c <= ez) by (destruct Hcase; lia).
  assert (Hsc : scaled (Z.pos mz) ez c = scaled (Z.pos mx) ex c).
  { unfold scaled. rewrite Hval, <- Z.mul_assoc, <- Z.pow_add_r by lia. do 2 f_equal; lia. }
  destruct (binary_round_aux_lower s (Z.pos mz) ez loc_Exact c mL eL)
    as [Hinf | (m & e & Hr & Hm & He & Hv)]; try lia.
  - now left.
  - right. exists m, e. repeat split; try assumption. destruct Hcase; lia.
Qed.

(** The integer-to-float conversion never rounds below a representable
    lower bound. *)
Lemma Prim2SF_float_of_int_lower (n n0 c : Z) :
  0 < n0 < 2 ^ 53 -> n0 <= n -> c <= 2 * emin ->
  Prim2SF (float_of_int n) = S754_infinity false \/
  exists m e, Prim2SF (float_of_int n) = S754_finite false m e /\
              2 * emin <= e /\ scaled n0 0 c <= scaled (Z.pos m) e c.
Proof.
  intros Hn0 Hn Hc. unfold float_of_int. unfold emin, emax, prec in Hc.
  destruct n as [|n|n]; try lia. cbn [binary_normalize].
  destruct (binary_round_lower false n 0 c n0 0)
    as [-> | (m1 & e1 & -> & Hm1 & He1 & Hv1)];
    try (unfold emin, emax, prec; lia).
  { apply scaled_mono; lia. }
  { now left. }
  cbn [SF2Prim]. rewrite Z_ldexp_spec, of_uint63_spec, of_Z_spec.
  rewrite Z.mod_small by (change wB with (2 ^ 63); lia).
  cbn [binary_normalize]. unfold emin, emax, prec in He1.
  destruct (binary_round_lower false m1 0 (c - e1) (Z.pos m1) 0)
    as [-> | (m2 & e2 & -> & Hm2 & He2 & Hv2)];
    try (unfold emin, emax, prec; lia).
  { now left. }
  cbn [SFldexp]. unfold emin, emax, prec in He2.
  destruct (binary_round_lower false m2 (e2 + e1) c n0 0)
    as [-> | (m3 & e3 & -> & Hm3 & He3 & Hv3)];
    try (unfold emin, emax, prec; lia).
  { etransitivity; [exact Hv1|]. unfold scaled in *.
    replace (e1 - c) with (0 - (c - e1)) by lia.
    replace (e2 + e1 - c) with (e2 - (c - e1)) by lia. exact Hv2. }
  { now left. }
  right. exists m3, e3. repeat split; try assumption.
  unfold emin, emax, prec in *. lia.
Qed.

Lemma SFltb_lower m e mt et c :
  Z.pos m < 2 ^ 53 -> 2 ^ 52 <= Z.pos mt -> c <= e -> c <= et ->
  scaled (Z.pos mt) et c <= scaled (Z.pos m) e c ->
  SFltb (S754_finite false m e) (S754_finite false mt et) = false.
Proof.
  intros Hm Hmt Hc Hct Hle. unfold SFltb, SFcompare.
  destruct (Z.compare_spec e et) as [-> | Hlt | Hgt]; try reflexivity.
  - unfold scaled in Hle.
    assert (0 < 2 ^ (et - c)) by (apply Z.pow_pos_nonneg; lia).
    assert (Z.pos mt <= Z.pos m) by nia.
    fold (Pos.compare m mt).
    destruct (Pos.compare_spec m mt); try reflexivity. lia.
  - exfalso. unfold scaled in Hle.
    replace (et - c) with ((et - e - 1) + 1 + (e - c)) in Hle by lia.
    rewrite !Z.pow_add_r in Hle by lia. change (2 ^ 1) with 2 in Hle.
    change (2 ^ 53) with (2 * 2 ^ 52) in Hm.
    assert (0 < 2 ^ (e - c)) by (apply Z.pow_pos_nonneg; lia).
    assert (0 < 2 ^ (et - e - 1)) by (apply Z.pow_pos_nonneg; lia).
    assert (Z.pos mt * 2 * 2 ^ (e - c) <= Z.pos mt * (2 ^ (et - e - 1) * 2 * 2 ^ (e - c))).
    { assert (0 <= Z.pos mt * 2 * 2 ^ (e - c)) by nia. nia. }
    nia.
Qed.

(** [fl(n) * k] is not below [thr] once [n0 * k >= thr]. *)
Lemma float_of_int_mul_not_below (k thr : float) mk ek mt et n0 :
  Prim2SF k = S754_finite false mk ek ->
  Prim2SF thr = S754_finite false mt et ->
  -1000 <= ek <= 1000 -> emin <= et ->
  2 ^ 52 <= Z.pos mt < 2 ^ 53 -> 0 < n0 < 2 ^ 53 ->
  scaled (Z.pos mt) et (-4000) <= n0 * scaled (Z.pos mk) ek (-4000) ->
  forall n, n0 <= n -> (float_of_int n * k <? thr)%float = false.
Proof.
  intros Hk Ht Hek Het Hmt Hn0 Hchk n Hn.
  rewrite FloatAxioms.ltb_spec, FloatAxioms.mul_spec, Hk, Ht.
  unfold emin, emax, prec in Het.
  destruct (Prim2SF_float_of_int_lower n n0 (-4000 - ek) Hn0 Hn)
    as [-> | (m & e & -> & He & Hv)]; [unfold emin, emax, prec; lia | reflexivity |].
  unfold emin, emax, prec in He.
  unfold SF64mul, SFmul. cbn [xorb].
  destruct (binary_round_aux_lower false (Z.pos (m * mk)) (e + ek) loc_Exact (-4000) (Z.pos mt) et)
    as [-> | (m' & e' & -> & Hm' & He' & Hv')];
    try (unfold emin, emax, prec; lia); try reflexivity.
  - etransitivity; [exact Hchk|]. unfold scaled in *.
    rewrite Pos2Z.inj_mul.
    replace (e + ek - -4000) with ((e - (-4000 - ek))) by lia.
    replace (0 - (-4000 - ek)) with (ek - -4000) in Hv by lia.
    nia.
  - apply (SFltb_lower _ _ _ _ (-4000)); solve [lia | exact Hv'].
Qed.


End Rounding.

(** ** The churn scorer *)

Section Churn.
Import Scoring.

Lemma open_tickets_term_saturates n :
  6 <= n -> (float_of_int n * 0.05 <? 0.3)%float = false.
Proof.
  eapply (float_of_int_mul_not_below 0.05 0.3);
    try reflexivity; try lia; vm_compute; try split; congruence.
Qed.

Lemma high_priority_term_saturates n :
  3 <= n -> (float_of_int n * 0.1 <? 0.3)%float = false.
Proof.
  eapply (float_of_int_mul_not_below 0.1 0.3);
    try reflexivity; try lia; vm_compute; try split; congruence.
Qed.

Lemma overdue_term_saturates n :
  3 <= n -> (float_of_int n * 0.08 <? 0.2)%float = false.
Proof.
  eapply (float_of_int_mul_not_below 0.08 0.2);
    try reflexivity; try lia; vm_compute; try split; congruence.
Qed.

(** A capped term takes the value it has at the saturation count from
    there on. *)
Lemma capped_term cap k n0 n :
  (forall i, n0 <= i -> (float_of_int i * k <? cap)%float = false) ->
  py_min cap (float_of_int n * k) = py_min cap (float_of_int (Z.min n n0) * k).
Proof.
  intros Hsat. destruct (Z_le_gt_dec n n0) as [Hle|Hgt].
  - now rewrite Z.min_l.
  - rewrite Z.min_r by lia. unfold py_min.
    now rewrite (Hsat n), (Hsat n0) by lia.
Qed.

Lemma churn_probability_saturates n1 n2 n3 missed stale :
  churn_probability n1 n2 n3 missed stale =
  churn_probability (Z.min n1 6) (Z.min n2 3) (Z.min n3 3) missed stale.
Proof.
  unfold churn_probability.
  rewrite (capped_term 0.3 0.05 6 n1) by apply open_tickets_term_saturates.
  rewrite (capped_term 0.3 0.1 3 n2) by apply high_priority_term_saturates.
  rewrite (capped_term 0.2 0.08 3 n3) by apply overdue_term_saturates.
  reflexivity.
Qed.

Lemma churn_probability_small n1 n2 n3 missed stale :
  0 <= n1 <= 6 -> 0 <= n2 <= 3 -> 0 <= n3 <= 3 ->
  churn_check (churn_probability n1 n2 n3 missed stale) = true.
Proof.
  intros H1 H2 H3.
  assert (E1 : n1 = 0 \/ n1 = 1 \/ n1 = 2 \/ n1 = 3 \/ n1 = 4 \/ n1 = 5 \/ n1 = 6) by lia.
  assert (E2 : n2 = 0 \/ n2 = 1 \/ n2 = 2 \/ n2 = 3) by lia.
  assert (E3 : n3 = 0 \/ n3 = 1 \/ n3 = 2 \/ n3 = 3) by lia.
  clear H1 H2 H3.
  repeat (destruct E1 as [->|E1]); subst;
    repeat (destruct E2 as [->|E2]); subst;
      repeat (destruct E3 as [->|E3]); subst;
        destruct missed, stale; vm_compute; reflexivity.
Qed.

Lemma churn_probability_checked n1 n2 n3 missed stale :
  0 <= n1 -> 0 <= n2 -> 0 <= n3 ->
  churn_check (churn_probability n1 n2 n3 missed stale) = true.
Proof.
  intros H1 H2 H3. rewrite churn_probability_saturates.
  apply churn_probability_small; lia.
Qed.

Lemma count_nonneg {A} (P : A -> Prop) `{forall x, Decision (P x)} (xs : list A) :
  0 <= count P xs.
Proof. unfold count. lia. Qed.

Lemma calculate_churn_risk_unfold utcnow client tickets tasks appointments :
  calculate_churn_risk utcnow client tickets tasks appointments =
  let probability :=
    churn_probability
      (count (fun ticket => Ticket.status ticket = "open") tickets)
      (count (fun ticket => Ticket.status ticket = "open" /\ Ticket.priority ticket = "high")
             tickets)
      (count (overdue (date_of utcnow)) tasks)
      (negb (count (fun appt => Appointment.status appt = "cancelled") appointments =? 0))
      (30 <? timedelta_days (utcnow - Client.updated_at client)) in
  (probability, churn_label probability).
Proof. reflexivity. Qed.

(** C3. For every client, clock reading and lists of tickets, tasks and
    appointments, the probability that [calculate_churn_risk] returns lies
    between 0.05 and 0.95, and the label is "high" exactly when the
    probability is at least 0.6, "medium" exactly when it is at least 0.35
    and below 0.6, and "low" exactly in the remaining case. *)
Theorem churn_risk_bounds utcnow client tickets tasks appointments :
  let '(probability, label) :=
    calculate_churn_risk utcnow client tickets tasks appointments in
  (0.05 <=? probability)%float = true /\
  (probability <=? 0.95)%float = true /\
  (label = "high" <-> (0.6 <=? probability)%float = true) /\
  (label = "medium" <->
     (0.35 <=? probability)%float = true /\ (probability <? 0.6)%float = true) /\
  (label = "low" <->
     (0.6 <=? probability)%float = false /\
     ~ ((0.35 <=? probability)%float = true /\ (probability <? 0.6)%float = true)).
Proof.
  rewrite calculate_churn_risk_unfold. cbv zeta.
  set (p := churn_probability _ _ _ _ _).
  assert (Hp : churn_check p = true)
    by (apply churn_probability_checked; apply count_nonneg).
  unfold churn_check in Hp.
  apply andb_prop in Hp as [Hp Hnan]. apply andb_prop in Hp as [Hlo Hhi].
  apply Bool.eqb_prop in Hnan. unfold churn_label. rewrite Hnan.
  split; [exact Hlo|]. split; [exact Hhi|].
  destruct (0.6 <=? p)%float, (0.35 <=? p)%float; cbn;
    repeat split; intros; try discriminate; try reflexivity; intuition discriminate.
Qed.

End Churn.

(** ** Insertion-ordered dictionaries *)

Section Dict.
Context {V : Type}.
Implicit Types (d : dict V) (k : string) (v : V).

Lemma dict_get_set_eq k v d : dict_get k (dict_set k v d) = Some v.
Proof.
  induction d as [|[k' v'] d IH]; cbn.
  - now rewrite String.eqb_refl.
  - destruct (String.eqb_spec k k') as [->|Hne]; cbn.
    + now rewrite String.eqb_refl.
    + destruct (String.eqb_spec k k'); [contradiction|exact IH].
Qed.

Lemma dict_get_set_ne k k' v d : k <> k' -> dict_get k' (dict_set k v d) = dict_get k' d.
Proof.
  intros Hne. induction d as [|[k0 v0] d IH]; cbn.
  - destruct (String.eqb_spec k' k); [congruence|reflexivity].
  - destruct (String.eqb_spec k k0) as [->|Hk]; cbn.
    + destruct (String.eqb_spec k' k0); [congruence|reflexivity].
    + destruct (String.eqb_spec k' k0); [reflexivity|exact IH].
Qed.

Lemma dict_get_None k d : dict_get k d = None <-> k ∉ dict_keys d.
Proof.
  unfold dict_keys. induction d as [|[k' v'] d IH]; cbn.
  - split; [intros _; apply not_elem_of_nil|reflexivity].
  - rewrite not_elem_of_cons. destruct (String.eqb_spec k k') as [->|Hne].
    + split; [discriminate|intros [[] _]; reflexivity].
    + rewrite IH. tauto.
Qed.

Lemma dict_get_Some_elem k v d : dict_get k d = Some v -> (k, v) ∈ d.
Proof.
  induction d as [|[k' v'] d IH]; cbn; [discriminate|].
  destruct (String.eqb_spec k k') as [->|Hne].
  - intros [= ->]. apply elem_of_cons. now left.
  - intros H. apply elem_of_cons. right. apply IH, H.
Qed.

Lemma dict_elem_get k v d : NoDup (dict_keys d) -> (k, v) ∈ d -> dict_get k d = Some v.
Proof.
  unfold dict_keys. induction d as [|[k' v'] d IH]; cbn; intros Hnd Hin.
  - now apply elem_of_nil in Hin.
  - apply NoDup_cons in Hnd as [Hk' Hnd]. apply elem_of_cons in Hin as [[= -> ->]|Hin].
    + now rewrite String.eqb_refl.
    + destruct (String.eqb_spec k k') as [->|Hne]; [|now apply IH].
      exfalso. apply Hk'. apply (list_elem_of_fmap_2 fst) in Hin. exact Hin.
Qed.

Lemma dict_keys_set k v d :
  dict_keys (dict_set k v d) =
  match dict_get k d with
  | Some _ => dict_keys d
  | None => (dict_keys d ++ [k])%list
  end.
Proof.
  unfold dict_keys. induction d as [|[k' v'] d IH]; cbn; [reflexivity|].
  destruct (String.eqb_spec k k') as [->|Hne]; cbn; [reflexivity|].
  rewrite IH. now destruct (dict_get k d).
Qed.

Lemma dict_set_NoDup k v d : NoDup (dict_keys d) -> NoDup (dict_keys (dict_set k v d)).
Proof.
  intros Hnd. rewrite dict_keys_set. destruct (dict_get k d) eqn:Hget; [exact Hnd|].
  apply NoDup_app. split; [exact Hnd|]. split; [|apply NoDup_singleton].
  intros x Hx Hx'. apply list_elem_of_singleton in Hx' as ->.
  now apply dict_get_None in Hget.
Qed.

End Dict.

(** ** The severity escalation table *)

Section Escalation.
Import Ingest.

(** C2. The escalation policy is the fixed table. For every severity
    string, as the route has it after [str(...).lower()], "disaster" and
    "high" give priority "high", "average" and "warning" give "normal",
    "information" and "not_classified" give "low", and every other string
    gives "normal". The policy is a total function of the severity alone:
    it reads no state and has no failure. *)
Theorem severity_escalation_table (severity : string) :
  priority_of_severity severity =
    if decide (severity = "disaster" \/ severity = "high") then "high"
    else if decide (severity = "average" \/ severity = "warning") then "normal"
    else if decide (severity = "information" \/ severity = "not_classified") then "low"
    else "normal".
Proof.
  unfold priority_of_severity, SEVERITY_PRIORITY_MAP.
  destruct (decide (severity = "disaster" \/ severity = "high")) as [[-> | ->]|N1];
    [reflexivity..|].
  destruct (decide (severity = "average" \/ severity = "warning")) as [[-> | ->]|N2];
    [reflexivity..|].
  destruct (decide (severity = "information" \/ severity = "not_classified"))
    as [[-> | ->]|N3]; [reflexivity..|].
  rewrite !lookup_insert_ne, lookup_singleton_ne by naive_solver. reflexivity.
Qed.

(** The route applies the table to the lowercased text of the member. *)
Lemma escalation_is_case_insensitive :
  priority_of_severity (lower (py_str (JStr "DISASTER"))) = "high" /\
  priority_of_severity (lower (py_str (JStr "Information"))) = "low" /\
  priority_of_severity (lower (py_str (JStr "unknown-value"))) = "normal".
Proof. repeat split; reflexivity. Qed.

End Escalation.

(** ** The engineer load scorer *)

Section EngineerLoad.
Import Scoring LoadSpec.

Lemma or_None_Some x e : or_None x = Some e <-> x = Some e /\ e <> "".
Proof.
  unfold or_None. destruct x as [s|].
  - destruct (String.eqb_spec s "") as [->|Hne]; split.
    + discriminate.
    + intros [[= <-] Hne]. now destruct Hne.
    + intros [= <-]. now split.
    + now intros [[= <-] _].
  - split; [discriminate|]. intros [Hx _]. discriminate.
Qed.

Lemma count_cons {A} (P : A -> Prop) `{forall x, Decision (P x)} x xs :
  count P (x :: xs) = (if decide (P x) then 1 else 0) + count P xs.
Proof. unfold count. rewrite filter_cons. destruct (decide (P x)); cbn [length]; lia. Qed.

Lemma count_no_Exists {A} (P : A -> Prop) `{forall x, Decision (P x)} xs :
  ~ Exists P xs -> count P xs = 0.
Proof.
  induction xs as [|x xs IH]; intros Hno; [reflexivity|].
  rewrite count_cons, IH by (intros ?; apply Hno; now right).
  destruct (decide (P x)); [|reflexivity]. exfalso. apply Hno. now left.
Qed.

Lemma bump_get_eq e f w :
  dict_get e (bump e f w) = Some (f (default no_work (dict_get e w))).
Proof. apply dict_get_set_eq. Qed.

Lemma bump_get_ne e e' f w : e <> e' -> dict_get e' (bump e f w) = dict_get e' w.
Proof. apply dict_get_set_ne. Qed.

Lemma add_task_get e w task :
  e <> "" ->
  dict_get e (add_task w task) =
  if decide (task_counts e task)
  then Some {| open_tasks := open_tasks (default no_work (dict_get e w)) + 1;
               scheduled_minutes := scheduled_minutes (default no_work (dict_get e w)) |}
  else dict_get e w.
Proof.
  intros He. unfold add_task, task_counts.
  destruct (or_None (Task.assigned_to task)) as [e'|] eqn:Hor.
  - apply or_None_Some in Hor as [Has He'].
    destruct (decide (Task.status task <> "completed")) as [Hst|Hst].
    + destruct (decide (e' = e)) as [->|Hne].
      * rewrite bump_get_eq. rewrite decide_True by done. reflexivity.
      * rewrite bump_get_ne by done. rewrite decide_False; [reflexivity|].
        intros [_ Heq]. congruence.
    + rewrite decide_False; [reflexivity|]. tauto.
  - rewrite decide_False; [reflexivity|]. intros [_ Heq].
    assert (or_None (Task.assigned_to task) = Some e) by (apply or_None_Some; done).
    congruence.
Qed.

Lemma add_task_get_empty w task : dict_get "" (add_task w task) = dict_get "" w.
Proof.
  unfold add_task. destruct (or_None (Task.assigned_to task)) as [e'|] eqn:Hor; [|done].
  apply or_None_Some in Hor as [_ He']. case_decide; [|done].
  apply bump_get_ne. done.
Qed.

Lemma foldl_add_task_get e tasks : forall w,
  e <> "" ->
  dict_get e (foldl add_task w tasks) =
  if decide (Exists (task_counts e) tasks)
  then Some {| open_tasks := open_tasks (default no_work (dict_get e w)) + open_tasks_of e tasks;
               scheduled_minutes := scheduled_minutes (default no_work (dict_get e w)) |}
  else dict_get e w.
Proof.
  unfold open_tasks_of.
  induction tasks as [|task tasks IH]; intros w He; cbn [foldl].
  - rewrite decide_False; [reflexivity|]. now intros ?%Exists_nil.
  - rewrite IH, add_task_get, count_cons by done.
    destruct (decide (task_counts e task)) as [Hc|Hc].
    + rewrite (decide_True (P := Exists _ (task :: tasks))) by (now left).
      destruct (decide (Exists (task_counts e) tasks)) as [Hex|Hex];
        unfold default; cbn [from_option id open_tasks scheduled_minutes].
      * f_equal; f_equal; lia.
      * rewrite count_no_Exists by done. f_equal; f_equal; lia.
    + destruct (decide (Exists (task_counts e) tasks)) as [Hex|Hex].
      * rewrite decide_True by (now right). f_equal; f_equal; lia.
      * rewrite decide_False; [reflexivity|].
        intros Hex'. apply Exists_cons in Hex' as [?|?]; contradiction.
Qed.

Lemma foldl_add_task_get_empty tasks : forall w,
  dict_get "" (foldl add_task w tasks) = dict_get "" w.
Proof.
  induction tasks as [|task tasks IH]; intros w; cbn [foldl]; [reflexivity|].
  now rewrite IH, add_task_get_empty.
Qed.

Lemma add_appointment_get e w a :
  e <> "" ->
  dict_get e (add_appointment w a) =
  if decide (appointment_counts e a)
  then Some {| open_tasks := open_tasks (default no_work (dict_get e w));
               scheduled_minutes :=
                 scheduled_minutes (default no_work (dict_get e w))
                 + Appointment.duration_minutes a |}
  else dict_get e w.
Proof.
  intros He. unfold add_appointment, appointment_counts.
  destruct (or_None (Appointment.assigned_to a)) as [e'|] eqn:Hor.
  - apply or_None_Some in Hor as [Has He'].
    destruct (decide (Appointment.status a = "scheduled")) as [Hst|Hst].
    + destruct (decide (e' = e)) as [->|Hne].
      * rewrite bump_get_eq. rewrite decide_True by done. reflexivity.
      * rewrite bump_get_ne by done. rewrite decide_False; [reflexivity|].
        intros [_ Heq]. congruence.
    + rewrite decide_False; [reflexivity|]. tauto.
  - rewrite decide_False; [reflexivity|]. intros [_ Heq].
    assert (or_None (Appointment.assigned_to a) = Some e) by (apply or_None_Some; done).
    congruence.
Qed.

Lemma add_appointment_get_empty w a :
  dict_get "" (add_appointment w a) = dict_get "" w.
Proof.
  unfold add_appointment.
  destruct (or_None (Appointment.assigned_to a)) as [e'|] eqn:Hor; [|done].
  apply or_None_Some in Hor as [_ He']. case_decide; [|done].
  apply bump_get_ne. done.
Qed.

Lemma scheduled_minutes_of_cons e a appointments :
  scheduled_minutes_of e (a :: appointments) =
  (if decide (appointment_counts e a) then Appointment.duration_minutes a else 0)
  + scheduled_minutes_of e appointments.
Proof.
  unfold scheduled_minutes_of. rewrite filter_cons.
  destruct (decide (appointment_counts e a)); reflexivity.
Qed.

Lemma scheduled_minutes_of_no_Exists e appointments :
  ~ Exists (appointment_counts e) appointments -> scheduled_minutes_of e appointments = 0.
Proof.
  induction appointments as [|a appointments IH]; intros Hno; [reflexivity|].
  rewrite scheduled_minutes_of_cons, IH by (intros ?; apply Hno; now right).
  destruct (decide (appointment_counts e a)); [|reflexivity]. exfalso. apply Hno. now left.
Qed.

Lemma foldl_add_appointment_get e appointments : forall w,
  e <> "" ->
  dict_get e (foldl add_appointment w appointments) =
  if decide (Exists (appointment_counts e) appointments)
  then Some {| open_tasks := open_tasks (default no_work (dict_get e w));
               scheduled_minutes :=
                 scheduled_minutes (default no_work (dict_get e w))
                 + scheduled_minutes_of e appointments |}
  else dict_get e w.
Proof.
  induction appointments as [|a appointments IH]; intros w He; cbn [foldl].
  - rewrite decide_False; [reflexivity|]. now intros ?%Exists_nil.
  - rewrite IH, add_appointment_get, scheduled_minutes_of_cons by done.
    destruct (decide (appointment_counts e a)) as [Hc|Hc].
    + rewrite (decide_True (P := Exists _ (a :: appointments))) by (now left).
      destruct (decide (Exists (appointment_counts e) appointments)) as [Hex|Hex];
        unfold default; cbn [from_option id open_tasks scheduled_minutes].
      * f_equal; f_equal; lia.
      * rewrite scheduled_minutes_of_no_Exists by done. f_equal; f_equal; lia.
    + destruct (decide (Exists (appointment_counts e) appointments)) as [Hex|Hex].
      * rewrite decide_True by (now right). f_equal.
      * rewrite decide_False; [reflexivity|].
        intros Hex'. apply Exists_cons in Hex' as [?|?]; contradiction.
Qed.

Lemma foldl_add_appointment_get_empty appointments : forall w,
  dict_get "" (foldl add_appointment w appointments) = dict_get "" w.
Proof.
  induction appointments as [|a appointments IH]; intros w; cbn [foldl]; [reflexivity|].
  now rewrite IH, add_appointment_get_empty.
Qed.

Lemma foldl_add_task_NoDup tasks : forall w,
  NoDup (dict_keys w) -> NoDup (dict_keys (foldl add_task w tasks)).
Proof.
  induction tasks as [|task tasks IH]; intros w Hw; cbn [foldl]; [exact Hw|].
  apply IH. unfold add_task. repeat case_match; try exact Hw. now apply dict_set_NoDup.
Qed.

Lemma foldl_add_appointment_NoDup appointments : forall w,
  NoDup (dict_keys w) -> NoDup (dict_keys (foldl add_appointment w appointments)).
Proof.
  induction appointments as [|a appointments IH]; intros w Hw; cbn [foldl]; [exact Hw|].
  apply IH. unfold add_appointment. repeat case_match; try exact Hw. now apply dict_set_NoDup.
Qed.

(** The dictionary built by the two loops, read at one name. *)
Lemma workload_get e tasks appointments :
  dict_get e (foldl add_appointment (foldl add_task [] tasks) appointments) =
  if decide (has_work e tasks appointments)
  then Some (workload_of e tasks appointments)
  else None.
Proof.
  unfold has_work, workload_of. destruct (decide (e = "")) as [->|He].
  - rewrite foldl_add_appointment_get_empty, foldl_add_task_get_empty.
    rewrite decide_False; [reflexivity|]. tauto.
  - rewrite foldl_add_appointment_get, foldl_add_task_get by done. cbn [dict_get default].
    destruct (decide (Exists (task_counts e) tasks)) as [Ht|Ht],
             (decide (Exists (appointment_counts e) appointments)) as [Ha|Ha];
      cbn [default open_tasks scheduled_minutes no_work].
    + rewrite decide_True by tauto. f_equal.
    + rewrite decide_True by tauto.
      rewrite (scheduled_minutes_of_no_Exists e appointments) by done. f_equal.
    + rewrite decide_True by tauto. unfold open_tasks_of at 1.
      rewrite (count_no_Exists (task_counts e) tasks) by done. f_equal.
    + rewrite decide_False; [reflexivity|]. tauto.
Qed.

End EngineerLoad.

Section EngineerLoadSpec.
Import Scoring LoadSpec.

(** A score of at most 0.35 is below 0.8. *)
Lemma leb_035_not_08 (x : float) :
  (x <=? 0.35)%float = true -> (0.8 <=? x)%float = false.
Proof.
  rewrite !FloatAxioms.leb_spec.
  let c := eval vm_compute in (Prim2SF 0.35) in change (Prim2SF 0.35) with c.
  let c := eval vm_compute in (Prim2SF 0.8) in change (Prim2SF 0.8) with c.
  unfold SFleb, SFcompare.
  destruct (Prim2SF x) as [[]|[]| |[] m e]; try discriminate; try reflexivity.
  destruct (Z.compare_spec e (-54)) as [->|Hlt|Hgt]; intros H; try discriminate.
  - reflexivity.
  - destruct (Z.compare_spec (-53) e); first [lia | reflexivity].
Qed.

Lemma status_of_cases (score : float) :
  (status_of score = "overloaded" <-> (0.8 <=? score)%float = true) /\
  (status_of score = "underutilised" <-> (score <=? 0.35)%float = true) /\
  (status_of score = "balanced" <->
     (0.8 <=? score)%float = false /\ (score <=? 0.35)%float = false).
Proof.
  unfold status_of. pose proof (leb_035_not_08 score) as Hord.
  destruct (0.8 <=? score)%float, (score <=? 0.35)%float;
    try (specialize (Hord eq_refl); discriminate);
    repeat split; intros; try discriminate; try reflexivity; intuition discriminate.
Qed.

Lemma engineer_forecast item : engineer (forecast item) = item.1.
Proof. now destruct item. Qed.

(** C9, as the code has it. The engineers in the result are, without
    repetition, the non-empty names to which a task that is not completed
    or a scheduled appointment is assigned. For each of them [open_tasks]
    is the number of those tasks and [scheduled_minutes] the sum of the
    durations of those appointments. The score is the binary64 number
    that Python computes for
    [min(1.0, open_tasks * 0.05 + min(1.0, scheduled_minutes / 480))],
    each operation rounded to the nearest float; the status is
    "overloaded" iff that number is at least the float 0.8,
    "underutilised" iff it is at most the float 0.35, and "balanced"
    otherwise; and the utilisation reported is
    [min(1.0, scheduled_minutes / 480)] rounded to two decimals. *)
Theorem engineer_load_spec tasks appointments :
  let result := calculate_engineer_load tasks appointments in
  NoDup (engineer <$> result) /\
  (forall e, e ∈ engineer <$> result <-> has_work e tasks appointments) /\
  (forall f, f ∈ result ->
     let data := workload_of (engineer f) tasks appointments in
     let unrounded := py_min 1.0 (truediv (scheduled_minutes data) 480) in
     let score := py_min 1.0 (float_of_int (open_tasks data) * 0.05 + unrounded)%float in
     forecast_open_tasks f = open_tasks_of (engineer f) tasks /\
     forecast_scheduled_minutes f = scheduled_minutes_of (engineer f) appointments /\
     utilisation f = round2 unrounded /\
     (status f = "overloaded" <-> (0.8 <=? score)%float = true) /\
     (status f = "underutilised" <-> (score <=? 0.35)%float = true) /\
     (status f = "balanced" <->
        (0.8 <=? score)%float = false /\ (score <=? 0.35)%float = false)).
Proof.
  unfold calculate_engineer_load. cbv zeta.
  set (workload := foldl add_appointment (foldl add_task [] tasks) appointments).
  assert (Hnd : NoDup (dict_keys workload)).
  { apply foldl_add_appointment_NoDup, foldl_add_task_NoDup. apply NoDup_nil_2. }
  assert (Hkeys : engineer <$> (forecast <$> workload) = dict_keys workload).
  { unfold dict_keys. rewrite <- list_fmap_compose. apply list_fmap_ext.
    intros i item _. apply engineer_forecast. }
  assert (Hget : forall e, dict_get e workload =
                           if decide (has_work e tasks appointments)
                           then Some (workload_of e tasks appointments) else None)
    by (intros e; apply workload_get).
  split; [now rewrite Hkeys|]. split.
  - intros e. rewrite Hkeys. specialize (Hget e).
    destruct (decide (has_work e tasks appointments)) as [Hw|Hw].
    + split; [done|]. intros _.
      destruct (decide (e ∈ dict_keys workload)) as [|Hnot]; [done|].
      apply dict_get_None in Hnot. congruence.
    + split; [|done]. intros Hin. exfalso.
      apply dict_get_None in Hget. contradiction.
  - intros f Hf. apply list_elem_of_fmap in Hf as ([e data] & -> & Hin).
    apply (dict_elem_get _ _ _ Hnd) in Hin. rewrite Hget in Hin.
    destruct (decide (has_work e tasks appointments)); [|discriminate].
    injection Hin as <-. cbn [forecast engineer forecast_open_tasks
      forecast_scheduled_minutes utilisation status].
    split; [reflexivity|]. split; [reflexivity|]. split; [reflexivity|].
    apply status_of_cases.
Qed.

(** The score is a binary64 number and the thresholds are compared with
    it: seven open tasks score [7 * 0.05 = 0.35000000000000003], above
    0.35, and two open tasks with 336 scheduled minutes score
    [0.1 + 0.7 = 0.7999999999999999], below 0.8; both engineers are
    "balanced". *)
Lemma engineer_load_thresholds_on_floats :
  let chore := {| Task.id := 1; Task.client_id := None; Task.status := "pending";
                  Task.priority := "normal"; Task.due_date := None;
                  Task.assigned_to := Some "Alice" |} in
  status <$> calculate_engineer_load (replicate 7 chore) [] = ["balanced"] /\
  status <$> calculate_engineer_load [chore; chore] [visit 1 0 336 (Some "Alice")]
    = ["balanced"] /\
  Prim2SF (score_of {| open_tasks := 7; scheduled_minutes := 0 |})
    = Prim2SF 0.35000000000000003%float /\
  Prim2SF (score_of {| open_tasks := 2; scheduled_minutes := 336 |})
    = Prim2SF 0.7999999999999999%float.
Proof. vm_compute. repeat split. Qed.

(** C9 does not hold as stated: the utilisation in the result is not
    [min(1.0, scheduled_minutes / 480)]. One scheduled visit of 100 minutes
    gives 0.21, not 0.20833333333333334. *)
Lemma engineer_load_utilisation_not_unrounded :
  ~ (forall tasks appointments f,
       f ∈ calculate_engineer_load tasks appointments ->
       utilisation f =
         py_min 1.0 (truediv (scheduled_minutes_of (engineer f) appointments) (8 * 60))).
Proof.
  intros H.
  specialize (H [] [visit 1 0 100 (Some "Alice")]
                {| engineer := "Alice"; forecast_open_tasks := 0;
                   forecast_scheduled_minutes := 100;
                   utilisation := 0.21; status := "underutilised" |}).
  assert (Hin : {| engineer := "Alice"; forecast_open_tasks := 0;
                   forecast_scheduled_minutes := 100;
                   utilisation := 0.21; status := "underutilised" |}
                ∈ calculate_engineer_load [] [visit 1 0 100 (Some "Alice")]).
  { vm_compute. apply elem_of_cons. now left. }
  apply H in Hin. apply (f_equal Prim2SF) in Hin. vm_compute in Hin. discriminate.
Qed.

End EngineerLoadSpec.

(** ** Incident ingestion *)

Section IngestFacts.
Import Ingest.

Lemma alter_first_length {A} (P : A -> bool) f (rows : list A) :
  length (alter_first P f rows) = length rows.
Proof.
  induction rows as [|x rows IH]; cbn; [reflexivity|].
  destruct (P x); cbn; congruence.
Qed.

Lemma alter_first_fmap {A B} (g : A -> B) (P : A -> bool) f (rows : list A) :
  (forall x, g (f x) = g x) -> g <$> alter_first P f rows = g <$> rows.
Proof.
  intros Hg. induction rows as [|x rows IH]; cbn; [reflexivity|].
  destruct (P x); cbn; rewrite ?Hg, ?IH; reflexivity.
Qed.

Lemma find_alter_first {A} (P : A -> bool) f (rows : list A) x :
  find P rows = Some x -> P (f x) = true ->
  find P (alter_first P f rows) = Some (f x).
Proof.
  intros Hfind Hf. induction rows as [|y rows IH]; cbn in *; [discriminate|].
  destruct (P y) eqn:Hy.
  - injection Hfind as ->. cbn. now rewrite Hf.
  - cbn. rewrite Hy. now apply IH.
Qed.

Lemma find_Some_holds {A} (P : A -> bool) (rows : list A) x :
  find P rows = Some x -> P x = true /\ x ∈ rows.
Proof.
  induction rows as [|y rows IH]; cbn; [discriminate|].
  destruct (P y) eqn:Hy.
  - intros [= ->]. split; [exact Hy|]. apply elem_of_cons. now left.
  - intros H. destruct (IH H) as [? ?]. split; [assumption|]. apply elem_of_cons. now right.
Qed.

Lemma find_None_filter {A} (P : A -> bool) (rows : list A) :
  find P rows = None -> filter (fun x => P x = true) rows = [].
Proof.
  induction rows as [|y rows IH]; cbn [find]; [reflexivity|].
  destruct (P y) eqn:Hy; [discriminate|]. intros H.
  rewrite filter_cons, decide_False by (rewrite Hy; discriminate). now apply IH.
Qed.

Lemma find_app_None {A} (P : A -> bool) (rows : list A) x :
  find P rows = None -> P x = true -> find P (rows ++ [x]) = Some x.
Proof.
  intros Hnone Hx. induction rows as [|y rows IH]; cbn in *; [now rewrite Hx|].
  destruct (P y); [discriminate|]. now apply IH.
Qed.

Lemma filter_alter_first_length {A} (P Q : A -> bool) f (rows : list A) :
  (forall x, Q (f x) = Q x) ->
  length (filter (fun x => Q x = true) (alter_first P f rows)) =
  length (filter (fun x => Q x = true) rows).
Proof.
  intros HQ. induction rows as [|y rows IH]; cbn [alter_first]; [reflexivity|].
  destruct (P y); rewrite !filter_cons.
  - rewrite HQ. destruct (decide (Q y = true)); reflexivity.
  - destruct (decide (Q y = true)); cbn [length]; rewrite IH; reflexivity.
Qed.

(** A new primary key is above every key of the table. *)
Lemma next_id_fresh (ids : list Z) x : x ∈ ids -> x < next_id ids.
Proof.
  unfold next_id. induction ids as [|y ids IH]; cbn.
  - intros H. now apply elem_of_nil in H.
  - intros [->|H]%elem_of_cons; [lia|]. specialize (IH H). lia.
Qed.

Lemma has_id_true tid t : has_id tid t = true <-> Ticket.id t = tid.
Proof. unfold has_id. apply bool_decide_eq_true. Qed.

Lemma same_event_true key i :
  same_event key i = true <->
  MonitoringIncident.source i = "zabbix" /\ MonitoringIncident.external_id i = key.
Proof. unfold same_event. apply bool_decide_eq_true. Qed.

(** What the update branch does to the database and what it answers. *)
Lemma update_existing_spec db data existing severity message :
  let '(db', r) := update_existing db data existing severity message in
  status_code r = 200 /\
  clients db' = clients db /\
  incidents db' =
    alter_first (same_event (MonitoringIncident.external_id existing))
                (fun _ => incident r) (incidents db) /\
  ticket r = linked_ticket (tickets db') (incident r) /\
  MonitoringIncident.severity (incident r) = severity /\
  MonitoringIncident.message (incident r) = message /\
  MonitoringIncident.id (incident r) = MonitoringIncident.id existing /\
  MonitoringIncident.client_id (incident r) = MonitoringIncident.client_id existing /\
  MonitoringIncident.source (incident r) = MonitoringIncident.source existing /\
  MonitoringIncident.external_id (incident r) = MonitoringIncident.external_id existing /\
  MonitoringIncident.occurred_at (incident r) = MonitoringIncident.occurred_at existing /\
  MonitoringIncident.ticket_id (incident r) = MonitoringIncident.ticket_id existing /\
  (tickets db' = tickets db \/
   exists t raw_status,
     data !! "status" = Some raw_status /\ truthy raw_status = true /\
     resolves (lower (py_str raw_status)) = true /\
     linked_ticket (tickets db) existing = Some t /\
     tickets db' =
       alter_first (has_id (Ticket.id t)) (Ticket.set_status "resolved") (tickets db)) /\
  (forall raw_status t,
     data !! "status" = Some raw_status -> truthy raw_status = true ->
     resolves (lower (py_str raw_status)) = true ->
     linked_ticket (tickets db) existing = Some t ->
     tickets db' =
       alter_first (has_id (Ticket.id t)) (Ticket.set_status "resolved") (tickets db)).
Proof.
  unfold update_existing.
  destruct (data !! "status") as [raw_status|] eqn:Hst;
    [destruct (truthy raw_status) eqn:Htr;
     [destruct (linked_ticket (tickets db) existing) as [t|] eqn:Hlink;
      [destruct (resolves (lower (py_str raw_status))) eqn:Hres|]|]|];
    cbn [incident ticket status_code clients tickets incidents
         MonitoringIncident.set_message MonitoringIncident.set_severity
         MonitoringIncident.set_status MonitoringIncident.severity
         MonitoringIncident.message MonitoringIncident.id MonitoringIncident.client_id
         MonitoringIncident.source MonitoringIncident.external_id
         MonitoringIncident.occurred_at MonitoringIncident.ticket_id];
    repeat (split; [reflexivity|]); (split; [|intros; congruence]).
  - right. exists t, raw_status. done.
  - now left.
  - now left.
  - now left.
  - now left.
Qed.

Lemma linked_ticket_resolved tickets existing t :
  linked_ticket tickets existing = Some t ->
  linked_ticket
    (alter_first (has_id (Ticket.id t)) (Ticket.set_status "resolved") tickets)
    existing
  = Some (Ticket.set_status "resolved" t).
Proof.
  unfold linked_ticket. destruct (MonitoringIncident.ticket_id existing) as [tid|];
    [|discriminate].
  intros Hfind. destruct (find_Some_holds _ _ _ Hfind) as [Hid _].
  apply has_id_true in Hid. rewrite Hid.
  apply find_alter_first; [exact Hfind|]. apply has_id_true. exact Hid.
Qed.

Context `{Builtins}.

(** An accepted request whose event is known takes the update branch. *)
Lemma ingest_known_event utcnow db data event_id raw_severity message existing :
  accepted db data event_id raw_severity message ->
  find (same_event (py_str event_id)) (incidents db) = Some existing ->
  ingest_zabbix_event utcnow db data =
  Return (update_existing db data existing (lower (py_str raw_severity)) message).
Proof.
  intros (He & Hs & Hm & raw & cid & Hc & Hint & [client Hclient]) Hfind.
  unfold ingest_zabbix_event. rewrite He, Hc, Hs, Hm, Hint. cbn.
  unfold get_or_404. rewrite Hclient. cbn. now rewrite Hfind.
Qed.

(** A request that the route answers with a result was accepted. *)
Lemma ingest_Return_accepted utcnow db data db' r :
  ingest_zabbix_event utcnow db data = Return (db', r) ->
  exists event_id raw_severity message,
    accepted db data event_id raw_severity message.
Proof.
  unfold ingest_zabbix_event, accepted.
  destruct (data !! "event_id") as [event_id|]; [|discriminate].
  destruct (data !! "client_id") as [raw|]; [|discriminate].
  destruct (data !! "severity") as [raw_severity|]; [|discriminate].
  destruct (data !! "message") as [message|]; [|discriminate].
  destruct (except_TypeError_ValueError_400 (py_int raw)) as [cid| |] eqn:Hint;
    cbn; try discriminate.
  unfold get_or_404.
  destruct (find _ (clients db)) as [client|] eqn:Hclient; cbn;
    [|destruct (is_INTEGER cid); discriminate].
  intros _. exists event_id, raw_severity, message.
  repeat split; try reflexivity. exists raw, cid. rewrite Hclient. eauto.
Qed.

End IngestFacts.

Section IngestClaims.
Import Ingest.
Context `{Builtins}.

(** The text of an integer never lowercases to a status word. *)
Lemma py_str_resolves_truthy (raw : json) :
  lower (py_str raw) = "resolved" \/ lower (py_str raw) = "ok" -> truthy raw = true.
Proof.
  destruct raw as [|[]|n|s]; cbn [py_str].
  - intros [?|?]; discriminate.
  - intros [?|?]; discriminate.
  - intros [?|?]; discriminate.
  - destruct (Z.to_int n) as [d|d]; destruct d; cbn; intros [?|?]; discriminate.
  - destruct s; cbn; [intros [?|?]; discriminate|reflexivity].
Qed.

Lemma alter_first_last {A} (P : A -> bool) f (rows : list A) x :
  find P rows = None -> P x = true ->
  alter_first P f (rows ++ [x]) = (rows ++ [f x])%list.
Proof.
  intros Hnone Hx. induction rows as [|y rows IH]; cbn in *; [now rewrite Hx|].
  destruct (P y); [discriminate|]. now rewrite IH.
Qed.

Lemma find_None_not {A} (P : A -> bool) (rows : list A) x :
  find P rows = None -> x ∈ rows -> P x = false.
Proof.
  induction rows as [|y rows IH]; cbn; intros Hnone Hin.
  - now apply elem_of_nil in Hin.
  - destruct (P y) eqn:Hy; [discriminate|].
    apply elem_of_cons in Hin as [->|Hin]; [exact Hy|now apply IH].
Qed.

(** One row carries the key [n], the last, when the keys before it are
    smaller. *)
Lemma one_row_with_new_id (P : Ticket.t -> Prop) `{forall x, Decision (P x)}
    (rows : list Ticket.t) (ids : list Z) (n : Z) :
  Ticket.id <$> rows = (ids ++ [n])%list ->
  (forall x, x ∈ ids -> x < n) ->
  (forall t, P t <-> Ticket.id t = n) ->
  length (filter P rows) = 1%nat.
Proof.
  intros Hids Hlt HP. revert rows Hids Hlt.
  induction ids as [|i ids IH]; intros rows Hids Hlt.
  - destruct rows as [|t [|t' rows]]; try discriminate. injection Hids as Hid.
    rewrite filter_cons_True by (now apply HP). reflexivity.
  - destruct rows as [|t rows]; [discriminate|]. injection Hids as Hid Hids.
    rewrite filter_cons_False.
    + apply IH; [exact Hids|]. intros x Hx. apply Hlt. apply elem_of_cons. now right.
    + rewrite HP, Hid. assert (i < n) by (apply Hlt; apply elem_of_cons; now left). lia.
Qed.

(** What a first delivery leaves in the database. *)
Lemma ingest_Return_stored utcnow db data db1 r1 :
  ingest_zabbix_event utcnow db data = Return (db1, r1) ->
  exists event_id raw_severity message,
    accepted db data event_id raw_severity message /\
    py_str event_id = MonitoringIncident.external_id (incident r1) /\
    MonitoringIncident.source (incident r1) = "zabbix" /\
    clients db1 = clients db /\
    find (same_event (py_str event_id)) (incidents db1) = Some (incident r1) /\
    (created r1 = true ->
     find (same_event (py_str event_id)) (incidents db) = None /\
     incidents db1 = (incidents db ++ [incident r1])%list /\
     exists t, tickets db1 = (tickets db ++ [t])%list /\
               Ticket.id t = next_id (Ticket.id <$> tickets db) /\
               MonitoringIncident.ticket_id (incident r1) = Some (Ticket.id t)).
Proof.
  intros Hret.
  destruct (ingest_Return_accepted _ _ _ _ _ Hret) as (event_id & raw_severity & message & Hacc).
  exists event_id, raw_severity, message. split; [exact Hacc|].
  destruct (find (same_event (py_str event_id)) (incidents db)) as [existing|] eqn:Hfind.
  - rewrite (ingest_known_event _ _ _ _ _ _ _ Hacc Hfind) in Hret.
    injection Hret as Hret.
    pose proof (update_existing_spec db data existing (lower (py_str raw_severity)) message)
      as Hspec.
    rewrite Hret in Hspec.
    destruct Hspec as (Hcode & Hcl & Hinc & _ & _ & _ & _ & _ & Hsrc & Hext & _).
    destruct (find_Some_holds _ _ _ Hfind) as [Hkey _].
    apply same_event_true in Hkey as [Hsrc' Hext'].
    split; [congruence|]. split; [congruence|]. split; [exact Hcl|]. split.
    + rewrite Hinc, Hext'. apply (find_alter_first _ (fun _ => incident r1) _ existing).
      * exact Hfind.
      * apply same_event_true. split; congruence.
    + intros Hcreated. unfold created in Hcreated. rewrite Hcode in Hcreated.
      discriminate.
  - destruct Hacc as (He & Hs & Hm & raw & cid & Hc & Hint & [client Hclient]).
    unfold ingest_zabbix_event in Hret. rewrite He, Hc, Hs, Hm, Hint in Hret.
    cbn in Hret. unfold get_or_404 in Hret. rewrite Hclient in Hret. cbn in Hret.
    rewrite Hfind in Hret. unfold create_incident in Hret.
    match type of Hret with
    | mbind _ ?m = _ => destruct m as [occurred_at| |]; cbn in Hret; try discriminate
    end.
    injection Hret as <- <-.
    cbn [incident incidents tickets clients MonitoringIncident.external_id
         MonitoringIncident.source MonitoringIncident.ticket_id created status_code].
    split; [reflexivity|]. split; [reflexivity|]. split; [reflexivity|]. split.
    + apply find_app_None; [exact Hfind|]. apply same_event_true. now split.
    + intros _. split; [reflexivity|]. split; [reflexivity|].
      eexists. split; [reflexivity|]. split; [|reflexivity].
      destruct (String.eqb _ "high"); reflexivity.
Qed.

(** The status the update branch leaves on the incident. *)
Lemma update_existing_status db data existing severity message :
  MonitoringIncident.status (incident (update_existing db data existing severity message).2) =
  match data !! "status" with
  | Some raw_status =>
      if truthy raw_status then lower (py_str raw_status)
      else MonitoringIncident.status existing
  | None => MonitoringIncident.status existing
  end.
Proof.
  unfold update_existing.
  destruct (data !! "status") as [raw_status|]; [destruct (truthy raw_status)|];
    reflexivity.
Qed.


(** C8. On the update path the stored incident keeps the [client_id] and
    the [occurred_at] it had, whatever [client_id] and [occurred_at] the
    request carries. *)
Theorem ingest_update_keeps_client_and_time
    utcnow db data event_id raw_severity message existing :
  accepted db data event_id raw_severity message ->
  find (same_event (py_str event_id)) (incidents db) = Some existing ->
  exists db' r,
    ingest_zabbix_event utcnow db data = Return (db', r) /\
    find (same_event (py_str event_id)) (incidents db') = Some (incident r) /\
    MonitoringIncident.client_id (incident r) = MonitoringIncident.client_id existing /\
    MonitoringIncident.occurred_at (incident r) = MonitoringIncident.occurred_at existing /\
    MonitoringIncident.client_id <$> incidents db' =
      MonitoringIncident.client_id <$> incidents db /\
    MonitoringIncident.occurred_at <$> incidents db' =
      MonitoringIncident.occurred_at <$> incidents db.
Proof.
  intros Hacc Hfind.
  pose proof (ingest_known_event utcnow _ _ _ _ _ _ Hacc Hfind) as Hrun.
  pose proof (update_existing_spec db data existing (lower (py_str raw_severity)) message)
    as Hspec.
  destruct (update_existing db data existing (lower (py_str raw_severity)) message)
    as [db' r] eqn:Hupd.
  destruct Hspec as (_ & _ & Hinc & _ & _ & _ & _ & Hcid & Hsrc & Hext & Hocc & _).
  destruct (find_Some_holds _ _ _ Hfind) as [Hkey _].
  apply same_event_true in Hkey as [Hsrc' Hext'].
  exists db', r. split; [exact Hrun|]. split.
  { rewrite Hinc, Hext'. apply (find_alter_first _ (fun _ => incident r) _ existing); [exact Hfind|].
    apply same_event_true. split; congruence. }
  split; [exact Hcid|]. split; [exact Hocc|].
  rewrite Hinc, Hext'. clear Hinc Hrun Hupd.
  revert Hfind. generalize (incidents db) as rows.
  induction rows as [|i rows IH]; cbn [find alter_first]; [discriminate|].
  destruct (same_event (py_str event_id) i) eqn:Hi.
  - intros [= ->]. cbn. now rewrite Hcid, Hocc.
  - intros Hrest. destruct (IH Hrest) as [IH1 IH2]. cbn. now rewrite IH1, IH2.
Qed.

(** C10. On the update path no ticket changes its priority or its due
    date: the two columns of the ticket table are as before, and the
    ticket linked to the incident has the priority and due date it had,
    whatever severity the request carries. *)
Theorem ingest_update_keeps_ticket_priority
    utcnow db data event_id raw_severity message existing :
  accepted db data event_id raw_severity message ->
  find (same_event (py_str event_id)) (incidents db) = Some existing ->
  exists db' r,
    ingest_zabbix_event utcnow db data = Return (db', r) /\
    Ticket.id <$> tickets db' = Ticket.id <$> tickets db /\
    Ticket.priority <$> tickets db' = Ticket.priority <$> tickets db /\
    Ticket.due_date <$> tickets db' = Ticket.due_date <$> tickets db /\
    (forall t, linked_ticket (tickets db) existing = Some t ->
       exists t', linked_ticket (tickets db') (incident r) = Some t' /\
                  Ticket.priority t' = Ticket.priority t /\
                  Ticket.due_date t' = Ticket.due_date t).
Proof.
  intros Hacc Hfind.
  pose proof (ingest_known_event utcnow _ _ _ _ _ _ Hacc Hfind) as Hrun.
  pose proof (update_existing_spec db data existing (lower (py_str raw_severity)) message)
    as Hspec.
  destruct (update_existing db data existing (lower (py_str raw_severity)) message)
    as [db' r] eqn:Hupd.
  destruct Hspec as (_ & _ & _ & _ & _ & _ & _ & _ & _ & _ & _ & Htid & Htickets & _).
  exists db', r. split; [exact Hrun|].
  destruct Htickets as [Hsame | (t0 & raw_status & _ & _ & _ & Hlink0 & Halt)].
  - rewrite Hsame. repeat split. intros t Hlink. exists t.
    unfold linked_ticket in *. rewrite Htid. now rewrite Hlink.
  - rewrite Halt. rewrite !alter_first_fmap by reflexivity. repeat split.
    intros t Hlink. assert (t = t0) as -> by congruence.
    exists (Ticket.set_status "resolved" t0). split; [|now split].
    unfold linked_ticket at 1. rewrite Htid.
    apply (linked_ticket_resolved _ existing). exact Hlink.
Qed.

End IngestClaims.

Section Idempotence.
Import Ingest.
Context `{Builtins}.

Lemma alter_first_const_fmap {A B} (g : A -> B) (P : A -> bool) (rows : list A) x y :
  find P rows = Some x -> g y = g x ->
  g <$> alter_first P (fun _ => y) rows = g <$> rows.
Proof.
  intros Hfind Hg. induction rows as [|z rows IH]; cbn [find alter_first] in *;
    [discriminate|].
  destruct (P z).
  - injection Hfind as ->. cbn. now rewrite Hg.
  - cbn. now rewrite IH.
Qed.


End Idempotence.

(** ** Schedule optimisation *)

Section ScheduleFacts.
Import Schedule.

Lemma min_key_from_in best best_slot (d : dict datetime) :
  let k := min_key_from best best_slot d in k = best \/ k ∈ dict_keys d.
Proof.
  cbv zeta. revert best best_slot. unfold dict_keys.
  induction d as [|[k v] d IH]; intros best best_slot; cbn; [now left|].
  destruct (v <? best_slot).
  - destruct (IH k v) as [->|Hin]; right; apply elem_of_cons; [now left|now right].
  - destruct (IH best best_slot) as [->|Hin]; [now left|].
    right. apply elem_of_cons. now right.
Qed.

Lemma min_key_in (d : dict datetime) k : min_key d = Some k -> k ∈ dict_keys d.
Proof.
  destruct d as [|[k0 v0] d]; cbn; [discriminate|]. intros [= <-].
  unfold dict_keys. cbn. apply elem_of_cons.
  destruct (min_key_from_in k0 v0 d) as [->|Hin]; [now left|now right].
Qed.

Lemma dict_get_is_Some {V} k (d : dict V) : k ∈ dict_keys d -> is_Some (dict_get k d).
Proof.
  intros Hin. destruct (dict_get k d) eqn:Hget; [eauto|].
  now apply dict_get_None in Hget.
Qed.

(** What one turn of the loop does: it picks an engineer who has a slot,
    books the appointment at the later of its start and that slot, and
    moves the slot past the visit and the buffer. Slots of other
    engineers stay, and a slot is never lost. *)
Lemma step_spec db day_start day_end travel_buffer st a :
  exists eng slots slot,
    let s := suggest db day_end travel_buffer a eng slot in
    step db day_start day_end travel_buffer st a =
      Return {| engineer_slots :=
                  dict_set eng (optimized_end s + timedelta_minutes travel_buffer) slots;
                reassigned :=
                  match or_None (Appointment.assigned_to a) with
                  | Some _ => reassigned st
                  | None => reassigned st + 1
                  end;
                suggested := suggested st ++ [s] |} /\
    (forall e v, dict_get e (engineer_slots st) = Some v -> dict_get e slots = Some v) /\
    dict_get eng slots = Some slot /\
    (forall e, or_None (Appointment.assigned_to a) = Some e -> eng = e).
Proof.
  unfold step.
  destruct (or_None (Appointment.assigned_to a)) as [e|] eqn:Hor.
  - destruct (dict_get e (engineer_slots st)) as [slot|] eqn:Hget.
    + rewrite Hget. exists e, (engineer_slots st), slot. cbv zeta.
      split; [reflexivity|]. split; [done|]. split; [done|]. now intros e' [= ->].
    + rewrite dict_get_set_eq.
      exists e, (dict_set e day_start (engineer_slots st)), day_start. cbv zeta.
      split; [reflexivity|]. split; [|split; [apply dict_get_set_eq|now intros e' [= ->]]].
      intros e' v Hv. rewrite dict_get_set_ne; [exact Hv|]. intros ->. congruence.
  - destruct (min_key (engineer_slots st)) as [e|] eqn:Hmin.
    + destruct (dict_get_is_Some e (engineer_slots st) (min_key_in _ _ Hmin)) as [slot Hget].
      rewrite Hget. exists e, (engineer_slots st), slot. cbv zeta.
      split; [reflexivity|]. split; [done|]. split; [done|]. discriminate.
    + destruct (engineer_slots st) as [|[k v] d] eqn:Hslots; [|discriminate].
      cbn [dict_set dict_get]. rewrite String.eqb_refl.
      exists "Unassigned", [("Unassigned", day_start)], day_start. cbv zeta.
      split; [reflexivity|]. split; [discriminate|]. split; [reflexivity|discriminate].
Qed.

Lemma step_returns db day_start day_end travel_buffer st a :
  exists st', step db day_start day_end travel_buffer st a = Return st'.
Proof.
  destruct (step_spec db day_start day_end travel_buffer st a)
    as (eng & slots & slot & Hstep & _).
  eauto.
Qed.

(** The loop runs to its end: no appointment makes it fail. *)
Lemma loop_returns db day_start day_end travel_buffer todo : forall st,
  exists st', loop db day_start day_end travel_buffer st todo = Return st'.
Proof.
  induction todo as [|a todo IH]; intros st; cbn [loop]; [eauto|].
  destruct (step_returns db day_start day_end travel_buffer st a) as [st' ->]. cbn.
  apply IH.
Qed.

Lemma chain_snoc {A} (R : A -> A -> Prop) (l : list A) x :
  chain R (l ++ [x]) <-> chain R l /\ (forall y, last l = Some y -> R y x).
Proof.
  induction l as [|a [|b l] IH].
  - cbn. split; [intros _; split; [exact I|discriminate]|done].
  - cbn. split.
    + intros [HR _]. split; [exact I|]. now intros y [= <-].
    + intros [_ HR]. split; [|exact I]. now apply HR.
  - change (chain R ((a :: b :: l) ++ [x])) with (R a b /\ chain R ((b :: l) ++ [x])).
    change (chain R (a :: b :: l)) with (R a b /\ chain R (b :: l)).
    change (last (a :: b :: l)) with (last (b :: l)).
    rewrite IH. tauto.
Qed.

Lemma suggestions_for_snoc e l s :
  suggestions_for e (l ++ [s]) =
  if decide (recommended_engineer s = e)
  then (suggestions_for e l ++ [s])%list else suggestions_for e l.
Proof.
  unfold suggestions_for. rewrite filter_app, filter_cons, filter_nil.
  destruct (decide (recommended_engineer s = e)); [reflexivity|apply app_nil_r].
Qed.

Lemma step_invariant db day_start day_end travel_buffer st a st' :
  loop_invariant travel_buffer st ->
  step db day_start day_end travel_buffer st a = Return st' ->
  loop_invariant travel_buffer st'.
Proof.
  intros [Hbuf Hinv] Hstep.
  destruct (step_spec db day_start day_end travel_buffer st a)
    as (eng & slots & slot & Hstep' & Hext & Hslot & _).
  cbv zeta in Hstep'. rewrite Hstep' in Hstep. injection Hstep as <-.
  set (s := suggest db day_end travel_buffer a eng slot).
  split; cbn [suggested engineer_slots].
  - intros s' [Hs'| ->%list_elem_of_singleton]%elem_of_app; [now apply Hbuf|reflexivity].
  - intros e. rewrite suggestions_for_snoc. destruct (Hinv e) as [Hchain Hlast].
    change (recommended_engineer s) with eng.
    destruct (decide (eng = e)) as [<-|He].
    + split.
      * apply chain_snoc. split; [exact Hchain|]. intros y Hy.
        destruct (Hlast y Hy) as (slot0 & Hget0 & Hle).
        assert (Hy_in : y ∈ suggested st).
        { apply last_Some_elem_of in Hy. unfold suggestions_for in Hy.
          now apply list_elem_of_filter in Hy as [_ ?]. }
        unfold respects_buffer. rewrite (Hbuf y Hy_in).
        apply Hext in Hget0. rewrite Hslot in Hget0. injection Hget0 as ->.
        cbn [s suggest optimized_start]. lia.
      * intros s'. rewrite last_snoc. intros [= <-].
        exists (optimized_end s + timedelta_minutes travel_buffer).
        rewrite dict_get_set_eq. split; [reflexivity|lia].
    + split; [exact Hchain|]. intros s' Hs'.
      destruct (Hlast s' Hs') as (slot0 & Hget0 & Hle).
      exists slot0. split; [|exact Hle].
      rewrite dict_get_set_ne by congruence. now apply Hext.
Qed.

Lemma loop_invariant_holds db day_start day_end travel_buffer todo : forall st st',
  loop_invariant travel_buffer st ->
  loop db day_start day_end travel_buffer st todo = Return st' ->
  loop_invariant travel_buffer st'.
Proof.
  induction todo as [|a todo IH]; intros st st' Hinv; cbn [loop].
  - now intros [= <-].
  - destruct (step db day_start day_end travel_buffer st a) as [st1| |] eqn:Hstep;
      cbn; try discriminate.
    intros Hloop. eapply IH; [|exact Hloop]. eapply step_invariant; eassumption.
Qed.

(** Every suggestion of the loop is for one of the appointments it was
    given, and ends one duration after it starts. *)
Lemma loop_suggestions_from db day_start day_end travel_buffer todo : forall st st',
  loop db day_start day_end travel_buffer st todo = Return st' ->
  forall s, s ∈ suggested st' ->
    s ∈ suggested st \/
    exists a, a ∈ todo /\ appointment_id s = Appointment.id a /\
              optimized_end s =
                optimized_start s + timedelta_minutes (Appointment.duration_minutes a).
Proof.
  induction todo as [|a todo IH]; intros st st'; cbn [loop].
  - intros [= <-] s Hs. now left.
  - destruct (step_spec db day_start day_end travel_buffer st a)
      as (eng & slots & slot & Hstep & _).
    cbv zeta in Hstep. rewrite Hstep. cbn [mbind outcome_bind].
    intros Hloop s Hs. destruct (IH _ _ Hloop s Hs) as [Hold|(a' & Ha' & Hid & Hend)].
    + cbn [suggested] in Hold. apply elem_of_app in Hold as [Hold|Hnew]; [now left|].
      apply list_elem_of_singleton in Hnew as ->. right. exists a.
      split; [apply elem_of_cons; now left|]. split; reflexivity.
    + right. exists a'. split; [apply elem_of_cons; now right|]. now split.
Qed.

Lemma elem_of_insert_by_start a x sorted :
  x ∈ insert_by_start a sorted -> x = a \/ x ∈ sorted.
Proof.
  induction sorted as [|b sorted IH]; cbn [insert_by_start].
  - intros ->%list_elem_of_singleton. now left.
  - destruct (Appointment.start_time b <? Appointment.start_time a).
    + intros [->|Hin]%elem_of_cons.
      * right. apply elem_of_cons. now left.
      * destruct (IH Hin) as [->|?]; [now left|]. right. apply elem_of_cons. now right.
    + intros [->|Hin]%elem_of_cons; [now left|now right].
Qed.

Lemma elem_of_order_by_start_time x rows :
  x ∈ order_by_start_time rows -> x ∈ rows.
Proof.
  unfold order_by_start_time. induction rows as [|a rows IH]; cbn [foldr]; [done|].
  intros [->|Hx]%elem_of_insert_by_start; apply elem_of_cons; [now left|right; now apply IH].
Qed.

(** The appointments the route considers are scheduled rows of the table. *)
Lemma elem_of_scheduled_on target_date rows x :
  x ∈ scheduled_on target_date rows -> x ∈ rows /\ Appointment.status x = "scheduled".
Proof.
  unfold scheduled_on. intros Hx%elem_of_order_by_start_time.
  apply list_elem_of_filter in Hx as [[Hstatus _] Hrows]. now split.
Qed.

End ScheduleFacts.

Section ScheduleClaims.
Import Schedule.
Context `{Builtins}.

(** The route, once its three conversions have succeeded. *)
Lemma optimise_schedule_run utcnow db request raw_date parsed travel_buffer workday :
  body request !! "date" = Some raw_date ->
  except_ValueError_400 (datetime_fromisoformat raw_date) = Return parsed ->
  py_int (default (JInt 30) (body request !! "travel_buffer_minutes")) = Return travel_buffer ->
  py_int (default (JInt (8 * 60)) (body request !! "workday_minutes")) = Return workday ->
  let target_date := date_of parsed in
  let day_start := combine target_date (time_of_day 9 0) in
  let todo := scheduled_on target_date (appointments db) in
  exists final,
    loop db day_start (day_start + timedelta_minutes workday) travel_buffer
         {| engineer_slots :=
              foldl (fun slots engineer => dict_set (py_str engineer) day_start slots)
                    [] (engineers request);
            reassigned := 0; suggested := [] |} todo = Return final /\
    optimise_schedule utcnow db request =
      Return {| date := target_date;
                appointments_considered := Z.of_nat (length todo);
                reassignments := reassigned final;
                suggestions := suggested final;
                generated_at := utcnow |}.
Proof.
  intros Hdate Hparsed Hbuf Hwork. cbv zeta.
  unfold optimise_schedule. rewrite Hdate, Hparsed. cbn. rewrite Hbuf. cbn.
  rewrite Hwork. cbn.
  match goal with
  | |- exists final, ?l = _ /\ _ =>
      destruct (loop_returns db (combine (date_of parsed) (time_of_day 9 0))
                  (combine (date_of parsed) (time_of_day 9 0) + timedelta_minutes workday)
                  travel_buffer (scheduled_on (date_of parsed) (appointments db))
                  {| engineer_slots :=
                       foldl (fun slots engineer =>
                                dict_set (py_str engineer)
                                         (combine (date_of parsed) (time_of_day 9 0)) slots)
                             [] (engineers request);
                     reassigned := 0; suggested := [] |}) as [final Hloop]
  end.
  exists final. split; [exact Hloop|]. rewrite Hloop. reflexivity.
Qed.

Lemma optimise_schedule_Return utcnow db request plan :
  optimise_schedule utcnow db request = Return plan ->
  exists target_date day_start day_end travel_buffer init final,
    py_int (default (JInt 30) (body request !! "travel_buffer_minutes")) = Return travel_buffer /\
    loop db day_start day_end travel_buffer init
         (scheduled_on target_date (appointments db)) = Return final /\
    suggested init = [] /\
    suggestions plan = suggested final.
Proof.
  unfold optimise_schedule.
  destruct (body request !! "date") as [raw_date|]; [|discriminate].
  destruct (except_ValueError_400 (datetime_fromisoformat raw_date)) as [parsed| |];
    cbn; try discriminate.
  destruct (py_int (default (JInt 30) (body request !! "travel_buffer_minutes")))
    as [travel_buffer| |]; cbn; try discriminate.
  destruct (py_int (default (JInt (8 * 60)) (body request !! "workday_minutes")))
    as [workday| |]; cbn; try discriminate.
  match goal with
  | |- mbind _ ?l = _ -> _ => destruct l as [final| |] eqn:Hloop; cbn; try discriminate
  end.
  intros [= <-]. do 6 eexists. split; [reflexivity|]. split; [exact Hloop|].
  split; reflexivity.
Qed.

Lemma chain_ends_nondecreasing (l : list Suggestion) :
  chain respects_buffer l ->
  (forall s, s ∈ l ->
     optimized_start s <= optimized_end s + timedelta_minutes (travel_buffer_minutes s)) ->
  chain ends_nondecreasing l.
Proof.
  induction l as [|x [|y l] IH]; intros Hchain Hlen; try exact I.
  destruct Hchain as [Hxy Hchain]. split.
  - unfold respects_buffer, ends_nondecreasing in *.
    assert (Hy : y ∈ x :: y :: l) by (apply elem_of_cons; right; apply elem_of_cons; now left).
    specialize (Hlen y Hy). lia.
  - apply IH; [exact Hchain|]. intros s Hs. apply Hlen. apply elem_of_cons. now right.
Qed.

(** C5, as the code has it. In every plan and for every engineer, each
    suggested start is at least the end of the engineer's previous
    suggestion plus the travel buffer; and the suggested end times, the
    buffer added, do not decrease provided that the duration of every
    scheduled appointment plus the travel buffer of the request is not
    negative. *)
Theorem optimiser_respects_buffer utcnow db request plan :
  optimise_schedule utcnow db request = Return plan ->
  forall engineer,
    chain respects_buffer (suggestions_for engineer (suggestions plan)) /\
    forall travel_buffer,
      py_int (default (JInt 30) (body request !! "travel_buffer_minutes"))
        = Return travel_buffer ->
      (forall a, a ∈ appointments db -> Appointment.status a = "scheduled" ->
                 0 <= Appointment.duration_minutes a + travel_buffer) ->
      chain ends_nondecreasing (suggestions_for engineer (suggestions plan)).
Proof.
  intros Hrun engineer.
  destruct (optimise_schedule_Return _ _ _ _ Hrun)
    as (target_date & day_start & day_end & travel_buffer & init & final
        & Hbuf & Hloop & Hinit & ->).
  assert (Hinv : loop_invariant travel_buffer final).
  { eapply loop_invariant_holds; [|exact Hloop]. unfold loop_invariant. rewrite Hinit.
    split; [intros s Hs; now apply elem_of_nil in Hs|].
    intros e. split; [exact I|discriminate]. }
  destruct Hinv as [Htb Hinv]. destruct (Hinv engineer) as [Hchain _].
  split; [exact Hchain|]. intros travel_buffer' Hbuf' Hlen.
  assert (travel_buffer' = travel_buffer) as -> by congruence.
  apply chain_ends_nondecreasing; [exact Hchain|].
  intros s Hs. unfold suggestions_for in Hs. apply list_elem_of_filter in Hs as [_ Hs].
  rewrite (Htb s Hs).
  destruct (loop_suggestions_from _ _ _ _ _ _ _ Hloop s Hs) as [Hold|(a & Ha & _ & Hend)].
  { rewrite Hinit in Hold. now apply elem_of_nil in Hold. }
  apply elem_of_scheduled_on in Ha as [Ha Hstatus]. specialize (Hlen a Ha Hstatus).
  rewrite Hend. unfold timedelta_minutes, us_per_minute. lia.
Qed.

(** The aborts of the route: it aborts exactly on a missing date and on a
    date string that does not parse, with status 400; and on the integers,
    where no date operation overflows, it returns a plan whenever the date
    parses and the two integer members convert. *)
Lemma optimise_schedule_outcomes utcnow db request :
  let data := body request in
  ((exists code, optimise_schedule utcnow db request = Abort code) <->
   (data !! "date" = None \/
    exists s, data !! "date" = Some (JStr s) /\ fromisoformat s = None)) /\
  (forall code, optimise_schedule utcnow db request = Abort code -> code = 400) /\
  (forall s parsed,
     data !! "date" = Some (JStr s) -> fromisoformat s = Some parsed ->
     (data !! "travel_buffer_minutes" = None \/
      exists n, data !! "travel_buffer_minutes" = Some (JInt n)) ->
     (data !! "workday_minutes" = None \/
      exists n, data !! "workday_minutes" = Some (JInt n)) ->
     exists plan, optimise_schedule utcnow db request = Return plan /\
                  date plan = date_of parsed).
Proof.
  cbv zeta.
  assert (Hshape :
    match optimise_schedule utcnow db request with
    | Abort code =>
        code = 400 /\
        (body request !! "date" = None \/
         exists s, body request !! "date" = Some (JStr s) /\ fromisoformat s = None)
    | _ => ~ (body request !! "date" = None \/
              exists s, body request !! "date" = Some (JStr s) /\ fromisoformat s = None)
    end).
  { unfold optimise_schedule.
    destruct (body request !! "date") as [raw_date|] eqn:Hdate; [|split; [reflexivity|now left]].
    assert (Hno : forall parsed o,
               except_ValueError_400 (datetime_fromisoformat raw_date) = o ->
               o = Return parsed \/ (exists e, o = Uncaught e) ->
               ~ (Some raw_date = None \/
                  exists s, Some raw_date = Some (JStr s) /\ fromisoformat s = None)).
    { intros parsed o Ho Hcase [Hnone|(s & [= ->] & Hs)]; [discriminate|].
      cbn in Ho. rewrite Hs in Ho. cbn in Ho. subst o.
      destruct Hcase as [?|[e ?]]; discriminate. }
    destruct (except_ValueError_400 (datetime_fromisoformat raw_date))
      as [parsed|code|e] eqn:Hparse; cbn.
    - assert (Hok := Hno parsed _ eq_refl (or_introl eq_refl)).
      destruct (py_int (default (JInt 30) (body request !! "travel_buffer_minutes")))
        as [travel_buffer|code|e] eqn:Hbuf; cbn.
      + destruct (py_int (default (JInt (8 * 60)) (body request !! "workday_minutes")))
          as [workday|code|e] eqn:Hwork; cbn.
        * match goal with
          | |- match mbind _ ?l with _ => _ end =>
              destruct (loop_returns db (combine (date_of parsed) (time_of_day 9 0))
                (combine (date_of parsed) (time_of_day 9 0) + timedelta_minutes workday)
                travel_buffer (scheduled_on (date_of parsed) (appointments db))
                {| engineer_slots :=
                     foldl (fun slots engineer =>
                              dict_set (py_str engineer)
                                       (combine (date_of parsed) (time_of_day 9 0)) slots)
                           [] (engineers request);
                   reassigned := 0; suggested := [] |}) as [final ->]
          end.
          exact Hok.
        * exfalso. destruct (default (JInt (8 * 60)) (body request !! "workday_minutes"));
            cbn in Hwork; try discriminate. destruct (int_of_str s); discriminate.
        * exact Hok.
      + exfalso. destruct (default (JInt 30) (body request !! "travel_buffer_minutes"));
          cbn in Hbuf; try discriminate. destruct (int_of_str s); discriminate.
      + exact Hok.
    - destruct raw_date as [| | |s]; cbn in Hparse; try discriminate.
      destruct (fromisoformat s) eqn:Hs; cbn in Hparse; [discriminate|].
      injection Hparse as <-. split; [reflexivity|]. right. eauto.
    - exact (Hno 0 _ eq_refl (or_intror (ex_intro _ e eq_refl))). }
  split; [|split].
  - split.
    + intros [code Hcode]. rewrite Hcode in Hshape. tauto.
    + intros Hbad. destruct (optimise_schedule utcnow db request) as [plan|code|e];
        [contradiction|eauto|contradiction].
  - intros code Hcode. rewrite Hcode in Hshape. tauto.
  - intros s parsed Hdate Hs Hbuf Hwork.
    assert (Hb : exists n, py_int (default (JInt 30) (body request !! "travel_buffer_minutes"))
                           = Return n).
    { destruct Hbuf as [->|[n ->]]; cbn; eauto. }
    assert (Hw : exists n, py_int (default (JInt (8 * 60)) (body request !! "workday_minutes"))
                           = Return n).
    { destruct Hwork as [->|[n ->]]; cbn; eauto. }
    destruct Hb as [travel_buffer Hb]. destruct Hw as [workday Hw].
    destruct (optimise_schedule_run utcnow db request (JStr s) parsed travel_buffer workday)
      as (final & _ & Hrun); try assumption.
    { cbn. now rewrite Hs. }
    eexists. split; [exact Hrun|reflexivity].
Qed.

End ScheduleClaims.

Section Scenario.
Import Schedule.
Context `{Builtins}.

(** A turn of the loop for an appointment whose engineer has a slot. *)
Lemma step_assigned db day_start day_end travel_buffer st a e slot :
  or_None (Appointment.assigned_to a) = Some e ->
  dict_get e (engineer_slots st) = Some slot ->
  step db day_start day_end travel_buffer st a =
  let s := suggest db day_end travel_buffer a e slot in
  Return {| engineer_slots :=
              dict_set e (optimized_end s + timedelta_minutes travel_buffer)
                       (engineer_slots st);
            reassigned := reassigned st;
            suggested := suggested st ++ [s] |}.
Proof. intros Hor Hget. unfold step. rewrite Hor, Hget, Hget. reflexivity. Qed.

(** C4. On a day [D] with exactly two scheduled appointments, both of
    Alice and of 60 minutes, one at 09:00 and one at 09:15, the plan for
    [D] with engineers ["Alice"] and a travel buffer of 30 minutes has two
    suggestions, and the second, for the 09:15 appointment, starts at
    10:30 on [D]. *)
Theorem overlap_scenario utcnow db request s parsed workday a1 a2 :
  body request !! "date" = Some (JStr s) ->
  fromisoformat s = Some parsed ->
  body request !! "travel_buffer_minutes" = Some (JInt 30) ->
  py_int (default (JInt (8 * 60)) (body request !! "workday_minutes")) = Return workday ->
  engineers request = [JStr "Alice"] ->
  let D := date_of parsed in
  filter (in_window (combine D time_min) (combine D time_max)) (appointments db)
    ≡ₚ [a1; a2] ->
  Appointment.start_time a1 = combine D (time_of_day 9 0) ->
  Appointment.start_time a2 = combine D (time_of_day 9 15) ->
  Appointment.duration_minutes a1 = 60 ->
  Appointment.duration_minutes a2 = 60 ->
  Appointment.assigned_to a1 = Some "Alice" ->
  Appointment.assigned_to a2 = Some "Alice" ->
  exists plan s1 s2,
    optimise_schedule utcnow db request = Return plan /\
    suggestions plan = [s1; s2] /\
    appointment_id s2 = Appointment.id a2 /\
    recommended_engineer s2 = "Alice" /\
    optimized_start s2 = combine D (time_of_day 10 30).
Proof.
  intros Hdate Hs Hbuf Hwork Heng D Hrows Hst1 Hst2 Hd1 Hd2 Has1 Has2.
  destruct (optimise_schedule_run utcnow db request (JStr s) parsed 30 workday)
    as (final & Hloop & Hrun); try assumption.
  { cbn. now rewrite Hs. }
  { now rewrite Hbuf. }
  fold D in Hloop, Hrun.
  assert (Hlt : Appointment.start_time a1 < Appointment.start_time a2).
  { rewrite Hst1, Hst2. unfold combine, time_of_day, us_per_minute. lia. }
  assert (Htodo : scheduled_on D (appointments db) = [a1; a2]).
  { unfold scheduled_on. apply Permutation_sym, Permutation_length_2_inv in Hrows.
    destruct Hrows as [-> | ->]; cbn [order_by_start_time foldr insert_by_start].
    - destruct (Z.ltb_spec (Appointment.start_time a2) (Appointment.start_time a1));
        [lia|reflexivity].
    - destruct (Z.ltb_spec (Appointment.start_time a1) (Appointment.start_time a2));
        [reflexivity|lia]. }
  rewrite Htodo, Heng in Hloop. cbn [foldl py_str dict_set loop] in Hloop.
  rewrite (step_assigned _ _ _ _ _ a1 "Alice" (combine D (time_of_day 9 0))) in Hloop
    by (rewrite ?Has1; reflexivity).
  cbv zeta in Hloop. cbn [mbind outcome_bind engineer_slots suggested reassigned dict_set]
    in Hloop.
  change (String.eqb "Alice" "Alice") with true in Hloop. cbv iota in Hloop.
  match type of Hloop with
  | context [step _ _ _ _ {| engineer_slots := [("Alice", ?v)]; reassigned := _;
                             suggested := _ |} a2] =>
      rewrite (step_assigned _ _ _ _ _ a2 "Alice" v) in Hloop
        by (rewrite ?Has2; reflexivity)
  end.
  cbv zeta in Hloop. cbn [mbind outcome_bind engineer_slots suggested reassigned app]
    in Hloop.
  injection Hloop as <-.
  eexists _, _, _. split; [exact Hrun|]. cbn [suggestions suggested].
  split; [reflexivity|]. split; [reflexivity|]. split; [reflexivity|].
  cbn [suggest optimized_start optimized_end]. rewrite Hst1, Hst2, Hd1.
  unfold combine, time_of_day, timedelta_minutes, us_per_minute. lia.
Qed.

End Scenario.

(** ** Concrete runs *)

Section Runs.
Import Ingest Schedule.

(** C5 does not hold as stated: with a travel buffer of -120 minutes,
    which the route accepts, a two-hour visit at 09:00 ends at 11:00 and
    Alice's next visit, of ten minutes at 09:10, ends at 09:20. *)
Lemma optimiser_ends_can_decrease :
  ~ (forall (B : Builtins) utcnow db request plan,
       optimise_schedule utcnow db request = Return plan ->
       forall engineer,
         chain ends_nondecreasing (suggestions_for engineer (suggestions plan))).
Proof.
  intros Hclaim.
  destruct (@optimise_schedule Plain.builtins 0 SampleDay.long_then_short
              (SampleDay.request (-120))) as [plan| |] eqn:Hrun;
    [|vm_compute in Hrun; discriminate..].
  specialize (Hclaim _ _ _ _ _ Hrun "Alice").
  vm_compute in Hrun. injection Hrun as <-.
  vm_compute in Hclaim. destruct Hclaim as [Hle _]. apply Hle. reflexivity.
Qed.


Lemma optimiser_respects_buffer_witness :
  exists plan,
    @optimise_schedule Plain.builtins 0 SampleDay.overlapping (SampleDay.request 30)
    = Return plan /\
    chain respects_buffer (suggestions_for "Alice" (suggestions plan)) /\
    chain ends_nondecreasing (suggestions_for "Alice" (suggestions plan)).
Proof.
  eexists. split; [vm_compute; reflexivity|].
  destruct (@optimiser_respects_buffer Plain.builtins 0 SampleDay.overlapping
              (SampleDay.request 30) _ ltac:(vm_compute; reflexivity) "Alice")
    as [Hstarts Hends].
  split; [exact Hstarts|]. apply (Hends 30); [reflexivity|].
  intros a Ha _. vm_compute in Ha.
  apply elem_of_cons in Ha as [->|Ha]; [vm_compute; discriminate|].
  apply list_elem_of_singleton in Ha as ->. vm_compute. discriminate.
Defined.

Lemma overlap_scenario_witness :
  exists plan s1 s2,
    @optimise_schedule Plain.builtins 0 SampleDay.overlapping (SampleDay.request 30)
    = Return plan /\
    suggestions plan = [s1; s2] /\
    optimized_start s2 = SampleDay.at_ 10 30.
Proof.
  destruct (@overlap_scenario Plain.builtins 0 SampleDay.overlapping (SampleDay.request 30)
              "2024-05-01" (combine SampleDay.day time_min) 480
              (visit 1 (SampleDay.at_ 9 0) 60 (Some "Alice"))
              (visit 2 (SampleDay.at_ 9 15) 60 (Some "Alice")))
    as (plan & s1 & s2 & Hrun & Hsugg & _ & _ & Hstart);
    try (vm_compute; reflexivity).
  exists plan, s1, s2. split; [exact Hrun|]. split; [exact Hsugg|]. exact Hstart.
Defined.

Lemma sample_accepted raw_severity :
  Sample.event_resolved !! "severity" = Some raw_severity ->
  @accepted Plain.builtins Sample.db_after_first Sample.event_resolved
            (JStr "EVT-1") raw_severity (JStr "down").
Proof.
  intros Hsev. split; [reflexivity|]. split; [exact Hsev|]. split; [reflexivity|].
  exists (JInt 5), 5. split; [reflexivity|]. split; [reflexivity|].
  exists Sample.acme. reflexivity.
Qed.


Lemma ingest_update_keeps_client_and_time_witness :
  exists db' r,
    @ingest_zabbix_event Plain.builtins 2000 Sample.db_after_first Sample.event_moved
    = Return (db', r) /\
    MonitoringIncident.client_id (incident r) = 5 /\
    MonitoringIncident.occurred_at (incident r) = 1000.
Proof.
  destruct (@ingest_update_keeps_client_and_time Plain.builtins 2000 Sample.db_after_first
              Sample.event_moved (JStr "EVT-1") (JStr "disaster") (JStr "down")
              Sample.first_incident)
    as (db' & r & Hrun & _ & Hclient & Htime & _).
  - split; [reflexivity|]. split; [reflexivity|]. split; [reflexivity|].
    exists (JInt 6), 6. split; [reflexivity|]. split; [reflexivity|].
    exists Sample.globex. reflexivity.
  - reflexivity.
  - exists db', r. split; [exact Hrun|]. split; [exact Hclient|exact Htime].
Defined.

Lemma ingest_update_keeps_ticket_priority_witness :
  exists db' r,
    @ingest_zabbix_event Plain.builtins 2000 Sample.db_after_first Sample.event_resolved
    = Return (db', r) /\
    Ticket.priority <$> tickets db' = ["high"] /\
    Ticket.due_date <$> tickets db' = [Some 1].
Proof.
  destruct (@ingest_update_keeps_ticket_priority Plain.builtins 2000 Sample.db_after_first
              Sample.event_resolved (JStr "EVT-1") (JStr "Warning") (JStr "down")
              Sample.first_incident)
    as (db' & r & Hrun & _ & Hpriority & Hdue & _).
  - apply sample_accepted. reflexivity.
  - reflexivity.
  - exists db', r. split; [exact Hrun|]. split; [exact Hpriority|exact Hdue].
Defined.


End Runs.
(** ** Incident ingestion: the create path, rejections and the schema *)

Section IngestMore.
Import Ingest.
Context `{Builtins}.

(** The route on an accepted request whose event is new. *)
Lemma ingest_new_event_unfold utcnow db data event_id raw_severity message :
  accepted db data event_id raw_severity message ->
  find (same_event (py_str event_id)) (incidents db) = None ->
  exists client,
    client ∈ clients db /\
    ingest_zabbix_event utcnow db data =
    create_incident utcnow db data client event_id (lower (py_str raw_severity))
      (priority_of_severity (lower (py_str raw_severity))) message.
Proof.
  intros (He & Hs & Hm & raw & cid & Hc & Hint & [client Hclient]) Hfind.
  exists client. split; [apply (find_Some_holds _ _ _ Hclient)|].
  unfold ingest_zabbix_event. rewrite He, Hc, Hs, Hm, Hint. cbn.
  unfold get_or_404. rewrite Hclient. cbn. now rewrite Hfind.
Qed.

Lemma next_id_not_in (ids : list Z) : next_id ids ∉ ids.
Proof. intros Hin. apply next_id_fresh in Hin. lia. Qed.

(** What [create_incident] stores and answers once the time of the
    incident is known. *)
Lemma create_incident_spec utcnow db data client event_id severity priority message when :
  reported_time utcnow data = Return when ->
  exists t i,
    create_incident utcnow db data client event_id severity priority message =
    Return ({| clients := clients db; tickets := tickets db ++ [t];
               tasks := tasks db; appointments := appointments db;
               incidents := incidents db ++ [i] |},
            {| incident := i; ticket := Some t; status_code := 201 |}) /\
    Ticket.id t = next_id (Ticket.id <$> tickets db) /\
    Ticket.client_id t = Client.id client /\
    Ticket.subject t =
      "[Zabbix] " +:+
      py_str (or_else (data !! "problem") (JStr ("Zabbix incident " +:+ py_str event_id))) /\
    Ticket.description t = message /\
    Ticket.priority t = priority /\
    Ticket.status t = "open" /\
    Ticket.assigned_to t = or_else (data !! "assigned_to") (JStr "Monitoring") /\
    Ticket.due_date t =
      (if decide (priority = "high") then Some (date_of utcnow + 1) else None) /\
    i = {| MonitoringIncident.id := next_id (MonitoringIncident.id <$> incidents db);
           MonitoringIncident.client_id := Client.id client;
           MonitoringIncident.source := "zabbix";
           MonitoringIncident.external_id := py_str event_id;
           MonitoringIncident.severity := severity;
           MonitoringIncident.message := message;
           MonitoringIncident.status :=
             lower (py_str (default (JStr "open") (data !! "status")));
           MonitoringIncident.occurred_at := when;
           MonitoringIncident.ticket_id := Some (next_id (Ticket.id <$> tickets db)) |}.
Proof.
  intros Hwhen. unfold create_incident. unfold reported_time in Hwhen. rewrite Hwhen.
  cbn [mbind outcome_bind].
  eexists _, _. split; [reflexivity|].
  destruct (decide (priority = "high")) as [->|Hp].
  - cbn. repeat (split; [reflexivity|]). reflexivity.
  - apply String.eqb_neq in Hp. rewrite Hp. cbn. repeat (split; [reflexivity|]). reflexivity.
Qed.

(** X1. A first delivery opens one ticket and records one incident: for an
    accepted request whose text members are text, whose event id is new
    and whose [occurred_at], if given, parses, the route answers 201; it
    appends one ticket and one incident under fresh keys; the ticket is
    open, of the client of the request, assigned to the engineer of the
    request (or to "Monitoring"), with the priority the escalation table
    gives the lowercased severity, due the day after today exactly when
    that priority is "high", described by the message and titled
    "[Zabbix] " followed by the problem (or "Zabbix incident <event id>");
    the incident is linked to that ticket and carries the key
    [("zabbix", str(event_id))], the message, the reported time and - for a
    severity of ASCII characters - the lowercased severity. *)
Theorem ingest_opens_ticket utcnow db data event_id raw_severity message engineer when :
  accepted db data event_id raw_severity (JStr message) ->
  or_else (data !! "assigned_to") (JStr "Monitoring") = JStr engineer ->
  find (same_event (py_str event_id)) (incidents db) = None ->
  reported_time utcnow data = Return when ->
  exists db' r t,
    ingest_zabbix_event utcnow db data = Return (db', r) /\
    status_code r = 201 /\
    ticket r = Some t /\
    tickets db' = (tickets db ++ [t])%list /\
    incidents db' = (incidents db ++ [incident r])%list /\
    (Ticket.id t ∉ Ticket.id <$> tickets db) /\
    (MonitoringIncident.id (incident r) ∉ MonitoringIncident.id <$> incidents db) /\
    Ticket.status t = "open" /\
    Ticket.priority t = priority_of_severity (lower (py_str raw_severity)) /\
    Ticket.due_date t =
      (if decide (Ticket.priority t = "high") then Some (date_of utcnow + 1) else None) /\
    Ticket.description t = JStr message /\
    Ticket.assigned_to t = JStr engineer /\
    Ticket.subject t =
      "[Zabbix] " +:+
      py_str (or_else (data !! "problem") (JStr ("Zabbix incident " +:+ py_str event_id))) /\
    Ticket.client_id t = MonitoringIncident.client_id (incident r) /\
    MonitoringIncident.client_id (incident r) ∈ Client.id <$> clients db /\
    incident_key (incident r) = ("zabbix", py_str event_id) /\
    (is_ascii (py_str raw_severity) ->
     MonitoringIncident.severity (incident r) = lower (py_str raw_severity)) /\
    MonitoringIncident.message (incident r) = JStr message /\
    MonitoringIncident.occurred_at (incident r) = when /\
    MonitoringIncident.ticket_id (incident r) = Some (Ticket.id t).
Proof.
  intros Hacc Hengineer Hnew Hwhen.
  destruct (ingest_new_event_unfold utcnow _ _ _ _ _ Hacc Hnew) as (client & Hclient & Hrun).
  destruct (create_incident_spec utcnow db data client event_id (lower (py_str raw_severity))
              (priority_of_severity (lower (py_str raw_severity))) (JStr message) when Hwhen)
    as (t & i & Hcreate & Hid & Hcid & Hsubj & Hdesc & Hprio & Hst & Hassign & Hdue & Hi).
  eexists _, _, t. split; [rewrite Hrun; exact Hcreate|].
  cbn [status_code ticket tickets incidents incident].
  split; [reflexivity|]. split; [reflexivity|]. split; [reflexivity|].
  split; [reflexivity|].
  split; [rewrite Hid; apply next_id_not_in|].
  split; [rewrite Hi; apply next_id_not_in|].
  split; [exact Hst|]. split; [exact Hprio|].
  split; [rewrite Hprio; exact Hdue|].
  split; [exact Hdesc|]. split; [now rewrite Hassign|]. split; [exact Hsubj|].
  rewrite Hi. cbn.
  split; [exact Hcid|].
  split; [apply list_elem_of_fmap; exists client; split; [reflexivity|exact Hclient]|].
  split; [reflexivity|]. split; [reflexivity|]. split; [reflexivity|].
  split; [reflexivity|]. now rewrite Hid.
Qed.


Lemma find_client_None n (rows : list Client.t) :
  find (fun c => bool_decide (Client.id c = n)) rows = None <-> n ∉ (Client.id <$> rows).
Proof.
  induction rows as [|c rows IH]; cbn [find fmap list_fmap].
  - split; [intros _ Hin; now apply elem_of_nil in Hin|reflexivity].
  - rewrite not_elem_of_cons. destruct (bool_decide (Client.id c = n)) eqn:Hc.
    + apply bool_decide_eq_true in Hc. split; [discriminate|]. intros [Hne _]. congruence.
    + apply bool_decide_eq_false in Hc. rewrite IH. split; [intros Hn; split; congruence|tauto].
Qed.

(** The case of a request that lacks a required member, once the
    conditions are unfolded. *)
Ltac incomplete_request :=
  split; [split; [auto|reflexivity]|];
  split; [split; [discriminate|intros [Hn _]; exfalso; apply Hn; auto]|];
  split; [intros code [= <-]; auto|];
  split; [split; [discriminate|intros [Hn _]; exfalso; apply Hn; auto]|];
  split; [split; [discriminate|intros [Hn _]; exfalso; apply Hn; auto]|];
  discriminate.

Lemma incomplete_iff (data : gmap string json) :
  Rejected.incomplete data <->
  data !! "event_id" = None \/ data !! "client_id" = None \/
  data !! "severity" = None \/ data !! "message" = None.
Proof.
  unfold Rejected.incomplete, Rejected.required. split.
  - intros (field & Hin & Hnone).
    repeat (apply elem_of_cons in Hin as [->|Hin]; [tauto|]).
    now apply elem_of_nil in Hin.
  - intros [Hn|[Hn|[Hn|Hn]]]; eexists; (split; [|exact Hn]);
      repeat (first [apply elem_of_cons; left; reflexivity | apply elem_of_cons; right]).
Qed.

Lemma py_int_cases (raw : json) :
  (exists n, py_int raw = Return n /\
             except_TypeError_ValueError_400 (py_int raw) = Return n) \/
  ((forall n, py_int raw <> Return n) /\
   except_TypeError_ValueError_400 (py_int raw) = Abort 400).
Proof.
  destruct raw as [|b|n|s]; cbn.
  - right. split; [discriminate|reflexivity].
  - left. eauto.
  - left. eauto.
  - destruct (int_of_str s) as [n|]; cbn.
    + left. eauto.
    + right. split; [discriminate|reflexivity].
Qed.

(** The three ways the reading of [occurred_at] ends. *)
Lemma reported_time_cases utcnow (data : gmap string json) :
  (exists when, reported_time utcnow data = Return when) \/
  (reported_time utcnow data = Abort 400 /\ Rejected.bad_time data) \/
  (reported_time utcnow data = Uncaught TypeError /\ Rejected.time_not_text data).
Proof.
  unfold reported_time, Rejected.bad_time, Rejected.time_not_text.
  destruct (data !! "occurred_at") as [raw|]; [|left; eauto].
  destruct (truthy raw) eqn:Htr; [|left; eauto].
  destruct raw as [|b|n|s]; cbn.
  - discriminate.
  - right. right. split; [reflexivity|]. eexists. split; [reflexivity|]. split; [exact Htr|discriminate].
  - right. right. split; [reflexivity|]. eexists. split; [reflexivity|]. split; [exact Htr|discriminate].
  - destruct (fromisoformat s) as [dt|] eqn:Hiso; cbn.
    + left. eauto.
    + right. left. split; [reflexivity|]. exists s. split; [reflexivity|].
      split; [|exact Hiso]. intros ->. discriminate.
Qed.

Lemma bad_time_not_text (data : gmap string json) :
  Rejected.bad_time data -> Rejected.time_not_text data -> False.
Proof.
  intros (s & Hs & _) (raw & Hraw & _ & Hno). rewrite Hs in Hraw. injection Hraw as <-.
  now apply (Hno s).
Qed.

Lemma reported_time_Return utcnow (data : gmap string json) when :
  reported_time utcnow data = Return when ->
  ~ Rejected.bad_time data /\ ~ Rejected.time_not_text data.
Proof.
  unfold reported_time, Rejected.bad_time, Rejected.time_not_text. intros Hret. split.
  - intros (s & Hs & Hne & Hiso). rewrite Hs in Hret. cbn in Hret.
    destruct (String.eqb s "") eqn:He; [apply String.eqb_eq in He; contradiction|].
    cbn in Hret. rewrite Hiso in Hret. discriminate.
  - intros (raw & Hraw & Htr & Hno). rewrite Hraw, Htr in Hret.
    destruct raw as [|b|n|s]; cbn in Hret; try discriminate. now apply (Hno s).
Qed.



(** The two ways the route answers with an incident. *)
Lemma ingest_Return_cases utcnow db data db' r :
  ingest_zabbix_event utcnow db data = Return (db', r) ->
  exists event_id raw_severity message,
    accepted db data event_id raw_severity message /\
    ((exists existing,
        find (same_event (py_str event_id)) (incidents db) = Some existing /\
        update_existing db data existing (lower (py_str raw_severity)) message = (db', r)) \/
     (find (same_event (py_str event_id)) (incidents db) = None /\
      exists client when,
        client ∈ clients db /\
        reported_time utcnow data = Return when /\
        create_incident utcnow db data client event_id (lower (py_str raw_severity))
          (priority_of_severity (lower (py_str raw_severity))) message = Return (db', r))).
Proof.
  intros Hret.
  destruct (ingest_Return_accepted _ _ _ _ _ Hret) as (event_id & raw_severity & message & Hacc).
  exists event_id, raw_severity, message. split; [exact Hacc|].
  destruct (find (same_event (py_str event_id)) (incidents db)) as [existing|] eqn:Hfind.
  - left. exists existing. split; [reflexivity|].
    rewrite (ingest_known_event _ _ _ _ _ _ _ Hacc Hfind) in Hret. now injection Hret.
  - right. split; [reflexivity|].
    destruct (ingest_new_event_unfold utcnow _ _ _ _ _ Hacc Hfind) as (client & Hclient & Hrun).
    rewrite Hrun in Hret. exists client.
    destruct (reported_time_cases utcnow data) as [[when Hwhen]|[[Hwhen _]|[Hwhen _]]].
    + exists when. split; [exact Hclient|]. split; [exact Hwhen|exact Hret].
    + unfold create_incident in Hret. fold (reported_time utcnow data) in Hret.
      rewrite Hwhen in Hret. discriminate.
    + unfold create_incident in Hret. fold (reported_time utcnow data) in Hret.
      rewrite Hwhen in Hret. discriminate.
Qed.

Lemma update_existing_frame db data existing severity message :
  tasks (update_existing db data existing severity message).1 = tasks db /\
  appointments (update_existing db data existing severity message).1 = appointments db.
Proof.
  unfold update_existing.
  destruct (data !! "status") as [raw_status|]; [destruct (truthy raw_status)|];
    split; reflexivity.
Qed.

Lemma elem_of_alter_first {A} (P : A -> bool) f (rows : list A) x :
  x ∈ alter_first P f rows -> x ∈ rows \/ exists y, y ∈ rows /\ P y = true /\ x = f y.
Proof.
  induction rows as [|y rows IH]; cbn [alter_first]; [now left|].
  destruct (P y) eqn:Hy.
  - intros [->|Hin]%elem_of_cons.
    + right. exists y. split; [apply elem_of_cons; now left|]. now split.
    + left. apply elem_of_cons. now right.
  - intros [->|Hin]%elem_of_cons; [left; apply elem_of_cons; now left|].
    destruct (IH Hin) as [?|(z & Hz & HP & ->)].
    + left. apply elem_of_cons. now right.
    + right. exists z. split; [apply elem_of_cons; now right|]. now split.
Qed.

Lemma alter_first_const_omap {A B} (g : A -> option B) (P : A -> bool) (rows : list A) x y :
  find P rows = Some x -> g y = g x ->
  omap g (alter_first P (fun _ => y) rows) = omap g rows.
Proof.
  intros Hfind Hg. induction rows as [|z rows IH]; cbn [find alter_first] in *;
    [discriminate|].
  destruct (P z).
  - injection Hfind as ->. cbn. now rewrite Hg.
  - cbn. now rewrite IH.
Qed.

Lemma alter_first_Forall2 {A} (R : A -> A -> Prop) (P : A -> bool) f (rows : list A) :
  (forall x, R x x) -> (forall x, R x (f x)) -> Forall2 R rows (alter_first P f rows).
Proof.
  intros Hrefl Hf. induction rows as [|x rows IH]; cbn [alter_first]; [constructor|].
  destruct (P x).
  - constructor; [apply Hf|]. clear IH. induction rows; constructor; auto.
  - constructor; [apply Hrefl|exact IH].
Qed.

(** X3. The webhook keeps the constraints of the schema: on a database
    whose primary keys are unique, whose incidents are unique on
    [(source, external_id)], whose foreign keys point to rows that exist
    and in which no ticket is linked from two incidents, every delivery
    that is answered leaves a database of which the same holds; so the
    commit of the route cannot fail on these constraints. *)
Theorem ingest_keeps_integrity utcnow db data db' r :
  integrity db ->
  ingest_zabbix_event utcnow db data = Return (db', r) ->
  integrity db'.
Proof.
  intros [Htpk Hipk Huq Hfk Hcfk Htfk Hone] Hret.
  destruct (ingest_Return_cases _ _ _ _ _ Hret)
    as (event_id & raw_severity & message & Hacc &
        [(existing & Hfind & Hupd)|(Hfind & client & when & Hclient & Hwhen & Hcreate)]).
  - pose proof (update_existing_spec db data existing (lower (py_str raw_severity)) message)
      as Hspec.
    rewrite Hupd in Hspec.
    destruct Hspec as (_ & Hcl & Hinc & _ & _ & _ & Hid & Hcid & Hsrc & Hext & _ & Htid &
                       Htickets & _).
    destruct (find_Some_holds _ _ _ Hfind) as [Hkey Hin].
    apply same_event_true in Hkey as [Hsrc' Hext'].
    assert (Hids : Ticket.id <$> tickets db' = Ticket.id <$> tickets db).
    { destruct Htickets as [->|(t & raw & _ & _ & _ & _ & ->)]; [reflexivity|].
      now apply alter_first_fmap. }
    assert (Hcids : forall t', t' ∈ tickets db' ->
                      exists t, t ∈ tickets db /\ Ticket.client_id t' = Ticket.client_id t).
    { destruct Htickets as [->|(t & raw & _ & _ & _ & _ & ->)]; [eauto|].
      intros t' [Hold|(y & Hy & _ & ->)]%elem_of_alter_first; eauto. }
    assert (Hrow : forall i, i ∈ incidents db' ->
                     exists i0, i0 ∈ incidents db /\
                       MonitoringIncident.ticket_id i = MonitoringIncident.ticket_id i0 /\
                       MonitoringIncident.client_id i = MonitoringIncident.client_id i0).
    { rewrite Hinc. intros i [Hold|(y & Hy & _ & ->)]%elem_of_alter_first; [eauto|].
      exists existing. now split. }
    rewrite Hext' in Hinc.
    split.
    + now rewrite Hids.
    + rewrite Hinc.
      rewrite (alter_first_const_fmap MonitoringIncident.id (same_event (py_str event_id))
                 (incidents db) existing (incident r) Hfind Hid).
      exact Hipk.
    + rewrite Hinc.
      rewrite (alter_first_const_fmap incident_key (same_event (py_str event_id))
                 (incidents db) existing (incident r) Hfind); [exact Huq|].
      unfold incident_key. now rewrite Hsrc, Hext.
    + intros i tid Hi Htid'. destruct (Hrow i Hi) as (i0 & Hi0 & Ht & _).
      rewrite Hids. apply (Hfk i0); [exact Hi0|congruence].
    + intros i Hi. destruct (Hrow i Hi) as (i0 & Hi0 & _ & Hc). rewrite Hcl, Hc.
      now apply Hcfk.
    + intros t' Ht'. destruct (Hcids t' Ht') as (t & Ht & Hc). rewrite Hcl, Hc.
      now apply Htfk.
    + rewrite Hinc.
      rewrite (alter_first_const_omap MonitoringIncident.ticket_id
                 (same_event (py_str event_id)) (incidents db) existing (incident r)
                 Hfind Htid).
      exact Hone.
  - destruct (create_incident_spec utcnow db data client event_id (lower (py_str raw_severity))
                (priority_of_severity (lower (py_str raw_severity))) message when Hwhen)
      as (t & i & Hcreate' & Hid & Hcid & _ & _ & _ & _ & _ & _ & Hi).
    rewrite Hcreate' in Hcreate. injection Hcreate as <- <-.
    assert (Hcin : Client.id client ∈ Client.id <$> clients db)
      by (apply list_elem_of_fmap; exists client; now split).
    split; cbn [tickets incidents clients].
    + rewrite fmap_app. apply NoDup_app. split; [exact Htpk|]. split.
      * intros x Hx [->|[]%elem_of_nil]%elem_of_cons. rewrite Hid in Hx.
        now apply next_id_not_in in Hx.
      * apply NoDup_singleton.
    + rewrite fmap_app. apply NoDup_app. split; [exact Hipk|]. split.
      * intros x Hx [->|[]%elem_of_nil]%elem_of_cons. rewrite Hi in Hx. cbn in Hx.
        now apply next_id_not_in in Hx.
      * apply NoDup_singleton.
    + rewrite fmap_app. apply NoDup_app. split; [exact Huq|]. split.
      * intros k Hk [->|[]%elem_of_nil]%elem_of_cons.
        apply list_elem_of_fmap in Hk as (i0 & Hk & Hi0).
        pose proof (find_None_not _ _ _ Hfind Hi0) as Hne.
        apply not_true_iff_false in Hne. apply Hne. apply same_event_true.
        rewrite Hi in Hk. unfold incident_key in Hk. cbn in Hk.
        injection Hk as Hs He. now split.
      * apply NoDup_singleton.
    + intros i0 tid [Hold|[->|[]%elem_of_nil]%elem_of_cons]%elem_of_app Htid;
        rewrite fmap_app; apply elem_of_app.
      * left. now apply (Hfk i0).
      * right. rewrite Hi in Htid. cbn in Htid. injection Htid as <-.
        cbn. rewrite Hid. apply elem_of_cons. now left.
    + intros i0 [Hold|[->|[]%elem_of_nil]%elem_of_cons]%elem_of_app.
      * now apply Hcfk.
      * rewrite Hi. exact Hcin.
    + intros t0 [Hold|[->|[]%elem_of_nil]%elem_of_cons]%elem_of_app.
      * now apply Htfk.
      * rewrite Hcid. exact Hcin.
    + rewrite omap_app. apply NoDup_app. split; [exact Hone|]. split.
      * intros tid Htid Hnew. rewrite Hi in Hnew. cbn in Hnew.
        apply elem_of_cons in Hnew as [->|[]%elem_of_nil].
        apply list_elem_of_omap in Htid as (i0 & Hi0 & Htid).
        apply (Hfk i0 _ Hi0) in Htid. now apply next_id_not_in in Htid.
      * rewrite Hi. cbn. apply NoDup_singleton.
Qed.

Lemma kept_or_resolved_refl t : kept_or_resolved t t.
Proof. now left. Qed.

(** X4. What a delivery leaves alone. A delivery that is answered changes
    no client, task or appointment; it removes and reorders no ticket and
    no incident, and adds at most one of each; every ticket that was there
    is afterwards as it was or the same ticket with status "resolved"; and
    every incident that was there keeps its key, its client, its time and
    its link to a ticket. *)
Theorem ingest_frame utcnow db data db' r :
  ingest_zabbix_event utcnow db data = Return (db', r) ->
  clients db' = clients db /\ tasks db' = tasks db /\
  appointments db' = appointments db /\
  (exists kept added,
     tickets db' = (kept ++ added)%list /\ (length added <= 1)%nat /\
     Forall2 kept_or_resolved (tickets db) kept) /\
  (exists kept added,
     incidents db' = (kept ++ added)%list /\ (length added <= 1)%nat /\
     MonitoringIncident.id <$> kept = MonitoringIncident.id <$> incidents db /\
     incident_key <$> kept = incident_key <$> incidents db /\
     MonitoringIncident.client_id <$> kept =
       MonitoringIncident.client_id <$> incidents db /\
     MonitoringIncident.occurred_at <$> kept =
       MonitoringIncident.occurred_at <$> incidents db /\
     MonitoringIncident.ticket_id <$> kept =
       MonitoringIncident.ticket_id <$> incidents db).
Proof.
  intros Hret.
  destruct (ingest_Return_cases _ _ _ _ _ Hret)
    as (event_id & raw_severity & message & Hacc &
        [(existing & Hfind & Hupd)|(Hfind & client & when & Hclient & Hwhen & Hcreate)]).
  - pose proof (update_existing_spec db data existing (lower (py_str raw_severity)) message)
      as Hspec.
    pose proof (update_existing_frame db data existing (lower (py_str raw_severity)) message)
      as [Htasks Happ].
    rewrite Hupd in Hspec, Htasks, Happ. cbn [fst] in Htasks, Happ.
    destruct Hspec as (_ & Hcl & Hinc & _ & _ & _ & Hid & Hcid & Hsrc & Hext & Hocc & Htid &
                       Htickets & _).
    destruct (find_Some_holds _ _ _ Hfind) as [Hkey Hin].
    apply same_event_true in Hkey as [Hsrc' Hext']. rewrite Hext' in Hinc.
    split; [exact Hcl|]. split; [exact Htasks|]. split; [exact Happ|]. split.
    + exists (tickets db'), []. rewrite app_nil_r. split; [reflexivity|].
      split; [cbn; lia|].
      destruct Htickets as [->|(t & raw & _ & _ & _ & _ & ->)].
      * clear. induction (tickets db); constructor; [apply kept_or_resolved_refl|assumption].
      * apply alter_first_Forall2; [apply kept_or_resolved_refl|]. intros x. now right.
    + exists (incidents db'), []. rewrite app_nil_r. split; [reflexivity|].
      split; [cbn; lia|]. rewrite Hinc.
      assert (Hk : incident_key (incident r) = incident_key existing)
        by (unfold incident_key; now rewrite Hsrc, Hext).
      split; [exact (alter_first_const_fmap MonitoringIncident.id
                       (same_event (py_str event_id)) (incidents db) existing (incident r)
                       Hfind Hid)|].
      split; [exact (alter_first_const_fmap incident_key
                       (same_event (py_str event_id)) (incidents db) existing (incident r)
                       Hfind Hk)|].
      split; [exact (alter_first_const_fmap MonitoringIncident.client_id
                       (same_event (py_str event_id)) (incidents db) existing (incident r)
                       Hfind Hcid)|].
      split; [exact (alter_first_const_fmap MonitoringIncident.occurred_at
                       (same_event (py_str event_id)) (incidents db) existing (incident r)
                       Hfind Hocc)|].
      exact (alter_first_const_fmap MonitoringIncident.ticket_id
               (same_event (py_str event_id)) (incidents db) existing (incident r)
               Hfind Htid).
  - destruct (create_incident_spec utcnow db data client event_id (lower (py_str raw_severity))
                (priority_of_severity (lower (py_str raw_severity))) message when Hwhen)
      as (t & i & Hcreate' & _).
    rewrite Hcreate' in Hcreate. injection Hcreate as <- <-.
    cbn [clients tasks appointments tickets incidents].
    split; [reflexivity|]. split; [reflexivity|]. split; [reflexivity|]. split.
    + exists (tickets db), [t]. split; [reflexivity|]. split; [cbn; lia|].
      clear. induction (tickets db); constructor; [apply kept_or_resolved_refl|assumption].
    + exists (incidents db), [i]. split; [reflexivity|]. split; [cbn; lia|].
      repeat (split; [reflexivity|]). reflexivity.
Qed.

End IngestMore.
(** ** Schedule optimisation: the shape of the plan *)

Section ScheduleMore.
Import Schedule.

(** The four ways a turn of the loop goes. *)
Lemma step_cases db day_start day_end travel_buffer st a :
  (exists e slot,
     or_None (Appointment.assigned_to a) = Some e /\
     dict_get e (engineer_slots st) = Some slot /\
     step db day_start day_end travel_buffer st a =
     Return (booked db day_end travel_buffer st a e (engineer_slots st) slot
               (reassigned st))) \/
  (exists e,
     or_None (Appointment.assigned_to a) = Some e /\
     dict_get e (engineer_slots st) = None /\
     step db day_start day_end travel_buffer st a =
     Return (booked db day_end travel_buffer st a e
               (dict_set e day_start (engineer_slots st)) day_start (reassigned st))) \/
  (exists e slot,
     unassigned (Appointment.assigned_to a) /\
     min_key (engineer_slots st) = Some e /\
     dict_get e (engineer_slots st) = Some slot /\
     step db day_start day_end travel_buffer st a =
     Return (booked db day_end travel_buffer st a e (engineer_slots st) slot
               (reassigned st + 1))) \/
  (unassigned (Appointment.assigned_to a) /\
   engineer_slots st = [] /\
   step db day_start day_end travel_buffer st a =
   Return (booked db day_end travel_buffer st a "Unassigned"
             [("Unassigned", day_start)] day_start (reassigned st + 1))).
Proof.
  unfold step, unassigned.
  destruct (or_None (Appointment.assigned_to a)) as [e|] eqn:Hor.
  - destruct (dict_get e (engineer_slots st)) as [slot|] eqn:Hget.
    + left. exists e, slot. rewrite Hget. done.
    + right. left. exists e. rewrite dict_get_set_eq. done.
  - destruct (min_key (engineer_slots st)) as [e|] eqn:Hmin.
    + right. right. left.
      destruct (dict_get_is_Some e (engineer_slots st) (min_key_in _ _ Hmin)) as [slot Hget].
      exists e, slot. rewrite Hget. done.
    + right. right. right.
      destruct (engineer_slots st) as [|[k v] d] eqn:Hslots; [|discriminate].
      cbn [dict_set dict_get]. rewrite String.eqb_refl. done.
Qed.


(** What [suggest] writes into a suggestion. *)
Lemma books_spec db day_end travel_buffer a s :
  books db day_end travel_buffer a s ->
  appointment_id s = Appointment.id a /\
  current_start s = Appointment.start_time a /\
  assigned_engineer s = Appointment.assigned_to a /\
  client s = client_name (clients db) (Appointment.client_id a) /\
  travel_buffer_minutes s = travel_buffer /\
  current_start s <= optimized_start s /\
  optimized_end s =
    optimized_start s + timedelta_minutes (Appointment.duration_minutes a) /\
  notes s =
    (if decide (day_end < optimized_end s + timedelta_minutes travel_buffer)
     then Some note_workday
     else if decide (current_start s < optimized_start s) then Some note_overlap
     else None) /\
  (forall e, or_None (assigned_engineer s) = Some e -> recommended_engineer s = e).
Proof.
  intros (engineer & slot & -> & Heng). unfold suggest.
  cbn [appointment_id current_start assigned_engineer client travel_buffer_minutes
       optimized_start optimized_end notes recommended_engineer].
  repeat (split; [reflexivity|]).
  split; [lia|]. split; [reflexivity|]. split; [|exact Heng].
  destruct (decide (day_end < _)) as [Hlate|Hlate].
  - apply Z.ltb_lt in Hlate. now rewrite Hlate.
  - apply Z.ltb_nlt in Hlate. rewrite Hlate.
    destruct (decide (Appointment.start_time a < _)) as [Hmoved|Hmoved].
    + apply Z.ltb_lt in Hmoved. now rewrite Hmoved.
    + apply Z.ltb_nlt in Hmoved. now rewrite Hmoved.
Qed.

Lemma step_books db day_start day_end travel_buffer st a st' :
  step db day_start day_end travel_buffer st a = Return st' ->
  exists s,
    suggested st' = (suggested st ++ [s])%list /\
    books db day_end travel_buffer a s /\
    reassigned st' =
      reassigned st + (if decide (unassigned (Appointment.assigned_to a)) then 1 else 0).
Proof.
  intros Hstep.
  destruct (step_cases db day_start day_end travel_buffer st a)
    as [(e & slot & Hor & _ & Hrun)|[(e & Hor & _ & Hrun)|
        [(e & slot & Hun & _ & _ & Hrun)|(Hun & _ & Hrun)]]];
    rewrite Hrun in Hstep; injection Hstep as <-; unfold booked;
    cbn [suggested reassigned]; eexists; (split; [reflexivity|]).
  - split; [exists e, slot; split; [reflexivity|]; intros e'; rewrite Hor; congruence|].
    rewrite decide_False; [lia|]. unfold unassigned. now rewrite Hor.
  - split; [exists e, day_start; split; [reflexivity|]; intros e'; rewrite Hor; congruence|].
    rewrite decide_False; [lia|]. unfold unassigned. now rewrite Hor.
  - split; [exists e, slot; split; [reflexivity|]; intros e'; rewrite Hun; discriminate|].
    now rewrite decide_True.
  - split; [exists "Unassigned", day_start; split; [reflexivity|];
            intros e'; rewrite Hun; discriminate|].
    now rewrite decide_True.
Qed.

(** The loop makes one suggestion per appointment, in order, and counts
    the appointments that had no engineer. *)
Lemma loop_books db day_start day_end travel_buffer todo : forall st st',
  loop db day_start day_end travel_buffer st todo = Return st' ->
  exists new,
    suggested st' = (suggested st ++ new)%list /\
    Forall2 (books db day_end travel_buffer) todo new /\
    reassigned st' =
      reassigned st +
      Scoring.count (fun a => unassigned (Appointment.assigned_to a)) todo.
Proof.
  induction todo as [|a todo IH]; intros st st'; cbn [loop].
  - intros [= <-]. exists []. rewrite app_nil_r. split; [reflexivity|].
    split; [constructor|]. unfold Scoring.count. cbn. lia.
  - destruct (step db day_start day_end travel_buffer st a) as [st1| |] eqn:Hstep;
      cbn [mbind outcome_bind]; try discriminate.
    intros Hloop. destruct (step_books _ _ _ _ _ _ _ Hstep) as (s & Hs & Hbooks & Hre).
    destruct (IH _ _ Hloop) as (new & Hnew & Hall & Hcount).
    exists (s :: new). split; [rewrite Hnew, Hs, <- app_assoc; reflexivity|].
    split; [now constructor|].
    rewrite Hcount, Hre, count_cons. lia.
Qed.

(** A property of the state that every turn keeps holds when the loop ends. *)
Lemma loop_preserves (I : Loop -> Prop) db day_start day_end travel_buffer todo :
  (forall st a st', a ∈ todo -> I st ->
     step db day_start day_end travel_buffer st a = Return st' -> I st') ->
  forall st st',
    I st -> loop db day_start day_end travel_buffer st todo = Return st' -> I st'.
Proof.
  induction todo as [|a todo IH]; intros Hstep st st' HI; cbn [loop].
  - now intros [= <-].
  - destruct (step db day_start day_end travel_buffer st a) as [st1| |] eqn:Hrun;
      cbn [mbind outcome_bind]; try discriminate.
    apply IH.
    + intros st2 b st3 Hb. apply Hstep. apply elem_of_cons. now right.
    + apply (Hstep st a st1); [apply elem_of_cons; now left|exact HI|exact Hrun].
Qed.

Lemma Sorted_insert_by_start a (sorted : list Appointment.t) :
  Sorted Z.le (Appointment.start_time <$> sorted) ->
  Sorted Z.le (Appointment.start_time <$> insert_by_start a sorted).
Proof.
  induction sorted as [|b sorted IH]; cbn [insert_by_start fmap list_fmap]; intros Hs.
  - repeat constructor.
  - apply Sorted_inv in Hs as [Hs Hhd].
    destruct (Appointment.start_time b <? Appointment.start_time a) eqn:Hlt.
    + apply Z.ltb_lt in Hlt. cbn [fmap list_fmap]. constructor; [now apply IH|].
      destruct sorted as [|c sorted]; cbn [insert_by_start fmap list_fmap].
      * constructor. lia.
      * destruct (Appointment.start_time c <? Appointment.start_time a);
          cbn [fmap list_fmap]; constructor; [|lia].
        now apply HdRel_inv in Hhd.
    + apply Z.ltb_nlt in Hlt. cbn [fmap list_fmap]. constructor.
      * constructor; assumption.
      * constructor. lia.
Qed.

Lemma insert_by_start_Permutation a (sorted : list Appointment.t) :
  insert_by_start a sorted ≡ₚ a :: sorted.
Proof.
  induction sorted as [|b sorted IH]; cbn [insert_by_start]; [reflexivity|].
  destruct (Appointment.start_time b <? Appointment.start_time a); [|reflexivity].
  rewrite IH. apply Permutation_swap.
Qed.

(** The query of the route returns the scheduled appointments of the day,
    each once, by start time. *)
Lemma scheduled_on_spec target_date rows :
  Sorted Z.le (Appointment.start_time <$> scheduled_on target_date rows) /\
  scheduled_on target_date rows ≡ₚ
    filter (in_window (combine target_date time_min) (combine target_date time_max)) rows.
Proof.
  unfold scheduled_on, order_by_start_time.
  induction (filter _ rows) as [|a l [IHs IHp]]; cbn [foldr].
  - split; [constructor|reflexivity].
  - split; [now apply Sorted_insert_by_start|].
    rewrite insert_by_start_Permutation. now constructor.
Qed.


Lemma Forall2_books_elem db day_end travel_buffer todo new s :
  Forall2 (books db day_end travel_buffer) todo new -> s ∈ new ->
  exists a, a ∈ todo /\ books db day_end travel_buffer a s.
Proof.
  intros Hall Hs. induction Hall as [|a s' todo new Hbooks _ IH].
  - now apply elem_of_nil in Hs.
  - apply elem_of_cons in Hs as [->|Hs].
    + exists a. split; [apply elem_of_cons; now left|exact Hbooks].
    + destruct (IH Hs) as (a' & Ha' & Hb). exists a'.
      split; [apply elem_of_cons; now right|exact Hb].
Qed.

Lemma Forall2_books_unassigned db day_end travel_buffer todo new :
  Forall2 (books db day_end travel_buffer) todo new ->
  Scoring.count (fun a => unassigned (Appointment.assigned_to a)) todo =
  Scoring.count (fun s => unassigned (assigned_engineer s)) new.
Proof.
  induction 1 as [|a s todo new Hbooks _ IH]; [reflexivity|].
  destruct (books_spec _ _ _ _ _ Hbooks) as (_ & _ & Heng & _).
  rewrite !count_cons, IH, Heng.
  destruct (decide (unassigned (Appointment.assigned_to a))); reflexivity.
Qed.

Lemma dict_set_Forall_values {V} (Q : V -> Prop) k v (d : dict V) :
  Forall (fun kv => Q kv.2) d -> Q v -> Forall (fun kv => Q kv.2) (dict_set k v d).
Proof.
  intros Hd Hv. induction d as [|[k' v'] d IH]; cbn [dict_set].
  - constructor; [exact Hv|constructor].
  - apply Forall_cons in Hd as [Hv' Hd]. destruct (String.eqb k k').
    + constructor; [exact Hv|exact Hd].
    + constructor; [exact Hv'|now apply IH].
Qed.

Lemma dict_get_Forall_values {V} (Q : V -> Prop) k v (d : dict V) :
  Forall (fun kv => Q kv.2) d -> dict_get k d = Some v -> Q v.
Proof.
  intros Hd Hget. apply dict_get_Some_elem in Hget.
  rewrite Forall_forall in Hd. apply (Hd _ Hget).
Qed.

Lemma initial_slots_values day_start engineers_input :
  Forall (fun kv => kv.2 = day_start) (initial_slots day_start engineers_input).
Proof.
  unfold initial_slots.
  enough (Hgen : forall d : dict datetime,
             Forall (fun kv => kv.2 = day_start) d ->
             Forall (fun kv => kv.2 = day_start)
                    (foldl (fun slots engineer => dict_set (py_str engineer) day_start slots)
                           d engineers_input)) by (apply Hgen; constructor).
  induction engineers_input as [|e l IH]; intros d Hd; cbn [foldl]; [exact Hd|].
  apply IH. now apply (dict_set_Forall_values (fun v => v = day_start)).
Qed.

Lemma initial_slots_keys day_start engineers_input e :
  e ∈ dict_keys (initial_slots day_start engineers_input) ->
  e ∈ py_str <$> engineers_input.
Proof.
  unfold initial_slots.
  enough (Hgen : forall d : dict datetime,
             e ∈ dict_keys (foldl (fun slots engineer =>
                                     dict_set (py_str engineer) day_start slots)
                                  d engineers_input) ->
             e ∈ dict_keys d \/ e ∈ py_str <$> engineers_input).
  { intros He. destruct (Hgen [] He) as [Hnil|?]; [|assumption].
    now apply elem_of_nil in Hnil. }
  induction engineers_input as [|x l IH]; intros d; cbn [foldl]; [now left|].
  intros He. destruct (IH _ He) as [Hd|Hl].
  - rewrite dict_keys_set in Hd. destruct (dict_get (py_str x) d).
    + now left.
    + apply elem_of_app in Hd as [?|Hx]; [now left|].
      apply list_elem_of_singleton in Hx as ->. right. apply elem_of_cons. now left.
  - right. cbn [fmap list_fmap]. apply elem_of_cons. now right.
Qed.

Lemma dict_set_not_nil {V} k v (d : dict V) : dict_set k v d <> [].
Proof. destruct d as [|[k' v'] d]; cbn; [discriminate|]. now destruct (String.eqb k k'). Qed.

Lemma initial_slots_not_nil day_start engineers_input :
  engineers_input <> [] -> initial_slots day_start engineers_input <> [].
Proof.
  unfold initial_slots. 
  enough (Hgen : forall (l : list json) (d : dict datetime),
             d <> [] ->
             foldl (fun slots engineer => dict_set (py_str engineer) day_start slots) d l
             <> []).
  { destruct engineers_input as [|x l]; [congruence|]. intros _. cbn [foldl].
    apply Hgen. apply dict_set_not_nil. }
  induction l as [|x l IH]; intros d Hd; cbn [foldl]; [exact Hd|].
  apply IH. apply dict_set_not_nil.
Qed.

Lemma min_key_from_spec best best_slot (d : dict datetime) :
  let k := min_key_from best best_slot d in
  (k = best /\ Forall (fun kv => best_slot <= kv.2) d) \/
  (exists before v after,
     d = (before ++ (k, v) :: after)%list /\ v < best_slot /\
     Forall (fun kv => v < kv.2) before /\ Forall (fun kv => v <= kv.2) after).
Proof.
  cbv zeta. revert best best_slot.
  induction d as [|[k' v'] d IH]; intros best best_slot; cbn [min_key_from].
  - left. split; [reflexivity|constructor].
  - destruct (v' <? best_slot) eqn:Hlt.
    + apply Z.ltb_lt in Hlt. right. pose proof (IH k' v') as IHk.
      set (k := min_key_from k' v' d) in *.
      destruct IHk as [[Hk Hall]|(before & v & after & Hd & Hv & Hb & Ha)].
      * exists [], v', d. rewrite Hk. split; [reflexivity|]. split; [exact Hlt|].
        split; [constructor|exact Hall].
      * exists ((k', v') :: before), v, after. split; [cbn; f_equal; exact Hd|].
        split; [lia|]. split; [|exact Ha]. constructor; [cbn; lia|exact Hb].
    + apply Z.ltb_nlt in Hlt. pose proof (IH best best_slot) as IHk.
      set (k := min_key_from best best_slot d) in *.
      destruct IHk as [[Hk Hall]|(before & v & after & Hd & Hv & Hb & Ha)].
      * left. split; [exact Hk|]. constructor; [cbn; lia|exact Hall].
      * right. exists ((k', v') :: before), v, after.
        split; [cbn; f_equal; exact Hd|].
        split; [exact Hv|]. split; [|exact Ha]. constructor; [cbn; lia|exact Hb].
Qed.

(** [min(engineer_slots, key=engineer_slots.get)] on a non-empty dict: the
    key of a least slot, before which every slot is strictly later. *)
Lemma min_key_spec (d : dict datetime) k :
  min_key d = Some k ->
  exists before v after,
    d = (before ++ (k, v) :: after)%list /\
    Forall (fun kv => v < kv.2) before /\ Forall (fun kv => v <= kv.2) after.
Proof.
  destruct d as [|[k0 v0] d]; cbn [min_key]; [discriminate|]. intros [= <-].
  pose proof (min_key_from_spec k0 v0 d) as Hspec. cbv zeta in Hspec.
  set (k := min_key_from k0 v0 d) in *.
  destruct Hspec as [[Hk Hall]|(before & v & after & Hd & Hv & Hb & Ha)].
  - exists [], v0, d. rewrite Hk. split; [reflexivity|]. split; [constructor|exact Hall].
  - exists ((k0, v0) :: before), v, after. split; [cbn; f_equal; exact Hd|].
    split; [|exact Ha]. constructor; [cbn; lia|exact Hb].
Qed.

(** X9. An appointment without engineer goes to the engineer who is free
    first. When the loop reaches an appointment whose [assigned_to] is
    empty and some engineer has a slot, it recommends the engineer whose
    slot is the earliest - of several with that slot, the one that entered
    the dict first -, books the visit at the later of its start and that
    slot, and counts one reassignment. *)
Theorem unassigned_visit_goes_to_first_free db day_start day_end travel_buffer st a st' :
  unassigned (Appointment.assigned_to a) ->
  engineer_slots st <> [] ->
  NoDup (dict_keys (engineer_slots st)) ->
  step db day_start day_end travel_buffer st a = Return st' ->
  exists s before slot after,
    suggested st' = (suggested st ++ [s])%list /\
    engineer_slots st = (before ++ (recommended_engineer s, slot) :: after)%list /\
    Forall (fun kv => slot < kv.2) before /\
    Forall (fun kv => slot <= kv.2) after /\
    optimized_start s = Z.max (Appointment.start_time a) slot /\
    reassigned st' = reassigned st + 1.
Proof.
  intros Hun Hne Hnd Hstep.
  destruct (step_cases db day_start day_end travel_buffer st a)
    as [(e & slot & Hor & _)|[(e & Hor & _)|
        [(e & slot & _ & Hmin & Hget & Hrun)|(_ & Hnil & _)]]];
    try (unfold unassigned in Hun; congruence).
  rewrite Hrun in Hstep. injection Hstep as <-.
  destruct (min_key_spec _ _ Hmin) as (before & v & after & Hd & Hb & Ha).
  assert (v = slot) as ->.
  { assert (Hin : (e, v) ∈ engineer_slots st).
    { rewrite Hd. apply elem_of_app. right. apply elem_of_cons. now left. }
    apply (dict_elem_get _ _ _ Hnd) in Hin. congruence. }
  eexists _, before, slot, after. unfold booked. cbn [suggested reassigned].
  split; [reflexivity|]. cbn [suggest recommended_engineer optimized_start].
  split; [exact Hd|]. split; [exact Hb|]. split; [exact Ha|]. split; reflexivity.
Qed.

Section Route.
Context `{Builtins}.

(** A plan is the result of the loop on the appointments of its date. *)
Lemma optimise_schedule_plan utcnow db request plan :
  optimise_schedule utcnow db request = Return plan ->
  exists travel_buffer workday final,
    py_int (default (JInt 30) (body request !! "travel_buffer_minutes"))
      = Return travel_buffer /\
    py_int (default (JInt (8 * 60)) (body request !! "workday_minutes")) = Return workday /\
    loop db (day_start_of (date plan))
         (day_start_of (date plan) + timedelta_minutes workday) travel_buffer
         {| engineer_slots := initial_slots (day_start_of (date plan)) (engineers request);
            reassigned := 0; suggested := [] |}
         (scheduled_on (date plan) (appointments db)) = Return final /\
    appointments_considered plan =
      Z.of_nat (length (scheduled_on (date plan) (appointments db))) /\
    reassignments plan = reassigned final /\
    suggestions plan = suggested final /\
    generated_at plan = utcnow.
Proof.
  unfold optimise_schedule.
  destruct (body request !! "date") as [raw_date|]; [|discriminate].
  destruct (except_ValueError_400 (datetime_fromisoformat raw_date)) as [parsed| |];
    cbn; try discriminate.
  destruct (py_int (default (JInt 30) (body request !! "travel_buffer_minutes")))
    as [travel_buffer| |]; cbn; try discriminate.
  destruct (py_int (default (JInt (8 * 60)) (body request !! "workday_minutes")))
    as [workday| |]; cbn; try discriminate.
  match goal with
  | |- mbind _ ?l = _ -> _ => destruct l as [final| |] eqn:Hloop; cbn; try discriminate
  end.
  intros [= <-]. exists travel_buffer, workday, final. cbn [date].
  split; [reflexivity|]. split; [reflexivity|]. split; [exact Hloop|].
  repeat split.
Qed.

(** X5. The plan covers the day. Every plan holds one suggestion for each
    scheduled appointment whose start lies within the plan's date, and for
    no other: the suggestions are for those appointments, each once, in
    the order of their current start times; [appointments_considered] is
    their number; and each suggestion repeats the start and the engineer
    the appointment has in the database. *)
Theorem optimiser_covers_the_day utcnow db request plan :
  optimise_schedule utcnow db request = Return plan ->
  let day := in_window (combine (date plan) time_min) (combine (date plan) time_max) in
  let todo := scheduled_on (date plan) (appointments db) in
  todo ≡ₚ filter day (appointments db) /\
  appointment_id <$> suggestions plan = Appointment.id <$> todo /\
  current_start <$> suggestions plan = Appointment.start_time <$> todo /\
  assigned_engineer <$> suggestions plan = Appointment.assigned_to <$> todo /\
  Sorted Z.le (current_start <$> suggestions plan) /\
  appointments_considered plan = Z.of_nat (length (suggestions plan)) /\
  generated_at plan = utcnow.
Proof.
  intros Hrun. cbv zeta.
  destruct (optimise_schedule_plan _ _ _ _ Hrun)
    as (travel_buffer & workday & final & _ & _ & Hloop & Hn & _ & Hs & Hgen).
  destruct (loop_books _ _ _ _ _ _ _ Hloop) as (new & Hnew & Hall & _).
  cbn [suggested app] in Hnew. rewrite Hs, Hnew.
  destruct (scheduled_on_spec (date plan) (appointments db)) as [Hsorted Hperm].
  assert (Hcols : appointment_id <$> new =
                    Appointment.id <$> scheduled_on (date plan) (appointments db) /\
                  current_start <$> new =
                    Appointment.start_time <$> scheduled_on (date plan) (appointments db) /\
                  assigned_engineer <$> new =
                    Appointment.assigned_to <$> scheduled_on (date plan) (appointments db)).
  { clear -Hall. induction Hall as [|a s todo new Hbooks _ (IH1 & IH2 & IH3)];
      [done|].
    destruct (books_spec _ _ _ _ _ Hbooks) as (Hid & Hstart & Heng & _).
    cbn [fmap list_fmap]. now rewrite Hid, Hstart, Heng, IH1, IH2, IH3. }
  destruct Hcols as (Hids & Hstarts & Hengs).
  split; [exact Hperm|]. split; [exact Hids|]. split; [exact Hstarts|].
  split; [exact Hengs|]. split; [now rewrite Hstarts|].
  split; [|exact Hgen].
  rewrite Hn. f_equal. now rewrite <- (Forall2_length _ _ _ Hall).
Qed.


(** X6. The count of reassignments can be read off the plan: it is the
    number of suggestions whose appointment had no engineer ([assigned_to]
    null or empty). An appointment that has an engineer is never given to
    another: its suggestion recommends the engineer it is assigned to. *)
Theorem optimiser_counts_reassignments utcnow db request plan :
  optimise_schedule utcnow db request = Return plan ->
  reassignments plan =
    Scoring.count (fun s => unassigned (assigned_engineer s)) (suggestions plan) /\
  forall s e,
    s ∈ suggestions plan -> or_None (assigned_engineer s) = Some e ->
    recommended_engineer s = e.
Proof.
  intros Hrun.
  destruct (optimise_schedule_plan _ _ _ _ Hrun)
    as (travel_buffer & workday & final & _ & _ & Hloop & _ & Hre & Hs & _).
  destruct (loop_books _ _ _ _ _ _ _ Hloop) as (new & Hnew & Hall & Hcount).
  cbn [suggested reassigned app] in Hnew, Hcount. rewrite Hs, Hnew, Hre, Hcount. split.
  - rewrite (Forall2_books_unassigned _ _ _ _ _ Hall). lia.
  - intros s e Hin Hor. destruct (Forall2_books_elem _ _ _ _ _ _ Hall Hin) as (a & _ & Hb).
    destruct (books_spec _ _ _ _ _ Hb) as (_ & _ & _ & _ & _ & _ & _ & _ & Heng).
    now apply Heng.
Qed.

(** X7. The times and the note of a suggestion. A visit is never moved to
    an earlier time; it keeps the duration of its appointment, a scheduled
    appointment of the database; it carries the travel buffer of the
    request; and its note is "Extends beyond workday; consider another
    engineer" when its end plus the buffer lies after the end of the
    working day (09:00 plus [workday_minutes]), otherwise "Resolved
    overlap with preceding visit" when it was moved, otherwise none - so a
    visit that was moved and ends too late carries the workday note only. *)
Theorem optimiser_suggestion_times utcnow db request plan travel_buffer workday s :
  optimise_schedule utcnow db request = Return plan ->
  py_int (default (JInt 30) (body request !! "travel_buffer_minutes"))
    = Return travel_buffer ->
  py_int (default (JInt (8 * 60)) (body request !! "workday_minutes")) = Return workday ->
  s ∈ suggestions plan ->
  let day_end := day_start_of (date plan) + timedelta_minutes workday in
  travel_buffer_minutes s = travel_buffer /\
  current_start s <= optimized_start s /\
  (exists a,
     a ∈ appointments db /\ Appointment.status a = "scheduled" /\
     Appointment.id a = appointment_id s /\
     Appointment.start_time a = current_start s /\
     optimized_end s =
       optimized_start s + timedelta_minutes (Appointment.duration_minutes a)) /\
  notes s =
    (if decide (day_end < optimized_end s + timedelta_minutes travel_buffer)
     then Some note_workday
     else if decide (current_start s < optimized_start s) then Some note_overlap
     else None).
Proof.
  intros Hrun Hbuf Hwork Hin. cbv zeta.
  destruct (optimise_schedule_plan _ _ _ _ Hrun)
    as (travel_buffer' & workday' & final & Hbuf' & Hwork' & Hloop & _ & _ & Hs & _).
  assert (travel_buffer' = travel_buffer) as -> by congruence.
  assert (workday' = workday) as -> by congruence.
  destruct (loop_books _ _ _ _ _ _ _ Hloop) as (new & Hnew & Hall & _).
  cbn [suggested app] in Hnew. rewrite Hs, Hnew in Hin.
  destruct (Forall2_books_elem _ _ _ _ _ _ Hall Hin) as (a & Ha & Hb).
  destruct (books_spec _ _ _ _ _ Hb) as (Hid & Hstart & _ & _ & Htb & Hle & Hend & Hnote & _).
  apply elem_of_scheduled_on in Ha as [Ha Hstatus].
  split; [exact Htb|]. split; [exact Hle|]. split; [|exact Hnote].
  exists a. split; [exact Ha|]. split; [exact Hstatus|]. split; [now rewrite Hid|].
  split; [now rewrite Hstart|exact Hend].
Qed.

(** X8. No visit before the working day. When the duration of every
    scheduled appointment plus the travel buffer of the request is not
    negative, every suggested start is at or after 09:00 of the plan's
    date: an appointment that starts earlier is moved to 09:00 or later. *)
Theorem optimiser_never_before_day_start utcnow db request plan travel_buffer :
  optimise_schedule utcnow db request = Return plan ->
  py_int (default (JInt 30) (body request !! "travel_buffer_minutes"))
    = Return travel_buffer ->
  (forall a, a ∈ appointments db -> Appointment.status a = "scheduled" ->
             0 <= Appointment.duration_minutes a + travel_buffer) ->
  forall s, s ∈ suggestions plan -> day_start_of (date plan) <= optimized_start s.
Proof.
  intros Hrun Hbuf Hlen.
  destruct (optimise_schedule_plan _ _ _ _ Hrun)
    as (travel_buffer' & workday & final & Hbuf' & _ & Hloop & _ & _ & Hs & _).
  assert (travel_buffer' = travel_buffer) as -> by congruence.
  set (day_start := day_start_of (date plan)) in *.
  set (I := fun st : Loop =>
              Forall (fun kv => day_start <= kv.2) (engineer_slots st) /\
              Forall (fun s => day_start <= optimized_start s) (suggested st)).
  assert (HI : I final).
  { eapply (loop_preserves I); [|
      |exact Hloop].
    - intros st a st' Ha [Hslots Hsugg] Hstep.
      apply elem_of_scheduled_on in Ha as [Ha Hstatus].
      specialize (Hlen a Ha Hstatus).
      assert (Hbook : forall e slots slot re,
                 Forall (fun kv => day_start <= kv.2) slots -> day_start <= slot ->
                 I (booked db (day_start + timedelta_minutes workday) travel_buffer
                           st a e slots slot re)).
      { intros e slots slot re Hsl Hslot. unfold I, booked.
        cbn [engineer_slots suggested suggest optimized_end optimized_start]. split.
        - apply (dict_set_Forall_values (fun v => day_start <= v)); [exact Hsl|].
          unfold timedelta_minutes, us_per_minute. lia.
        - apply Forall_app. split; [exact Hsugg|]. constructor; [|constructor].
          cbn [suggest optimized_start]. lia. }
      destruct (step_cases db day_start (day_start + timedelta_minutes workday)
                  travel_buffer st a)
        as [(e & slot & _ & Hget & Hr)|[(e & _ & _ & Hr)|
            [(e & slot & _ & _ & Hget & Hr)|(_ & _ & Hr)]]];
        rewrite Hr in Hstep; injection Hstep as <-; apply Hbook.
      + exact Hslots.
      + apply (dict_get_Forall_values (fun v => day_start <= v) _ _ _ Hslots Hget).
      + apply (dict_set_Forall_values (fun v => day_start <= v)); [exact Hslots|lia].
      + lia.
      + exact Hslots.
      + apply (dict_get_Forall_values (fun v => day_start <= v) _ _ _ Hslots Hget).
      + constructor; [cbn; lia|constructor].
      + lia.
    - split; [|constructor]. cbn [engineer_slots].
      eapply Forall_impl; [apply initial_slots_values|]. intros [k v] Hkv.
      cbn in Hkv |- *. lia. }
  destruct HI as [_ Hall]. rewrite Hs. rewrite Forall_forall in Hall. exact Hall.
Qed.

(** X10. The optimiser invents no engineer. Every engineer a plan
    recommends is one of the engineers of the request, or the engineer
    assigned to a scheduled appointment of the day, or - and this only
    when the request names no engineer - the placeholder "Unassigned". *)
Theorem optimiser_invents_no_engineer utcnow db request plan s :
  optimise_schedule utcnow db request = Return plan ->
  s ∈ suggestions plan ->
  recommended_engineer s ∈ py_str <$> engineers request \/
  (exists a, a ∈ scheduled_on (date plan) (appointments db) /\
             or_None (Appointment.assigned_to a) = Some (recommended_engineer s)) \/
  (recommended_engineer s = "Unassigned" /\ engineers request = []).
Proof.
  intros Hrun Hin.
  destruct (optimise_schedule_plan _ _ _ _ Hrun)
    as (travel_buffer & workday & final & _ & _ & Hloop & _ & _ & Hs & _).
  set (todo := scheduled_on (date plan) (appointments db)) in *.
  set (known := fun e : string =>
                  e ∈ py_str <$> engineers request \/
                  (exists a, a ∈ todo /\ or_None (Appointment.assigned_to a) = Some e) \/
                  (e = "Unassigned" /\ engineers request = [])).
  set (I := fun st : Loop =>
              (forall e, e ∈ dict_keys (engineer_slots st) -> known e) /\
              (forall s, s ∈ suggested st -> known (recommended_engineer s)) /\
              (engineers request <> [] -> engineer_slots st <> [])).
  assert (HI : I final).
  { eapply (loop_preserves I); [| |exact Hloop].
    - intros st a st' Ha (Hkeys & Hsugg & Hne) Hstep.
      assert (Hbook : forall e slots slot re,
                 known e -> (forall e', e' ∈ dict_keys slots -> known e') ->
                 I (booked db (day_start_of (date plan) + timedelta_minutes workday)
                           travel_buffer st a e slots slot re)).
      { intros e slots slot re He Hsl. unfold I, booked.
        cbn [engineer_slots suggested]. split; [|split].
        - intros e'. rewrite dict_keys_set. destruct (dict_get e slots).
          + apply Hsl.
          + intros [?|Hx%list_elem_of_singleton]%elem_of_app;
              [now apply Hsl|now rewrite Hx].
        - intros s' [?|Hx%list_elem_of_singleton]%elem_of_app;
            [now apply Hsugg|now rewrite Hx].
        - intros _. apply dict_set_not_nil. }
      destruct (step_cases db (day_start_of (date plan))
                  (day_start_of (date plan) + timedelta_minutes workday)
                  travel_buffer st a)
        as [(e & slot & Hor & Hget & Hr)|[(e & Hor & Hget & Hr)|
            [(e & slot & _ & Hmin & Hget & Hr)|(_ & Hnil & Hr)]]];
        rewrite Hr in Hstep; injection Hstep as <-; apply Hbook.
      + right. left. eauto.
      + exact Hkeys.
      + right. left. eauto.
      + intros e'. rewrite dict_keys_set, Hget.
        intros [?|Hx%list_elem_of_singleton]%elem_of_app; [now apply Hkeys|].
        rewrite Hx. right. left. eauto.
      + apply Hkeys. now apply min_key_in.
      + exact Hkeys.
      + right. right. split; [reflexivity|].
        destruct (engineers request) as [|x l] eqn:Hl; [reflexivity|].
        exfalso. apply Hne; [discriminate|exact Hnil].
      + intros e' [->|[]%elem_of_nil]%elem_of_cons.
        right. right. split; [reflexivity|].
        destruct (engineers request) as [|x l] eqn:Hl; [reflexivity|].
        exfalso. apply Hne; [discriminate|exact Hnil].
    - split; [|split]; cbn [engineer_slots suggested].
      + intros e He. left. now apply initial_slots_keys in He.
      + intros s' Hs'. now apply elem_of_nil in Hs'.
      + apply initial_slots_not_nil. }
  destruct HI as (_ & Hall & _). apply Hall. now rewrite <- Hs.
Qed.

End Route.

End ScheduleMore.
(** ** Schedule optimisation: the range of the dates *)

Section ScheduleRange.
Import Schedule.

Lemma timedelta_minutes_add a b :
  timedelta_minutes (a + b) = timedelta_minutes a + timedelta_minutes b.
Proof. unfold timedelta_minutes. lia. Qed.

Lemma minutes_moved_nonneg travel_buffer todo : 0 <= minutes_moved travel_buffer todo.
Proof. induction todo as [|a todo IH]; cbn [minutes_moved foldr]; [lia|]. fold (minutes_moved travel_buffer todo). lia. Qed.

Lemma minutes_moved_elem travel_buffer todo a :
  a ∈ todo ->
  Z.abs (Appointment.duration_minutes a) + Z.abs travel_buffer
  <= minutes_moved travel_buffer todo.
Proof.
  induction todo as [|b todo IH]; [intros Hin; now apply elem_of_nil in Hin|].
  cbn [minutes_moved foldr]. fold (minutes_moved travel_buffer todo).
  pose proof (minutes_moved_nonneg travel_buffer todo).
  intros [->|Hin]%elem_of_cons; [lia|]. specialize (IH Hin). lia.
Qed.

Lemma is_timedelta_small n : Z.abs n <= a_year -> is_timedelta n.
Proof.
  unfold a_year, is_timedelta. intros Hn.
  assert (- 365 <= n / (24 * 60) <= 365); [|lia].
  split.
  - apply Z.div_le_lower_bound; lia.
  - apply Z.div_le_upper_bound; lia.
Qed.

(** A turn of the loop moves the slots and makes a suggestion within the
    bounds of the slots and of the start of the visit, widened by the
    duration of the visit and the buffer. *)
Lemma step_between db day_start day_end travel_buffer st a st' lo hi :
  step db day_start day_end travel_buffer st a = Return st' ->
  lo <= day_start <= hi ->
  lo <= Appointment.start_time a <= hi ->
  Forall (fun kv => lo <= kv.2 <= hi) (engineer_slots st) ->
  Forall (between lo hi travel_buffer) (suggested st) ->
  let d := timedelta_minutes
             (Z.abs (Appointment.duration_minutes a) + Z.abs travel_buffer) in
  Forall (fun kv => lo - d <= kv.2 <= hi + d) (engineer_slots st') /\
  Forall (between (lo - d) (hi + d) travel_buffer) (suggested st').
Proof.
  intros Hstep Hday Hstart Hslots Hsugg d.
  assert (Hd : 0 <= d) by (unfold d, timedelta_minutes, us_per_minute; lia).
  assert (Hwide : forall slots : dict datetime,
             Forall (fun kv => lo <= kv.2 <= hi) slots ->
             Forall (fun kv => lo - d <= kv.2 <= hi + d) slots).
  { intros slots Hs. eapply Forall_impl; [exact Hs|]. intros kv Hkv. cbn beta in *. lia. }
  assert (Hbook : forall e slots slot re,
             Forall (fun kv => lo <= kv.2 <= hi) slots -> lo <= slot <= hi ->
             Forall (fun kv => lo - d <= kv.2 <= hi + d)
                    (engineer_slots (booked db day_end travel_buffer st a e slots slot re)) /\
             Forall (between (lo - d) (hi + d) travel_buffer)
                    (suggested (booked db day_end travel_buffer st a e slots slot re))).
  { intros e slots slot re Hsl Hslot. unfold booked.
    cbn [engineer_slots suggested suggest optimized_end optimized_start].
    assert (Hnew : between (lo - d) (hi + d) travel_buffer
                     (suggest db day_end travel_buffer a e slot)).
    { unfold between, suggest. cbn [optimized_start optimized_end].
      unfold d, timedelta_minutes, us_per_minute. lia. }
    split.
    - apply (dict_set_Forall_values (fun v => lo - d <= v <= hi + d));
        [now apply Hwide|]. apply Hnew.
    - apply Forall_app. split; [|constructor; [exact Hnew|constructor]].
      eapply Forall_impl; [exact Hsugg|]. intros s (H1 & H2 & H3).
      unfold between. lia. }
  destruct (step_cases db day_start day_end travel_buffer st a)
    as [(e & slot & _ & Hget & Hr)|[(e & _ & _ & Hr)|
        [(e & slot & _ & _ & Hget & Hr)|(_ & _ & Hr)]]];
    rewrite Hr in Hstep; injection Hstep as <-; apply Hbook.
  - exact Hslots.
  - apply (dict_get_Forall_values (fun v => lo <= v <= hi) _ _ _ Hslots Hget).
  - apply (dict_set_Forall_values (fun v => lo <= v <= hi)); [exact Hslots|exact Hday].
  - exact Hday.
  - exact Hslots.
  - apply (dict_get_Forall_values (fun v => lo <= v <= hi) _ _ _ Hslots Hget).
  - constructor; [exact Hday|constructor].
  - exact Hday.
Qed.

(** The loop keeps the slots and the suggestions within the bounds,
    widened by the minutes its visits and their buffers can move a slot. *)
Lemma loop_between db day_start day_end travel_buffer todo : forall st st' lo hi,
  loop db day_start day_end travel_buffer st todo = Return st' ->
  lo <= day_start <= hi ->
  Forall (fun a => lo <= Appointment.start_time a <= hi) todo ->
  Forall (fun kv => lo <= kv.2 <= hi) (engineer_slots st) ->
  Forall (between lo hi travel_buffer) (suggested st) ->
  let T := timedelta_minutes (minutes_moved travel_buffer todo) in
  Forall (between (lo - T) (hi + T) travel_buffer) (suggested st').
Proof.
  induction todo as [|a todo IH]; intros st st' lo hi; cbn [loop].
  - intros [= <-] _ _ _ Hsugg. cbn [minutes_moved foldr].
    eapply Forall_impl; [exact Hsugg|].
    intros s (H1 & H2 & H3). unfold between, timedelta_minutes, us_per_minute in *. lia.
  - destruct (step db day_start day_end travel_buffer st a) as [st1| |] eqn:Hstep;
      cbn [mbind outcome_bind]; try discriminate.
    intros Hloop Hday Hstarts Hslots Hsugg.
    apply Forall_cons in Hstarts as [Hstart Hstarts].
    destruct (step_between _ _ _ _ _ _ _ lo hi Hstep Hday Hstart Hslots Hsugg)
      as [Hslots1 Hsugg1].
    set (d := timedelta_minutes
                (Z.abs (Appointment.duration_minutes a) + Z.abs travel_buffer)) in *.
    assert (Hd : 0 <= d) by (unfold d, timedelta_minutes, us_per_minute; lia).
    cbn [minutes_moved foldr]. fold (minutes_moved travel_buffer todo).
    rewrite timedelta_minutes_add. fold d.
    eapply Forall_impl.
    + apply (IH st1 st' (lo - d) (hi + d) Hloop); [lia| |exact Hslots1|exact Hsugg1].
      eapply Forall_impl; [exact Hstarts|]. intros b Hb. cbn beta in *. lia.
    + intros s (H1 & H2 & H3). unfold between. lia.
Qed.

Section Route.
Context `{Builtins}.


End Route.

End ScheduleRange.
(** ** The scorers: monotonicity and conservation *)

Section ScoringMore.
Import Scoring.

Lemma evidence_grid_elem n1 n2 n3 missed stale :
  0 <= n1 <= 6 -> 0 <= n2 <= 3 -> 0 <= n3 <= 3 ->
  (n1, n2, n3, missed, stale) ∈ evidence_grid.
Proof.
  intros H1 H2 H3. unfold evidence_grid.
  apply list_elem_of_bind. exists n1. split; [|apply elem_of_seqZ; lia].
  apply list_elem_of_bind. exists n2. split; [|apply elem_of_seqZ; lia].
  apply list_elem_of_bind. exists n3. split; [|apply elem_of_seqZ; lia].
  apply list_elem_of_bind. exists missed. split;
    [|destruct missed; repeat (first [apply elem_of_cons; left; reflexivity
                                     |apply elem_of_cons; right])].
  apply list_elem_of_bind. exists stale. split;
    [|destruct stale; repeat (first [apply elem_of_cons; left; reflexivity
                                    |apply elem_of_cons; right])].
  apply list_elem_of_singleton. reflexivity.
Qed.

Lemma churn_table_monotone :
  forallb (fun xp => forallb (monotone_on xp) churn_table) churn_table = true.
Proof. vm_compute. reflexivity. Qed.

Lemma forallb_pairs {A} (f : A -> A -> bool) (l : list A) x y :
  forallb (fun x => forallb (f x) l) l = true -> x ∈ l -> y ∈ l -> f x y = true.
Proof.
  intros Hall Hx Hy. rewrite forallb_forall in Hall.
  specialize (Hall x (proj1 (list_elem_of_In _ _) Hx)).
  rewrite forallb_forall in Hall. apply Hall. now apply list_elem_of_In.
Qed.

Lemma churn_monotone_on_pair (x y : evidence) :
  x ∈ evidence_grid -> y ∈ evidence_grid -> evidence_le x y = true ->
  risk_le (churn_of x) (churn_of y) = true.
Proof.
  intros Hx Hy Hle.
  assert (Hx' : (x, churn_of x) ∈ churn_table)
    by (apply list_elem_of_fmap; exists x; split; [reflexivity|exact Hx]).
  assert (Hy' : (y, churn_of y) ∈ churn_table)
    by (apply list_elem_of_fmap; exists y; split; [reflexivity|exact Hy]).
  pose proof (forallb_pairs monotone_on churn_table _ _ churn_table_monotone Hx' Hy')
    as Hmono.
  unfold monotone_on in Hmono. cbn [fst snd] in Hmono. now rewrite Hle in Hmono.
Qed.

(** More evidence gives no less risk: the probability does not go down,
    nor does the label. *)
Lemma churn_probability_monotone n1 n2 n3 missed stale n1' n2' n3' missed' stale' :
  0 <= n1 <= n1' -> 0 <= n2 <= n2' -> 0 <= n3 <= n3' ->
  implb missed missed' = true -> implb stale stale' = true ->
  risk_le (churn_probability n1 n2 n3 missed stale)
          (churn_probability n1' n2' n3' missed' stale') = true.
Proof.
  intros H1 H2 H3 Hm Hs.
  rewrite (churn_probability_saturates n1), (churn_probability_saturates n1').
  apply (churn_monotone_on_pair (Z.min n1 6, Z.min n2 3, Z.min n3 3, missed, stale)
           (Z.min n1' 6, Z.min n2' 3, Z.min n3' 3, missed', stale')).
  - apply evidence_grid_elem; lia.
  - apply evidence_grid_elem; lia.
  - unfold evidence_le. rewrite Hm, Hs.
    rewrite !andb_true_r, !andb_true_iff, !Z.leb_le. lia.
Qed.

Lemma filter_submseteq {A} (P : A -> Prop) `{forall x, Decision (P x)} (l l' : list A) :
  l ⊆+ l' -> filter P l ⊆+ filter P l'.
Proof.
  induction 1 as [|x l1 l2 _ IH|x y l|x l1 l2 _ IH|l1 l2 l3 _ IH1 _ IH2].
  - constructor.
  - rewrite !filter_cons. destruct (decide (P x)); [now constructor|exact IH].
  - rewrite !filter_cons. destruct (decide (P x)), (decide (P y));
      first [apply submseteq_swap|reflexivity].
  - rewrite filter_cons. destruct (decide (P x)); [now constructor|exact IH].
  - now transitivity (filter P l2).
Qed.

Lemma count_submseteq {A} (P : A -> Prop) `{forall x, Decision (P x)} (l l' : list A) :
  l ⊆+ l' -> 0 <= count P l <= count P l'.
Proof.
  intros Hsub. unfold count.
  pose proof (submseteq_length _ _ (filter_submseteq P l l' Hsub)). lia.
Qed.

Lemma calculate_churn_risk_monotone utcnow client tickets tasks appointments
    tickets' tasks' appointments' :
  tickets ⊆+ tickets' -> tasks ⊆+ tasks' -> appointments ⊆+ appointments' ->
  let before := calculate_churn_risk utcnow client tickets tasks appointments in
  let after := calculate_churn_risk utcnow client tickets' tasks' appointments' in
  (before.1 <=? after.1)%float = true /\ label_rank before.2 <= label_rank after.2.
Proof.
  intros Ht Hk Ha. rewrite !calculate_churn_risk_unfold. cbv beta iota zeta. cbn [fst snd].
  match goal with
  | |- (?p <=? ?p')%float = true /\ _ => assert (Hrisk : risk_le p p' = true)
  end.
  { apply churn_probability_monotone.
    - now apply count_submseteq.
    - now apply count_submseteq.
    - now apply count_submseteq.
    - pose proof (count_submseteq (fun appt => Appointment.status appt = "cancelled")
                    _ _ Ha) as Hc.
      destruct (count _ appointments =? 0) eqn:H0; [reflexivity|].
      apply Z.eqb_neq in H0.
      destruct (count _ appointments' =? 0) eqn:H0'; [|reflexivity].
      apply Z.eqb_eq in H0'. lia.
    - now destruct (30 <? _). }
  unfold risk_le in Hrisk. apply andb_true_iff in Hrisk as [Hp Hl].
  apply Z.leb_le in Hl. now split.
Qed.

(** X11. The churn risk is monotone in the evidence. For one client at one
    instant, when tickets, tasks or appointments are added to the lists
    the scorer is given, the probability it returns does not decrease and
    the label does not go down ("low" before "medium" before "high"): the
    rounding of the float additions does not break the order. *)
Theorem churn_risk_monotone utcnow client tickets tasks appointments
    tickets' tasks' appointments' :
  tickets ⊆+ tickets' -> tasks ⊆+ tasks' -> appointments ⊆+ appointments' ->
  let '(p, label) := calculate_churn_risk utcnow client tickets tasks appointments in
  let '(p', label') := calculate_churn_risk utcnow client tickets' tasks' appointments' in
  (p <=? p')%float = true /\ label_rank label <= label_rank label'.
Proof.
  intros Ht Hk Ha.
  pose proof (calculate_churn_risk_monotone utcnow client _ _ _ _ _ _ Ht Hk Ha) as Hmono.
  cbv zeta in Hmono.
  destruct (calculate_churn_risk utcnow client tickets tasks appointments) as [p label].
  destruct (calculate_churn_risk utcnow client tickets' tasks' appointments') as [p' label'].
  exact Hmono.
Qed.

(** X12. The baseline. A client with no open ticket, no overdue task and
    no cancelled appointment, touched within the last 30 days, is scored
    exactly 0.05, "low". *)
Theorem churn_baseline utcnow client tickets tasks appointments :
  Forall (fun ticket => Ticket.status ticket <> "open") tickets ->
  Forall (fun task => ~ overdue (date_of utcnow) task) tasks ->
  Forall (fun appt => Appointment.status appt <> "cancelled") appointments ->
  timedelta_days (utcnow - Client.updated_at client) <= 30 ->
  calculate_churn_risk utcnow client tickets tasks appointments = (0.05%float, "low").
Proof.
  intros Ht Hk Ha Hd. rewrite calculate_churn_risk_unfold. cbv zeta.
  assert (Hnone : forall {A} (P : A -> Prop) `{forall x, Decision (P x)} (l : list A),
             Forall (fun x => ~ P x) l -> count P l = 0).
  { intros A P HP l Hl. unfold count. induction Hl as [|x l Hx _ IH]; [reflexivity|].
    now rewrite filter_cons_False. }
  rewrite (Hnone _ (fun ticket => Ticket.status ticket = "open")) by exact Ht.
  rewrite (Hnone _ (fun ticket => Ticket.status ticket = "open" /\ _)).
  2:{ eapply Forall_impl; [exact Ht|]. cbn. tauto. }
  rewrite (Hnone _ (overdue (date_of utcnow))) by exact Hk.
  rewrite (Hnone _ (fun appt => Appointment.status appt = "cancelled")) by exact Ha.
  apply Z.ltb_ge in Hd. rewrite Hd. vm_compute. reflexivity.
Qed.


(** A write to a dict changes the sum of a measure of its values by the
    difference between the new value and the old one. *)
Lemma dict_set_sum {V} (g : V -> Z) k v (d : dict V) :
  foldr Z.add 0 ((fun item => g item.2) <$> dict_set k v d) =
  foldr Z.add 0 ((fun item => g item.2) <$> d) + g v -
  match dict_get k d with Some v0 => g v0 | None => 0 end.
Proof.
  induction d as [|[k' v'] d IH]; cbn [dict_set dict_get fmap list_fmap foldr snd].
  - lia.
  - destruct (String.eqb k k'); cbn [fmap list_fmap foldr snd]; [lia|].
    rewrite IH. lia.
Qed.

Lemma add_task_totals w task :
  total_open_tasks (add_task w task) =
    total_open_tasks w + (if decide (counted_task task) then 1 else 0) /\
  total_scheduled_minutes (add_task w task) = total_scheduled_minutes w.
Proof.
  unfold add_task, total_open_tasks, total_scheduled_minutes.
  destruct (or_None (Task.assigned_to task)) as [e|] eqn:Hor.
  - destruct (decide (Task.status task <> "completed")) as [Hst|Hst].
    + rewrite decide_True by (unfold counted_task, unassigned; split; [congruence|exact Hst]).
      unfold bump. rewrite !dict_set_sum.
      destruct (dict_get e w) as [w0|]; cbn; lia.
    + rewrite decide_False by (unfold counted_task; tauto). lia.
  - rewrite decide_False by (unfold counted_task, unassigned; tauto). lia.
Qed.

Lemma add_appointment_totals w a :
  total_open_tasks (add_appointment w a) = total_open_tasks w /\
  total_scheduled_minutes (add_appointment w a) =
    total_scheduled_minutes w +
    (if decide (counted_appointment a) then Appointment.duration_minutes a else 0).
Proof.
  unfold add_appointment, total_open_tasks, total_scheduled_minutes.
  destruct (or_None (Appointment.assigned_to a)) as [e|] eqn:Hor.
  - destruct (decide (Appointment.status a = "scheduled")) as [Hst|Hst].
    + rewrite decide_True
        by (unfold counted_appointment, unassigned; split; [congruence|exact Hst]).
      unfold bump. rewrite !dict_set_sum.
      destruct (dict_get e w) as [w0|]; cbn; lia.
    + rewrite decide_False by (unfold counted_appointment; tauto). lia.
  - rewrite decide_False by (unfold counted_appointment, unassigned; tauto). lia.
Qed.

(** X13. The engineer load loses and invents no work. Summed over the
    engineers of the result, [open_tasks] is the number of tasks that have
    an engineer and are not completed, and [scheduled_minutes] is the
    total duration of the scheduled appointments that have an engineer:
    each such task and appointment is counted once, for one engineer. *)
Theorem engineer_load_conserves tasks appointments :
  let result := calculate_engineer_load tasks appointments in
  foldr Z.add 0 (forecast_open_tasks <$> result) = count counted_task tasks /\
  foldr Z.add 0 (forecast_scheduled_minutes <$> result) =
    foldr Z.add 0 (Appointment.duration_minutes <$> filter counted_appointment appointments).
Proof.
  cbv zeta. unfold calculate_engineer_load.
  assert (Htasks : forall w,
             total_open_tasks (foldl add_task w tasks) =
               total_open_tasks w + count counted_task tasks /\
             total_scheduled_minutes (foldl add_task w tasks) = total_scheduled_minutes w).
  { induction tasks as [|task tasks IH]; intros w; cbn [foldl].
    - unfold count. cbn. split; [lia|reflexivity].
    - destruct (IH (add_task w task)) as [-> ->].
      destruct (add_task_totals w task) as [-> ->]. rewrite count_cons. split; [lia|reflexivity]. }
  assert (Happ : forall w,
             total_open_tasks (foldl add_appointment w appointments) = total_open_tasks w /\
             total_scheduled_minutes (foldl add_appointment w appointments) =
               total_scheduled_minutes w +
               foldr Z.add 0 (Appointment.duration_minutes <$>
                              filter counted_appointment appointments)).
  { induction appointments as [|a appointments IH]; intros w; cbn [foldl].
    - cbn. split; [reflexivity|lia].
    - destruct (IH (add_appointment w a)) as [-> ->].
      destruct (add_appointment_totals w a) as [-> ->]. rewrite filter_cons.
      destruct (decide (counted_appointment a)); cbn [fmap list_fmap foldr];
        split; first [reflexivity|lia]. }
  set (workload := foldl add_appointment (foldl add_task [] tasks) appointments).
  assert (Hsum : foldr Z.add 0 (forecast_open_tasks <$> (forecast <$> workload)) =
                   total_open_tasks workload /\
                 foldr Z.add 0 (forecast_scheduled_minutes <$> (forecast <$> workload)) =
                   total_scheduled_minutes workload).
  { unfold total_open_tasks, total_scheduled_minutes.
    induction workload as [|[e data] workload [IH1 IH2]]; [done|].
    cbn [fmap list_fmap foldr forecast forecast_open_tasks forecast_scheduled_minutes snd].
    cbn [fmap] in IH1, IH2. now rewrite IH1, IH2. }
  destruct Hsum as [-> ->]. unfold workload.
  destruct (Happ (foldl add_task [] tasks)) as [-> ->].
  destruct (Htasks []) as [-> ->].
  unfold total_open_tasks, total_scheduled_minutes. cbn. split; lia.
Qed.

End ScoringMore.
(** ** The sanitisers *)

Section SanitiseFacts.
Import Sanitise.

(** X14. [sanitise_theme] answers "light" or "dark" and nothing else, and
    it leaves its own answers as they are. It answers "dark" for every
    string that lowercases to "dark", and "light" for every other string
    of ASCII characters, for the empty string and for [None]. *)
Theorem sanitise_theme_spec (value : option string) :
  let theme := sanitise_theme value in
  (theme = "light" \/ theme = "dark") /\
  sanitise_theme (Some theme) = theme /\
  (forall v, value = Some v -> lower v = "dark" -> theme = "dark") /\
  (forall v, value = Some v -> is_ascii v -> lower v <> "dark" -> theme = "light") /\
  (or_None value = None -> theme = "light").
Proof.
  cbv zeta. unfold sanitise_theme.
  destruct (or_None value) as [v|] eqn:Hor.
  - apply or_None_Some in Hor as [-> Hne].
    destruct (bool_decide (lower v ∈ ["light"; "dark"])) eqn:Hin.
    + apply bool_decide_eq_true in Hin.
      apply elem_of_cons in Hin as [Hl|Hin];
        [|apply elem_of_cons in Hin as [Hd|Hin]; [|now apply elem_of_nil in Hin]].
      * rewrite Hl. split; [now left|]. split; [reflexivity|].
        split; [intros v' [= <-] Hd; congruence|].
        split; [reflexivity|discriminate].
      * rewrite Hd. split; [now right|]. split; [reflexivity|].
        split; [reflexivity|]. split; [|discriminate].
        intros v' [= <-] _ Hnd. congruence.
    + apply bool_decide_eq_false in Hin. split; [now left|]. split; [reflexivity|].
      split; [|split; [reflexivity|discriminate]].
      intros v' [= <-] Hd. exfalso. apply Hin.
      rewrite Hd. apply elem_of_cons. right. apply elem_of_cons. now left.
  - split; [now left|]. split; [reflexivity|].
    split; [|split; reflexivity].
    intros v -> Hd. destruct v as [|c v]; [discriminate Hd|discriminate Hor].
Qed.

(** X15. [sanitise_appointment_status] lets through only the three
    statuses of the model. It answers a status of
    [ALLOWED_APPOINTMENT_STATUSES], which it then leaves as it is, or it
    aborts with 400, and no exception escapes it; an absent or empty
    value gives "scheduled"; and it aborts exactly on a non-empty string
    whose lowercase form is not one of the three. *)
Theorem sanitise_appointment_status_spec (value : option string) :
  match sanitise_appointment_status value with
  | Return status =>
      status ∈ ALLOWED_APPOINTMENT_STATUSES /\
      sanitise_appointment_status (Some status) = Return status /\
      match or_None value with
      | Some v => status = lower v
      | None => status = "scheduled"
      end
  | Abort code =>
      code = 400 /\
      exists v, value = Some v /\ v <> "" /\ lower v ∉ ALLOWED_APPOINTMENT_STATUSES
  | Uncaught _ => False
  end.
Proof.
  unfold sanitise_appointment_status.
  destruct (or_None value) as [v|] eqn:Hor.
  - apply or_None_Some in Hor as [-> Hne]. cbv zeta.
    destruct (bool_decide (lower v ∈ ALLOWED_APPOINTMENT_STATUSES)) eqn:Hin.
    + apply bool_decide_eq_true in Hin. split; [exact Hin|]. split; [|reflexivity].
      unfold ALLOWED_APPOINTMENT_STATUSES in Hin.
      repeat (apply elem_of_cons in Hin as [->|Hin]; [reflexivity|]).
      now apply elem_of_nil in Hin.
    + apply bool_decide_eq_false in Hin. split; [reflexivity|]. eauto.
  - split; [|split; reflexivity].
    apply elem_of_cons. now left.
Qed.

End SanitiseFacts.
(** ** The appointment routes *)

Section AppointmentFacts.
Import Sanitise Appointments.
Context `{Builtins} `{Zones}.

Lemma sanitise_appointment_status_Return value status :
  sanitise_appointment_status value = Return status ->
  status ∈ ALLOWED_APPOINTMENT_STATUSES /\
  (or_None value = None -> status = "scheduled").
Proof.
  unfold sanitise_appointment_status.
  destruct (or_None value) as [v|].
  - cbv zeta. destruct (bool_decide (lower v ∈ ALLOWED_APPOINTMENT_STATUSES)) eqn:Hin;
      [|discriminate].
    intros [= <-]. apply bool_decide_eq_true in Hin. split; [exact Hin|discriminate].
  - intros [= <-]. split; [apply elem_of_cons; now left|reflexivity].
Qed.

Lemma sanitise_appointment_status_outcome value :
  (exists status, sanitise_appointment_status value = Return status) \/
  sanitise_appointment_status value = Abort 400.
Proof.
  unfold sanitise_appointment_status. destruct (or_None value) as [v|]; [|eauto].
  cbv zeta. destruct (bool_decide _); eauto.
Qed.

Lemma parse_iso_datetime_outcome value :
  (exists dt, parse_iso_datetime value = Return dt) \/ parse_iso_datetime value = Abort 400.
Proof. unfold parse_iso_datetime. destruct (fromisoformat value); eauto. Qed.

Lemma py_int_400_outcome raw :
  (exists n, py_int raw = Return n /\
             except_TypeError_ValueError_400 (py_int raw) = Return n) \/
  except_TypeError_ValueError_400 (py_int raw) = Abort 400.
Proof.
  destruct raw as [|b|n|s]; cbn; eauto. destruct (int_of_str s); cbn; eauto.
Qed.

(** X16. What [create_client_appointment] stores. When the route answers,
    it has appended one appointment, under a fresh key, for the client of
    the URL, who exists; the duration of that appointment is the integer
    value of [duration_minutes] (60 when the member is absent) and is
    positive; its status is one of "scheduled", "completed" and
    "cancelled" ("scheduled" when the member is absent, null or empty);
    and the route changes nothing else. *)
Theorem create_client_appointment_stores db client_id request db' a :
  create_client_appointment db client_id request = Return (db', a) ->
  well_formed a /\
  db' = with_appointments db (appointments db ++ [a]) /\
  (Appointment.id a ∉ Appointment.id <$> appointments db) /\
  Appointment.client_id a = client_id /\
  client_id ∈ Client.id <$> clients db /\
  py_int (default (JInt 60) (body request !! "duration_minutes"))
    = Return (Appointment.duration_minutes a) /\
  (or_None (mjoin (status request)) = None -> Appointment.status a = "scheduled") /\
  Appointment.assigned_to a = mjoin (assigned_to request).
Proof.
  unfold create_client_appointment, Ingest.get_or_404.
  destruct (find _ (clients db)) as [client|] eqn:Hclient; cbn [mbind outcome_bind];
    [|destruct (is_INTEGER client_id); discriminate].
  destruct (body request !! "start_time") as [raw_start|]; [|discriminate].
  destruct (parse_iso_datetime (py_str raw_start)) as [start| |];
    cbn [mbind outcome_bind]; try discriminate.
  destruct (py_int_400_outcome (default (JInt 60) (body request !! "duration_minutes")))
    as [(d & Hd & ->)| ->]; cbn [mbind outcome_bind]; [|discriminate].
  destruct (d <=? 0) eqn:Hpos; [discriminate|]. apply Z.leb_gt in Hpos.
  destruct (sanitise_appointment_status (mjoin (status request))) as [st| |] eqn:Hst;
    cbn [mbind outcome_bind]; try discriminate.
  intros [= <- <-]. apply sanitise_appointment_status_Return in Hst as [Hin Hdef].
  apply find_Some_holds in Hclient as [Hid Hclient]. apply bool_decide_eq_true in Hid.
  split; [split; [exact Hpos|exact Hin]|]. split; [reflexivity|].
  split; [apply next_id_not_in|]. split; [reflexivity|].
  split; [apply list_elem_of_fmap; exists client; now split|].
  split; [exact Hd|]. split; [exact Hdef|reflexivity].
Qed.

(** X17. What [create_client_appointment] rejects. The route answers 404
    exactly when the key of the URL is an integer of the INTEGER range and
    the key of no client; beyond that range [OverflowError] escapes it;
    and it rejects a request otherwise with status 400 only. For an
    existing client a request without [start_time] is answered 400. A
    request whose duration converts to an integer that is not positive
    stores nothing, and for an existing client and a start time without
    UTC offset it is answered 400. *)
Theorem create_client_appointment_rejects db client_id request :
  let result := create_client_appointment db client_id request in
  (result = Abort 404 <->
     (client_id ∉ Client.id <$> clients db) /\ is_INTEGER client_id = true) /\
  ((client_id ∉ Client.id <$> clients db) -> is_INTEGER client_id = false ->
   result = Uncaught OverflowError) /\
  (forall code, result = Abort code -> code = 400 \/ code = 404) /\
  (client_id ∈ Client.id <$> clients db ->
   body request !! "start_time" = None -> result = Abort 400) /\
  (forall d,
     py_int (default (JInt 60) (body request !! "duration_minutes")) = Return d ->
     d <= 0 -> forall stored, result <> Return stored) /\
  (client_id ∈ Client.id <$> clients db ->
   forall raw_start d,
     body request !! "start_time" = Some raw_start ->
     utcoffset (py_str raw_start) = None ->
     py_int (default (JInt 60) (body request !! "duration_minutes")) = Return d ->
     d <= 0 -> result = Abort 400).
Proof.
  cbv zeta. unfold create_client_appointment, Ingest.get_or_404.
  destruct (find _ (clients db)) as [client|] eqn:Hclient; cbn [mbind outcome_bind].
  2:{ apply find_client_None in Hclient. destruct (is_INTEGER client_id) eqn:Hrange.
      - split; [tauto|]. split; [discriminate|]. split; [intros code [= <-]; now right|].
        split; [contradiction|]. split; [discriminate|contradiction].
      - split; [split; [discriminate|]; intros [_ ?]; discriminate|].
        split; [reflexivity|]. split; [discriminate|].
        split; [contradiction|]. split; [discriminate|contradiction]. }
  assert (Hknown : ~ (client_id ∉ Client.id <$> clients db)).
  { intros Hnot. apply find_client_None in Hnot. congruence. }
  destruct (body request !! "start_time") as [raw_start|].
  2:{ split; [split; [discriminate|tauto]|]. split; [contradiction|].
      split; [intros code [= <-]; now left|]. split; [reflexivity|].
      split; discriminate. }
  destruct (parse_iso_datetime_outcome (py_str raw_start)) as [[start ->]| ->];
    cbn [mbind outcome_bind].
  2:{ split; [split; [discriminate|tauto]|]. split; [contradiction|].
      split; [intros code [= <-]; now left|]. split; [discriminate|].
      split; [discriminate|reflexivity]. }
  destruct (py_int_400_outcome (default (JInt 60) (body request !! "duration_minutes")))
    as [(d & Hd & ->)| ->]; cbn [mbind outcome_bind].
  2:{ split; [split; [discriminate|tauto]|]. split; [contradiction|].
      split; [intros code [= <-]; now left|]. split; [discriminate|].
      split; [discriminate|reflexivity]. }
  destruct (d <=? 0) eqn:Hpos.
  { split; [split; [discriminate|tauto]|]. split; [contradiction|].
    split; [intros code [= <-]; now left|]. split; [discriminate|].
    split; [discriminate|reflexivity]. }
  apply Z.leb_gt in Hpos.
  assert (Hd' : forall d', Return d = Return d' -> d' <= 0 -> False)
    by (intros d' [= <-]; lia).
  rewrite Hd.
  destruct (sanitise_appointment_status_outcome (mjoin (status request))) as [[st ->]| ->];
    cbn [mbind outcome_bind].
  - split; [split; [discriminate|tauto]|]. split; [contradiction|].
    split; [discriminate|]. split; [discriminate|].
    split; [intros d' Hd'' Hle; exfalso; eauto|].
    intros _ raw d' _ _ Hd'' Hle. exfalso. eauto.
  - split; [split; [discriminate|tauto]|]. split; [contradiction|].
    split; [intros code [= <-]; now left|]. split; [discriminate|].
    split; [discriminate|reflexivity].
Qed.

Lemma Forall_alter_first {A} (Q : A -> Prop) (P : A -> bool) f (rows : list A) :
  Forall Q rows -> (forall x, x ∈ rows -> Q (f x)) -> Forall Q (Ingest.alter_first P f rows).
Proof.
  intros Hall Hf. induction rows as [|x rows IH]; cbn [Ingest.alter_first]; [constructor|].
  apply Forall_cons in Hall as [Hx Hall]. destruct (P x).
  - constructor; [apply Hf; apply elem_of_cons; now left|exact Hall].
  - constructor; [exact Hx|]. apply IH; [exact Hall|].
    intros y Hy. apply Hf. apply elem_of_cons. now right.
Qed.

(** X18. What [update_appointment] changes. When the route answers, it has
    rewritten the one appointment of the URL, which keeps its key and its
    client; the duration is the old one or, when [duration_minutes] is
    given, its integer value, which is positive; the status is the old one
    or, when [status] is given, a sanitised one - "scheduled" for null; a
    falsy [start_time] leaves the start as it is; and if every appointment
    was well formed (positive duration, known status) before, every
    appointment is so afterwards. *)
Theorem update_appointment_changes db appointment_id request db' a :
  update_appointment db appointment_id request = Return (db', a) ->
  exists old,
    find (has_id appointment_id) (appointments db) = Some old /\
    db' = with_appointments db
            (Ingest.alter_first (has_id appointment_id) (fun _ => a) (appointments db)) /\
    Appointment.id a = Appointment.id old /\
    Appointment.client_id a = Appointment.client_id old /\
    match body request !! "duration_minutes" with
    | Some raw =>
        py_int raw = Return (Appointment.duration_minutes a) /\
        0 < Appointment.duration_minutes a
    | None => Appointment.duration_minutes a = Appointment.duration_minutes old
    end /\
    match status request with
    | Some v =>
        Appointment.status a ∈ ALLOWED_APPOINTMENT_STATUSES /\
        (or_None v = None -> Appointment.status a = "scheduled")
    | None => Appointment.status a = Appointment.status old
    end /\
    (forall raw, body request !! "start_time" = Some raw -> truthy raw = false ->
                 Appointment.start_time a = Appointment.start_time old) /\
    (body request !! "start_time" = None ->
     Appointment.start_time a = Appointment.start_time old) /\
    (Forall well_formed (appointments db) -> Forall well_formed (appointments db')).
Proof.
  unfold update_appointment.
  destruct (find (has_id appointment_id) (appointments db)) as [old|] eqn:Hfind;
    [|destruct (is_INTEGER appointment_id); discriminate].
  cbv zeta.
  set (a1 := match assigned_to request with
             | Some v => set_assigned_to v old
             | None => old
             end).
  assert (H1 : Appointment.id a1 = Appointment.id old /\
               Appointment.client_id a1 = Appointment.client_id old /\
               Appointment.duration_minutes a1 = Appointment.duration_minutes old /\
               Appointment.status a1 = Appointment.status old /\
               Appointment.start_time a1 = Appointment.start_time old)
    by (unfold a1; destruct (assigned_to request); done).
  clearbody a1. destruct H1 as (Hid1 & Hc1 & Hd1 & Hs1 & Ht1).
  intros Hrun.
  assert (exists a2,
             match status request with
             | Some v =>
                 exists st, sanitise_appointment_status v = Return st /\ a2 = set_status st a1
             | None => a2 = a1
             end /\
             (a3 ← match body request !! "start_time" with
                   | Some raw_start =>
                       if truthy raw_start
                       then start_time ← parse_iso_datetime (py_str raw_start);
                            Return (set_start_time start_time a2)
                       else Return a2
                   | None => Return a2
                   end;
              a4 ← match body request !! "duration_minutes" with
                   | Some JNull => Abort 400
                   | Some raw_duration =>
                       duration ← except_TypeError_ValueError_400 (py_int raw_duration);
                       if duration <=? 0 then Abort 400
                       else Return (set_duration_minutes duration a3)
                   | None => Return a3
                   end;
              Return (with_appointments db
                        (Ingest.alter_first (has_id appointment_id) (fun _ => a4)
                                            (appointments db)), a4))
             = Return (db', a)) as (a2 & H2 & Hrun2).
  { destruct (status request) as [v|].
    - destruct (sanitise_appointment_status v) as [st| |] eqn:Hst;
        cbn [mbind outcome_bind] in Hrun; try discriminate.
      exists (set_status st a1). split; [eauto|exact Hrun].
    - exists a1. split; [reflexivity|exact Hrun]. }
  clear Hrun.
  assert (exists a3,
             (a3 = a2 \/ exists raw t, body request !! "start_time" = Some raw /\
                                       truthy raw = true /\ a3 = set_start_time t a2) /\
             (a4 ← match body request !! "duration_minutes" with
                   | Some JNull => Abort 400
                   | Some raw_duration =>
                       duration ← except_TypeError_ValueError_400 (py_int raw_duration);
                       if duration <=? 0 then Abort 400
                       else Return (set_duration_minutes duration a3)
                   | None => Return a3
                   end;
              Return (with_appointments db
                        (Ingest.alter_first (has_id appointment_id) (fun _ => a4)
                                            (appointments db)), a4))
             = Return (db', a)) as (a3 & H3 & Hrun3).
  { destruct (body request !! "start_time") as [raw|].
    - destruct (truthy raw) eqn:Htr.
      + destruct (parse_iso_datetime (py_str raw)) as [t| |];
          cbn [mbind outcome_bind] in Hrun2; try discriminate.
        exists (set_start_time t a2). split; [right; eauto|exact Hrun2].
      + exists a2. split; [now left|exact Hrun2].
    - exists a2. split; [now left|exact Hrun2]. }
  clear Hrun2.
  assert (H4 : match body request !! "duration_minutes" with
               | Some raw =>
                   exists d, py_int raw = Return d /\ 0 < d /\
                             a = set_duration_minutes d a3
               | None => a = a3
               end /\
               db' = with_appointments db
                       (Ingest.alter_first (has_id appointment_id) (fun _ => a)
                                           (appointments db))).
  { destruct (body request !! "duration_minutes") as [raw|].
    - destruct (py_int_400_outcome raw) as [(d & Hd & Hexc)|Hexc].
      + destruct raw as [|b|n|s]; [discriminate Hd|..];
          rewrite Hexc in Hrun3; cbn [mbind outcome_bind] in Hrun3;
          (destruct (d <=? 0) eqn:Hpos; [discriminate|]); apply Z.leb_gt in Hpos;
          injection Hrun3 as <- <-; (split; [|reflexivity]); exists d; done.
      + destruct raw as [|b|n|s]; try discriminate Hrun3;
          rewrite Hexc in Hrun3; discriminate.
    - injection Hrun3 as <- <-. done. }
  clear Hrun3. destruct H4 as [H4 ->].
  exists old. split; [reflexivity|]. split; [reflexivity|].
  assert (Hc2 : Appointment.id a2 = Appointment.id old /\
                Appointment.client_id a2 = Appointment.client_id old /\
                Appointment.duration_minutes a2 = Appointment.duration_minutes old /\
                Appointment.start_time a2 = Appointment.start_time old).
  { destruct (status request) as [v|]; [destruct H2 as (st & _ & ->)|subst a2]; done. }
  destruct Hc2 as (Hid2 & Hcl2 & Hd2 & Ht2).
  assert (Hc3 : Appointment.id a3 = Appointment.id old /\
                Appointment.client_id a3 = Appointment.client_id old /\
                Appointment.duration_minutes a3 = Appointment.duration_minutes old /\
                Appointment.status a3 = Appointment.status a2).
  { destruct H3 as [->|(raw & t & _ & _ & ->)]; done. }
  destruct Hc3 as (Hid3 & Hcl3 & Hd3 & Hs3).
  assert (Hc4 : Appointment.id a = Appointment.id old /\
                Appointment.client_id a = Appointment.client_id old /\
                Appointment.status a = Appointment.status a2 /\
                Appointment.start_time a = Appointment.start_time a3).
  { destruct (body request !! "duration_minutes") as [raw|];
      [destruct H4 as (d & _ & _ & ->)|subst a]; done. }
  destruct Hc4 as (Hid4 & Hcl4 & Hs4 & Ht4).
  assert (Hdur : match body request !! "duration_minutes" with
                 | Some raw =>
                     py_int raw = Return (Appointment.duration_minutes a) /\
                     0 < Appointment.duration_minutes a
                 | None => Appointment.duration_minutes a = Appointment.duration_minutes old
                 end).
  { destruct (body request !! "duration_minutes") as [raw|].
    - destruct H4 as (d & Hd & Hpos & ->). done.
    - subst a. exact Hd3. }
  assert (Hstat : match status request with
                  | Some v =>
                      Appointment.status a ∈ ALLOWED_APPOINTMENT_STATUSES /\
                      (or_None v = None -> Appointment.status a = "scheduled")
                  | None => Appointment.status a = Appointment.status old
                  end).
  { rewrite Hs4. destruct (status request) as [v|].
    - destruct H2 as (st & Hst & ->). cbn.
      now apply sanitise_appointment_status_Return in Hst.
    - subst a2. exact Hs1. }
  split; [exact Hid4|]. split; [exact Hcl4|]. split; [exact Hdur|]. split; [exact Hstat|].
  split; [|split].
  - intros raw Hraw Hfalsy. rewrite Ht4.
    destruct H3 as [->|(raw' & t & Hraw' & Htr & _)]; [exact Ht2|congruence].
  - intros Hnone. rewrite Ht4.
    destruct H3 as [->|(raw' & t & Hraw' & _)]; [exact Ht2|congruence].
  - intros Hall. cbn [appointments with_appointments].
    apply Forall_alter_first; [exact Hall|]. intros x Hx.
    apply find_Some_holds in Hfind as [_ Hold].
    rewrite Forall_forall in Hall. destruct (Hall old Hold) as [Hpos Hin]. split.
    + destruct (body request !! "duration_minutes"); [tauto|]. now rewrite Hdur.
    + destruct (status request); [tauto|]. now rewrite Hstat.
Qed.

End AppointmentFacts.
(** ** The analytics route *)

Section AnalyticsFacts.
Import Scoring Analytics.

Lemma step_prediction clock db st client :
  step clock db st client =
  {| turn := S (turn st);
     churn_predictions :=
       churn_predictions st ++ [prediction (clock (turn st)) db client];
     high_risk :=
       high_risk st +
       (if decide (churn_level (prediction (clock (turn st)) db client) = "high")
        then 1 else 0) |}.
Proof.
  unfold step, prediction. cbn [churn_level].
  destruct (calculate_churn_risk _ _ _ _ _) as [probability label]. cbn [fst snd].
  destruct (String.eqb_spec label "high") as [->|Hne].
  - rewrite decide_True by reflexivity. reflexivity.
  - rewrite decide_False by exact Hne. rewrite Z.add_0_r.
    destruct (String.eqb label "medium"); reflexivity.
Qed.

(** The loop appends one prediction per client, in order, and counts those
    at level "high". *)
Lemma loop_predictions clock db (todo : list Client.t) : forall st,
  let final := foldl (step clock db) st todo in
  turn final = (turn st + length todo)%nat /\
  exists new,
    churn_predictions final = (churn_predictions st ++ new)%list /\
    Forall2 (fun client p => exists utcnow, p = prediction utcnow db client) todo new /\
    high_risk final = high_risk st + count (fun p => churn_level p = "high") new.
Proof.
  induction todo as [|client todo IH]; intros st; cbn [foldl length].
  - split; [lia|]. exists []. rewrite app_nil_r. split; [reflexivity|].
    split; [constructor|]. unfold count. cbn. lia.
  - rewrite step_prediction.
    match goal with
    | |- context [foldl _ ?st1 todo] =>
        destruct (IH st1) as (Hturn & new & Hnew & Hall & Hcount)
    end.
    cbn [turn churn_predictions high_risk] in Hturn, Hnew, Hcount.
    split; [rewrite Hturn; lia|].
    exists (prediction (clock (turn st)) db client :: new).
    split; [rewrite Hnew, <- app_assoc; reflexivity|].
    split; [constructor; [eauto|exact Hall]|].
    rewrite Hcount, count_cons. lia.
Qed.

Lemma insert_by_name_Permutation c (sorted : list Client.t) :
  insert_by_name c sorted ≡ₚ c :: sorted.
Proof.
  induction sorted as [|b sorted IH]; cbn [insert_by_name]; [reflexivity|].
  destruct (String.ltb (Client.name b) (Client.name c)); [|reflexivity].
  rewrite IH. apply Permutation_swap.
Qed.

Lemma order_by_name_Permutation (rows : list Client.t) : order_by_name rows ≡ₚ rows.
Proof.
  unfold order_by_name. induction rows as [|c rows IH]; cbn [foldr]; [reflexivity|].
  rewrite insert_by_name_Permutation. now constructor.
Qed.

Lemma churn_level_cases utcnow client tickets tasks appointments :
  (calculate_churn_risk utcnow client tickets tasks appointments).2 ∈
  ["high"; "medium"; "low"].
Proof.
  rewrite calculate_churn_risk_unfold. cbv zeta. cbn [snd]. unfold churn_label.
  destruct (0.6 <=? _)%float; [apply elem_of_cons; now left|].
  destruct (0.35 <=? _)%float;
    repeat (first [apply elem_of_cons; left; reflexivity|apply elem_of_cons; right]).
Qed.

(** X19. The summary of the analytics route agrees with its list. The
    route reports one prediction per client of the database, each client
    once; [total_clients] is their number; [high_risk_clients] is the
    number of predictions whose level is "high"; every level is "high",
    "medium" or "low", and the recommendation is the one that goes with
    the level; and the engineer load is that of all tasks and all
    appointments. *)
Theorem analytics_summary_agrees clock db :
  let r := analytics_forecasts clock db in
  total_clients r = Z.of_nat (length (client_churn r)) /\
  length (client_churn r) = length (clients db) /\
  client_id <$> client_churn r ≡ₚ Client.id <$> clients db /\
  high_risk_clients r = count (fun p => churn_level p = "high") (client_churn r) /\
  (forall p, p ∈ client_churn r ->
     churn_level p ∈ ["high"; "medium"; "low"] /\
     (churn_level p = "high" ->
      recommendation p = "Escalate to account manager for recovery plan") /\
     (churn_level p = "medium" ->
      recommendation p = "Schedule proactive review within two weeks") /\
     (churn_level p = "low" -> recommendation p = "Maintain regular check-ins")) /\
  engineer_load r = calculate_engineer_load (tasks db) (appointments db).
Proof.
  cbv zeta. unfold analytics_forecasts.
  cbn [client_churn total_clients high_risk_clients engineer_load].
  destruct (loop_predictions clock db (order_by_name (clients db))
              {| turn := 0; churn_predictions := []; high_risk := 0 |})
    as (_ & new & Hnew & Hall & Hcount).
  cbn [churn_predictions high_risk app] in Hnew, Hcount. rewrite Hnew, Hcount.
  pose proof (Forall2_length _ _ _ Hall) as Hlen.
  pose proof (order_by_name_Permutation (clients db)) as Hperm.
  split; [now rewrite <- Hlen|].
  split; [now rewrite <- Hlen, Hperm|].
  split.
  { rewrite <- Hperm. clear -Hall.
    induction Hall as [|c p todo new [utcnow ->] _ IH]; [reflexivity|].
    cbn [fmap list_fmap prediction client_id]. now rewrite IH. }
  split; [lia|]. split; [|reflexivity].
  intros p Hp.
  assert (exists utcnow client, p = prediction utcnow db client) as (utcnow & client & ->).
  { clear -Hall Hp. induction Hall as [|c q todo new [utcnow Hq] _ IH].
    - now apply elem_of_nil in Hp.
    - apply elem_of_cons in Hp as [->|Hp]; [eauto|now apply IH]. }
  unfold prediction. cbn [churn_level recommendation].
  split; [apply churn_level_cases|].
  split; [intros ->; reflexivity|]. split; intros ->; reflexivity.
Qed.

Lemma reported_check_table :
  forallb (fun xp => reported_check xp.2) churn_table = true.
Proof. vm_compute. reflexivity. Qed.

Lemma reported_check_holds n1 n2 n3 missed stale :
  0 <= n1 -> 0 <= n2 -> 0 <= n3 ->
  reported_check (Scoring.churn_probability n1 n2 n3 missed stale) = true.
Proof.
  intros H1 H2 H3. rewrite churn_probability_saturates.
  pose proof reported_check_table as Htable. rewrite forallb_forall in Htable.
  set (x := (Z.min n1 6, Z.min n2 3, Z.min n3 3, missed, stale)).
  apply (Htable (x, churn_of x)).
  apply list_elem_of_In, list_elem_of_fmap. exists x. split; [reflexivity|].
  apply evidence_grid_elem; lia.
Qed.

(** X20. The probability the analytics route reports agrees with the
    level. Rounding to two decimals never carries a probability across a
    threshold: for every prediction, the reported probability lies between
    0.05 and 0.95, the level is "high" exactly when the reported
    probability is at least 0.6, and "low" exactly when it is below
    0.35. *)
Theorem analytics_reported_probability clock db p :
  p ∈ client_churn (analytics_forecasts clock db) ->
  let reported := Analytics.churn_probability p in
  (0.05 <=? reported)%float = true /\
  (reported <=? 0.95)%float = true /\
  (churn_level p = "high" <-> (0.6 <=? reported)%float = true) /\
  (churn_level p = "low" <-> (0.35 <=? reported)%float = false) /\
  (churn_level p = "medium" <->
     (0.35 <=? reported)%float = true /\ (0.6 <=? reported)%float = false).
Proof.
  unfold analytics_forecasts. cbn [client_churn].
  destruct (loop_predictions clock db (order_by_name (clients db))
              {| turn := 0; churn_predictions := []; high_risk := 0 |})
    as (_ & new & Hnew & Hall & _).
  cbn [churn_predictions app] in Hnew. rewrite Hnew. intros Hp. cbv zeta.
  assert (exists utcnow client, p = prediction utcnow db client) as (utcnow & client & ->).
  { clear -Hall Hp. induction Hall as [|c q todo new [utcnow Hq] _ IH].
    - now apply elem_of_nil in Hp.
    - apply elem_of_cons in Hp as [->|Hp]; [eauto|now apply IH]. }
  unfold prediction. cbn [Analytics.churn_probability churn_level].
  rewrite calculate_churn_risk_unfold. cbv zeta. cbn [fst snd].
  set (probability := Scoring.churn_probability _ _ _ _ _).
  assert (Hcheck : reported_check probability = true)
    by (apply reported_check_holds; apply count_nonneg).
  unfold reported_check in Hcheck. cbv zeta in Hcheck.
  apply andb_prop in Hcheck as [Hcheck Himp]. apply andb_prop in Hcheck as [Hcheck H35].
  apply andb_prop in Hcheck as [Hcheck H6]. apply andb_prop in Hcheck as [Hlo Hhi].
  apply Bool.eqb_prop in H35, H6. rewrite H6, H35.
  split; [exact Hlo|]. split; [exact Hhi|]. unfold churn_label.
  destruct (0.6 <=? probability)%float, (0.35 <=? probability)%float;
    try discriminate Himp; repeat split; intros; try discriminate; try reflexivity;
    intuition discriminate.
Qed.


(** X27. A new incident lowers no one's churn risk. When the webhook has
    created an incident (answer 201), the churn risk of every client,
    scored at any one instant on the client's tickets, tasks and
    appointments as the analytics route does, is afterwards at least what
    it was before: the probability is not smaller and the level is not
    lower. *)
Theorem new_incident_never_lowers_risk `{Builtins} utcnow db data db' r now client :
  Ingest.ingest_zabbix_event utcnow db data = Return (db', r) ->
  Ingest.created r = true ->
  let before :=
    calculate_churn_risk now client (tickets_of db client) (tasks_of db client)
                         (appointments_of db client) in
  let after :=
    calculate_churn_risk now client (tickets_of db' client) (tasks_of db' client)
                         (appointments_of db' client) in
  (before.1 <=? after.1)%float = true /\ label_rank before.2 <= label_rank after.2.
Proof.
  intros Hrun Hcreated.
  destruct (ingest_Return_cases _ _ _ _ _ Hrun)
    as (event_id & raw_severity & message & Hacc &
        [(existing & Hfind & Hupd)|(Hfind & c & when & Hc & Hwhen & Hcreate)]).
  { pose proof (update_existing_spec db data existing (lower (py_str raw_severity)) message)
      as Hspec.
    rewrite Hupd in Hspec. destruct Hspec as (Hcode & _).
    unfold Ingest.created in Hcreated. rewrite Hcode in Hcreated. discriminate. }
  destruct (create_incident_spec utcnow db data c event_id (lower (py_str raw_severity))
              (Ingest.priority_of_severity (lower (py_str raw_severity))) message when Hwhen)
    as (t & i & Hcreate' & _).
  rewrite Hcreate' in Hcreate. injection Hcreate as <- _.
  apply calculate_churn_risk_monotone.
  - unfold tickets_of. cbn [tickets]. rewrite filter_app.
    apply submseteq_inserts_r. reflexivity.
  - reflexivity.
  - reflexivity.
Qed.

End AnalyticsFacts.
(** ** Accounts: login and two-factor authentication *)

Section AuthFacts.
Import Auth.
Context `{Builtins} `{Library}.

(** X21. No login without the factors. When [login_user] answers a
    request whose username is text with "Login successful", the account
    it answers with is an account of the database of that username,
    [check_password_hash] accepted the password against the hash of that
    account, and - if the account has two-factor authentication enabled -
    the request carried a code that pyotp verified against the secret of
    the account. When it answers that a code is required (202), the
    password was accepted, the account has two-factor authentication
    enabled and the request carried no code. The route gives no other
    answer. (A username that is a number is compared as its text by the
    database, which the model of the lookup leaves out.) *)
Theorem login_needs_the_factors utcnow users data name answer :
  data !! "username" = Some (JStr name) ->
  login_user utcnow users data = Return answer ->
  exists user password,
    user ∈ users /\
    User.username user = JStr name /\
    data !! "password" = Some password /\
    check_password_hash (User.password_hash user) password = Return true /\
    ((answer = LoginSuccessful user /\
      (User.two_factor_enabled user = true ->
       exists otp, data !! "otp" = Some otp /\ truthy otp = true /\
                   totp_verify (User.two_factor_secret user) (py_str otp) utcnow
                   = Return true)) \/
     (answer = TwoFactorRequired (User.id user) /\
      User.two_factor_enabled user = true /\
      truthy (default JNull (data !! "otp")) = false)).
Proof.
  intros Hu. unfold login_user. rewrite Hu. cbn [default from_option id].
  destruct (truthy (JStr name)) eqn:Htu; cbn [negb orb]; [|discriminate].
  destruct (data !! "password") as [password|] eqn:Hp; cbn [default from_option id];
    [|discriminate].
  destruct (truthy password) eqn:Htp; cbn [negb]; [|discriminate].
  destruct (find _ users) as [user|] eqn:Hfind; [|discriminate].
  apply find_Some_holds in Hfind as [Hname Hin]. apply bool_decide_eq_true in Hname.
  destruct (check_password_hash (User.password_hash user) password) as [[|]| |] eqn:Hcheck;
    cbn [mbind outcome_bind negb]; try discriminate.
  intros Hrun. exists user, password.
  split; [exact Hin|]. split; [exact Hname|]. split; [reflexivity|].
  split; [exact Hcheck|].
  destruct (User.two_factor_enabled user) eqn:Hen.
  - destruct (data !! "otp") as [otp|] eqn:Hotp; cbn [default from_option id] in Hrun |- *.
    + destruct (truthy otp) eqn:Hto; cbn [negb] in Hrun.
      * destruct (totp_verify (User.two_factor_secret user) (py_str otp) utcnow)
          as [[|]| |] eqn:Hv; cbn [mbind outcome_bind negb] in Hrun; try discriminate.
        injection Hrun as <-. left. split; [reflexivity|]. intros _. eauto.
      * injection Hrun as <-. right. done.
    + cbn in Hrun. injection Hrun as <-. right. done.
  - injection Hrun as <-. left. split; [reflexivity|discriminate].
Qed.


Lemma alter_first_find_Forall2 {A} (R : A -> A -> Prop) (P : A -> bool) f (rows : list A) x :
  find P rows = Some x -> R x (f x) -> (forall y, R y y) ->
  Forall2 R rows (Ingest.alter_first P f rows).
Proof.
  intros Hfind Hx Hrefl.
  induction rows as [|y rows IH]; cbn [find Ingest.alter_first] in *; [discriminate|].
  destruct (P y).
  - injection Hfind as ->. constructor; [exact Hx|]. clear -Hrefl.
    induction rows; constructor; auto.
  - constructor; [apply Hrefl|now apply IH].
Qed.

Lemma elem_of_alter_first_find {A} (P : A -> bool) f (rows : list A) x y :
  find P rows = Some x -> y ∈ Ingest.alter_first P f rows -> y ∈ rows \/ y = f x.
Proof.
  intros Hfind. induction rows as [|z rows IH]; cbn [find Ingest.alter_first] in *;
    [discriminate|].
  destruct (P z).
  - injection Hfind as ->. intros [->|Hy]%elem_of_cons; [now right|].
    left. apply elem_of_cons. now right.
  - intros [->|Hy]%elem_of_cons; [left; apply elem_of_cons; now left|].
    destruct (IH Hfind Hy) as [?|?]; [|now right]. left. apply elem_of_cons. now right.
Qed.

(** What the three two-factor routes do when they answer: they rewrite the
    two-factor state of the one account that [user_id] names. *)
Lemma two_factor_Return call users data users' answer :
  two_factor call users data = Return (users', answer) ->
  exists raw user_id user user',
    data !! "user_id" = Some raw /\ py_int raw = Return user_id /\
    find (has_id user_id) users = Some user /\
    users' = Ingest.alter_first (has_id user_id) (fun _ => user') users /\
    same_account user user' /\
    match call with
    | Setup secret =>
        User.two_factor_enabled user' = false /\
        User.two_factor_secret user' = Some secret /\
        answer = SetupStarted secret (provisioning_uri secret (User.email user)) /\
        exists password,
          data !! "password" = Some password /\
          check_password_hash (User.password_hash user) password = Return true
    | Verify utcnow =>
        User.two_factor_enabled user' = true /\
        User.two_factor_secret user' = User.two_factor_secret user /\
        answer = TwoFactorEnabled user' /\
        is_Some (or_None (User.two_factor_secret user)) /\
        exists otp,
          data !! "otp" = Some otp /\
          totp_verify (User.two_factor_secret user) (py_str otp) utcnow = Return true
    | Disable =>
        User.two_factor_enabled user' = false /\
        User.two_factor_secret user' = None /\
        answer = TwoFactorDisabled user' /\
        exists password,
          data !! "password" = Some password /\
          check_password_hash (User.password_hash user) password = Return true
    end.
Proof.
  destruct call as [secret|utcnow|]; cbn [two_factor];
    unfold setup_two_factor, verify_two_factor, disable_two_factor, require_user.
  - destruct (data !! "user_id") as [raw|]; cbn [default from_option id]; [|discriminate].
    destruct (bool_decide (raw = JNull)); cbn [orb]; [discriminate|].
    destruct (data !! "password") as [password|]; cbn [default from_option id];
      [|discriminate].
    destruct (bool_decide (password = JNull)); [discriminate|].
    destruct (py_int raw) as [user_id| |] eqn:Hint; cbn [mbind outcome_bind];
      try discriminate.
    destruct (find (has_id user_id) users) as [user|] eqn:Hfind; cbn [mbind outcome_bind];
      [|destruct (is_INTEGER user_id); discriminate].
    destruct (check_password_hash (User.password_hash user) password) as [[|]| |] eqn:Hc;
      cbn [mbind outcome_bind negb]; try discriminate.
    intros [= <- <-]. pose proof (find_Some_holds _ _ _ Hfind) as [Hid _].
    apply bool_decide_eq_true in Hid.
    exists raw, user_id, user, (User.set_two_factor false (Some secret) user).
    split; [reflexivity|]. split; [exact Hint|]. split; [exact Hfind|].
    split; [unfold write; cbn [User.id User.set_two_factor]; now rewrite Hid|].
    split; [done|]. split; [reflexivity|]. split; [reflexivity|]. split; [reflexivity|].
    eauto.
  - destruct (data !! "user_id") as [raw|]; cbn [default from_option id]; [|discriminate].
    destruct (bool_decide (raw = JNull)); cbn [orb]; [discriminate|].
    destruct (data !! "otp") as [otp|]; cbn [default from_option id]; [|discriminate].
    destruct (bool_decide (otp = JNull)); [discriminate|].
    destruct (py_int raw) as [user_id| |] eqn:Hint; cbn [mbind outcome_bind];
      try discriminate.
    destruct (find (has_id user_id) users) as [user|] eqn:Hfind; cbn [mbind outcome_bind];
      [|destruct (is_INTEGER user_id); discriminate].
    destruct (or_None (User.two_factor_secret user)) as [s|] eqn:Hsecret; [|discriminate].
    destruct (totp_verify (User.two_factor_secret user) (py_str otp) utcnow)
      as [[|]| |] eqn:Hv; cbn [mbind outcome_bind negb]; try discriminate.
    intros [= <- <-]. pose proof (find_Some_holds _ _ _ Hfind) as [Hid _].
    apply bool_decide_eq_true in Hid.
    exists raw, user_id, user,
      (User.set_two_factor true (User.two_factor_secret user) user).
    split; [reflexivity|]. split; [exact Hint|]. split; [exact Hfind|].
    split; [unfold write; cbn [User.id User.set_two_factor]; now rewrite Hid|].
    split; [done|]. split; [reflexivity|]. split; [reflexivity|]. split; [reflexivity|].
    split; [eauto|]. eauto.
  - destruct (data !! "user_id") as [raw|]; cbn [default from_option id]; [|discriminate].
    destruct (bool_decide (raw = JNull)); cbn [orb]; [discriminate|].
    destruct (data !! "password") as [password|]; cbn [default from_option id];
      [|discriminate].
    destruct (bool_decide (password = JNull)); [discriminate|].
    destruct (py_int raw) as [user_id| |] eqn:Hint; cbn [mbind outcome_bind];
      try discriminate.
    destruct (find (has_id user_id) users) as [user|] eqn:Hfind; cbn [mbind outcome_bind];
      [|destruct (is_INTEGER user_id); discriminate].
    destruct (check_password_hash (User.password_hash user) password) as [[|]| |] eqn:Hc;
      cbn [mbind outcome_bind negb]; try discriminate.
    intros [= <- <-]. pose proof (find_Some_holds _ _ _ Hfind) as [Hid _].
    apply bool_decide_eq_true in Hid.
    exists raw, user_id, user, (User.set_two_factor false None user).
    split; [reflexivity|]. split; [exact Hint|]. split; [exact Hfind|].
    split; [unfold write; cbn [User.id User.set_two_factor]; now rewrite Hid|].
    split; [done|]. split; [reflexivity|]. split; [reflexivity|]. split; [reflexivity|].
    eauto.
Qed.

Lemma same_account_refl u : same_account u u.
Proof. done. Qed.

(** X22. Two-factor authentication is switched on by a verified code
    only. After any of the three two-factor routes has answered, an
    account that has two-factor authentication enabled either was in
    that state, unchanged, before the request, or the request was a
    verification whose code pyotp accepted against the secret of that
    account, a secret that is not empty. *)
Theorem two_factor_on_only_by_code call users data users' answer u' :
  two_factor call users data = Return (users', answer) ->
  u' ∈ users' -> User.two_factor_enabled u' = true ->
  u' ∈ users \/
  exists utcnow otp,
    call = Verify utcnow /\ data !! "otp" = Some otp /\
    is_Some (or_None (User.two_factor_secret u')) /\
    totp_verify (User.two_factor_secret u') (py_str otp) utcnow = Return true.
Proof.
  intros Hrun Hin Hen.
  destruct (two_factor_Return _ _ _ _ _ Hrun)
    as (raw & user_id & user & user' & _ & _ & Hfind & -> & _ & Hcall).
  destruct (elem_of_alter_first_find _ _ _ _ _ Hfind Hin) as [Hold| ->]; [now left|].
  destruct call as [secret|utcnow|].
  - destruct Hcall as (Hoff & _). congruence.
  - destruct Hcall as (_ & Hsecret & _ & Hsome & otp & Hotp & Hv).
    right. exists utcnow, otp. rewrite Hsecret. done.
  - destruct Hcall as (Hoff & _). congruence.
Qed.

(** X23. The two-factor routes touch the two-factor state of one account
    and nothing else. After any of them has answered, the table holds the
    same accounts in the same order, each with its key, username, email
    and password hash; every account but the one that [user_id] names is
    as it was; and if before the request every account with two-factor
    authentication enabled had a secret, the same holds afterwards. *)
Theorem two_factor_routes_keep_accounts call users data users' answer :
  two_factor call users data = Return (users', answer) ->
  exists raw user_id,
    data !! "user_id" = Some raw /\ py_int raw = Return user_id /\
    Forall2 (fun u u' => same_account u u' /\ (User.id u <> user_id -> u' = u))
            users users' /\
    (Forall coherent users -> Forall coherent users').
Proof.
  intros Hrun.
  destruct (two_factor_Return _ _ _ _ _ Hrun)
    as (raw & user_id & user & user' & Hraw & Hint & Hfind & -> & Hsame & Hcall).
  pose proof (find_Some_holds _ _ _ Hfind) as [Hid Huser]. apply bool_decide_eq_true in Hid.
  exists raw, user_id. split; [exact Hraw|]. split; [exact Hint|]. split.
  - apply (alter_first_find_Forall2 _ _ _ _ user Hfind).
    + split; [exact Hsame|]. intros Hne. congruence.
    + intros y. split; [apply same_account_refl|reflexivity].
  - intros Hall. apply Forall_forall. intros u' Hu'.
    destruct (elem_of_alter_first_find _ _ _ _ _ Hfind Hu') as [Hold| ->].
    + rewrite Forall_forall in Hall. now apply Hall.
    + unfold coherent. destruct call as [secret|utcnow|].
      * destruct Hcall as (Hoff & _). congruence.
      * destruct Hcall as (_ & -> & _ & Hsome & _). intros _. exact Hsome.
      * destruct Hcall as (Hoff & _). congruence.
Qed.

(** X24. Who may change the two-factor state. Setting two-factor
    authentication up and disabling it answer only when
    [check_password_hash] accepts the password of the request against the
    hash of the account that [user_id] names. *)
Theorem two_factor_setup_and_disable_need_password call users data users' answer :
  two_factor call users data = Return (users', answer) ->
  (forall utcnow, call <> Verify utcnow) ->
  exists raw user password,
    data !! "user_id" = Some raw /\ py_int raw = Return (User.id user) /\
    user ∈ users /\ data !! "password" = Some password /\
    check_password_hash (User.password_hash user) password = Return true.
Proof.
  intros Hrun Hcall'.
  destruct (two_factor_Return _ _ _ _ _ Hrun)
    as (raw & user_id & user & user' & Hraw & Hint & Hfind & _ & _ & Hcall).
  pose proof (find_Some_holds _ _ _ Hfind) as [Hid Huser]. apply bool_decide_eq_true in Hid.
  destruct call as [secret|utcnow|].
  - destruct Hcall as (_ & _ & _ & password & Hp & Hc).
    exists raw, user, password. rewrite Hid. done.
  - now destruct (Hcall' utcnow).
  - destruct Hcall as (_ & _ & _ & password & Hp & Hc).
    exists raw, user, password. rewrite Hid. done.
Qed.

Lemma NoDup_fmap_inj_on {A B} (f : A -> B) (l : list A) x y :
  NoDup (f <$> l) -> x ∈ l -> y ∈ l -> f x = f y -> x = y.
Proof.
  induction l as [|z l IH]; cbn [fmap list_fmap]; intros Hnd Hx Hy Hf.
  - now apply elem_of_nil in Hx.
  - apply NoDup_cons in Hnd as [Hz Hnd].
    apply elem_of_cons in Hx as [->|Hx]; apply elem_of_cons in Hy as [->|Hy].
    + reflexivity.
    + exfalso. apply Hz. rewrite Hf. now apply list_elem_of_fmap_2.
    + exfalso. apply Hz. rewrite <- Hf. now apply list_elem_of_fmap_2.
    + now apply IH.
Qed.

Lemma find_alter_first_other {A} (P Q : A -> bool) (rows : list A) x y :
  find P rows = Some x ->
  Q y = true ->
  (forall z, z ∈ rows -> Q z = true -> z = x) ->
  find Q (Ingest.alter_first P (fun _ => y) rows) = Some y.
Proof.
  intros Hfind Hy Huniq.
  induction rows as [|z rows IH]; cbn [find Ingest.alter_first] in *; [discriminate|].
  destruct (P z) eqn:HP.
  - injection Hfind as ->. cbn [find]. now rewrite Hy.
  - cbn [find]. destruct (Q z) eqn:HQ.
    + assert (z = x) as -> by (apply Huniq; [apply elem_of_cons; now left|exact HQ]).
      apply find_Some_holds in Hfind as [HPx _]. congruence.
    + apply IH; [exact Hfind|]. intros w Hw. apply Huniq. apply elem_of_cons. now right.
Qed.

(** X25. Setting two-factor authentication up again switches it off. Once
    [setup_two_factor] has answered - which takes the password only - the
    account has a new secret and two-factor authentication disabled,
    whatever its state was: until a code is verified, [login_user] answers
    "Login successful" to the username and a password that
    [check_password_hash] accepts, without asking for a code. (Usernames
    are unique in the table, as the schema declares.) *)
Theorem setup_switches_two_factor_off secret users data users' answer :
  NoDup (User.username <$> users) ->
  setup_two_factor secret users data = Return (users', answer) ->
  exists user user',
    user ∈ users /\ user' ∈ users' /\ same_account user user' /\
    User.two_factor_enabled user' = false /\
    User.two_factor_secret user' = Some secret /\
    forall utcnow data' password,
      data' !! "username" = Some (User.username user) ->
      truthy (User.username user) = true ->
      data' !! "password" = Some password -> truthy password = true ->
      check_password_hash (User.password_hash user) password = Return true ->
      login_user utcnow users' data' = Return (LoginSuccessful user').
Proof.
  intros Hnd Hrun.
  destruct (two_factor_Return (Setup secret) _ _ _ _ Hrun)
    as (raw & user_id & user & user' & _ & _ & Hfind & -> & Hsame & Hoff & Hsecret & _).
  pose proof (find_Some_holds _ _ _ Hfind) as [_ Huser].
  destruct Hsame as (Hid & Hname & Hemail & Hhash).
  assert (Hfind' : find (fun u => bool_decide (User.username u = User.username user))
                        (Ingest.alter_first (has_id user_id) (fun _ => user') users)
                   = Some user').
  { apply (find_alter_first_other _ _ _ user); [exact Hfind| |].
    - apply bool_decide_eq_true. exact Hname.
    - intros z Hz Hq. apply bool_decide_eq_true in Hq.
      apply (NoDup_fmap_inj_on User.username users); assumption. }
  exists user, user'. split; [exact Huser|]. split.
  { apply find_Some_holds in Hfind' as [_ Hin]. exact Hin. }
  split; [done|]. split; [exact Hoff|]. split; [exact Hsecret|].
  intros utcnow data' password Hu Htu Hp Htp Hcheck.
  unfold login_user. rewrite Hu, Hp. cbn [default from_option id]. rewrite Htu, Htp.
  cbn [negb orb]. rewrite Hfind', Hhash, Hcheck. cbn [mbind outcome_bind negb].
  now rewrite Hoff.
Qed.

End AuthFacts.
(** ** Completing a task *)

Section TaskFacts.
Import Scoring Tasks.

Lemma count_alter_first {A} (Q : A -> Prop) `{forall x, Decision (Q x)}
    (P : A -> bool) (rows : list A) x y :
  find P rows = Some x ->
  count Q (Ingest.alter_first P (fun _ => y) rows) =
  count Q rows - (if decide (Q x) then 1 else 0) + (if decide (Q y) then 1 else 0).
Proof.
  intros Hfind. induction rows as [|z rows IH]; cbn [find Ingest.alter_first] in *;
    [discriminate|].
  destruct (P z).
  - injection Hfind as ->. rewrite !count_cons. lia.
  - rewrite !count_cons, IH by exact Hfind. lia.
Qed.

(** X26. A completed task no longer counts. [complete_task] answers 404
    exactly when the key of the URL is an integer of the INTEGER range
    and the key of no task, and [OverflowError] escapes it exactly when
    the key is beyond that range; otherwise it sets the status of that
    one task to "completed" (and stamps it) and leaves every other row of
    the database as it is. The task is then neither overdue, for the
    churn scorer, nor open, for the engineer load: the number of overdue
    tasks and the number of open tasks with an engineer each go down by
    one if the task counted before, and stay as they were if it did
    not. *)
Theorem complete_task_effect db task_id :
  match complete_task db task_id with
  | Return (db', task') =>
      exists old,
        find (has_id task_id) (tasks db) = Some old /\
        task' = set_status "completed" old /\
        Task.status task' = "completed" /\
        tasks db' = Ingest.alter_first (has_id task_id) (fun _ => task') (tasks db) /\
        clients db' = clients db /\ tickets db' = tickets db /\
        appointments db' = appointments db /\ incidents db' = incidents db /\
        (forall today,
           count (overdue today) (tasks db') =
           count (overdue today) (tasks db) - (if decide (overdue today old) then 1 else 0)) /\
        count counted_task (tasks db') =
          count counted_task (tasks db) - (if decide (counted_task old) then 1 else 0)
  | Abort code =>
      code = 404 /\ (task_id ∉ Task.id <$> tasks db) /\ is_INTEGER task_id = true
  | Uncaught e =>
      e = OverflowError /\ (task_id ∉ Task.id <$> tasks db) /\ is_INTEGER task_id = false
  end.
Proof.
  unfold complete_task.
  destruct (find (has_id task_id) (tasks db)) as [old|] eqn:Hfind.
  - exists old. split; [reflexivity|]. split; [reflexivity|]. split; [reflexivity|].
    cbn [tasks clients tickets appointments incidents].
    repeat (split; [reflexivity|]).
    set (task' := set_status "completed" old).
    assert (Hnot_overdue : forall today, ~ overdue today task').
    { intros today [Hst _]. now apply Hst. }
    assert (Hnot_counted : ~ counted_task task').
    { intros [_ Hst]. now apply Hst. }
    split.
    + intros today. rewrite (count_alter_first _ _ _ old) by exact Hfind.
      rewrite (decide_False (P := overdue today task')) by apply Hnot_overdue. lia.
    + rewrite (count_alter_first _ _ _ old) by exact Hfind.
      rewrite (decide_False (P := counted_task task')) by exact Hnot_counted. lia.
  - assert (Hnot : task_id ∉ Task.id <$> tasks db).
    { intros Hin. apply list_elem_of_fmap in Hin as (t & Ht & Hin).
      pose proof (find_None_not _ _ _ Hfind Hin) as Hno.
      apply bool_decide_eq_false in Hno. congruence. }
    destruct (is_INTEGER task_id); repeat split; assumption.
Qed.

End TaskFacts.
(** ** The tags of a knowledge base article *)

Section TagFacts.
Import KnowledgeBase.

Lemma split_comma_not_nil text : split_comma text <> [].
Proof.
  destruct text as [|c text]; cbn [split_comma]; [discriminate|].
  destruct (Ascii.eqb c ","); [discriminate|]. destruct (split_comma text); discriminate.
Qed.

(** Splitting distributes over a comma. *)
Lemma split_comma_append a b :
  split_comma (String.append a (String "," b)) = (split_comma a ++ split_comma b)%list.
Proof.
  induction a as [|c a IH]; [reflexivity|].
  change (String.append (String c a) (String "," b))
    with (String c (String.append a (String "," b))).
  cbn [split_comma]. rewrite IH. destruct (Ascii.eqb c ","); [reflexivity|].
  destruct (split_comma a) as [|piece pieces] eqn:Ha; [|reflexivity].
  now apply split_comma_not_nil in Ha.
Qed.

Lemma split_comma_join tags :
  tags <> [] -> split_comma (join_comma tags) = tags ≫= split_comma.
Proof.
  induction tags as [|tag tags IH]; [done|]. intros _.
  destruct tags as [|tag' tags].
  - cbn. now rewrite app_nil_r.
  - change (join_comma (tag :: tag' :: tags))
      with (String.append tag (String "," (join_comma (tag' :: tags)))).
    rewrite split_comma_append, IH by discriminate. reflexivity.
Qed.

(** A tag without comma is one piece. *)
Lemma split_comma_one tag :
  Forall (fun c => c <> ","%char) (list_ascii_of_string tag) -> split_comma tag = [tag].
Proof.
  induction tag as [|c tag IH]; cbn [list_ascii_of_string split_comma]; [reflexivity|].
  intros [Hc Htag]%Forall_cons. apply Ascii.eqb_neq in Hc. rewrite Hc.
  now rewrite IH.
Qed.

Lemma tag_list_join tags :
  tag_list (Some (join_comma tags)) =
  filter (fun tag => tag <> "") (strip <$> (tags ≫= split_comma)).
Proof.
  unfold tag_list.
  assert (Htext : default "" (or_None (Some (join_comma tags))) = join_comma tags).
  { cbn [or_None]. destruct (String.eqb_spec (join_comma tags) "") as [->|_]; reflexivity. }
  rewrite Htext. destruct tags as [|tag tags]; [reflexivity|].
  now rewrite split_comma_join.
Qed.

(** X28. The tags of an article survive the round trip through the text
    column. For tags of ASCII characters sent as an array, the list that
    [to_dict] reports is the list of the pieces of the tags between
    commas, each stripped of surrounding whitespace, without the empty
    ones, in order; so tags that are not empty, hold no comma and have no
    surrounding whitespace come back as they were sent, while a tag that
    holds a comma comes back as several tags. *)
Theorem tags_round_trip tags :
  Forall is_ascii tags ->
  tag_list (stored_tags (TagList tags)) =
    filter (fun tag => tag <> "") (strip <$> (tags ≫= split_comma)) /\
  (Forall (fun tag => tag <> "" /\ strip tag = tag /\
                      Forall (fun c => c <> ","%char) (list_ascii_of_string tag)) tags ->
   tag_list (stored_tags (TagList tags)) = tags).
Proof.
  intros _. cbn [stored_tags]. rewrite tag_list_join. split; [reflexivity|].
  intros Hclean. induction Hclean as [|tag tags (Hne & Hstrip & Hcomma) _ IH]; [reflexivity|].
  cbn [mbind list_bind]. rewrite (split_comma_one tag Hcomma).
  cbn [app fmap list_fmap]. rewrite filter_cons_True by (now rewrite Hstrip).
  rewrite Hstrip. f_equal. exact IH.
Qed.

End TagFacts.
(** ** Further concrete runs *)

Section MoreRuns.
Import Ingest Schedule.

Lemma sample_event_accepted :
  @accepted Plain.builtins Sample.fresh_db Sample.event
            (JStr "EVT-1") (JStr "disaster") (JStr "down").
Proof.
  split; [reflexivity|]. split; [reflexivity|]. split; [reflexivity|].
  exists (JInt 5), 5. split; [reflexivity|]. split; [reflexivity|].
  exists Sample.acme. reflexivity.
Qed.

Lemma sample_first_run :
  @ingest_zabbix_event Plain.builtins 1000 Sample.fresh_db Sample.event
  = Return (Sample.db_after_first, Sample.first_response).
Proof. vm_compute. reflexivity. Qed.

Lemma fresh_db_integrity : integrity Sample.fresh_db.
Proof.
  split; cbn; try apply NoDup_nil_2.
  - intros i tid Hi. now apply elem_of_nil in Hi.
  - intros i Hi. now apply elem_of_nil in Hi.
  - intros t Ht. now apply elem_of_nil in Ht.
Qed.

Lemma ingest_opens_ticket_witness :
  exists db' r t,
    @ingest_zabbix_event Plain.builtins 1000 Sample.fresh_db Sample.event = Return (db', r) /\
    status_code r = 201 /\
    ticket r = Some t /\
    Ticket.status t = "open" /\
    Ticket.priority t = priority_of_severity "disaster" /\
    Ticket.description t = JStr "down" /\
    Ticket.assigned_to t = JStr "Monitoring".
Proof.
  destruct (@ingest_opens_ticket Plain.builtins 1000 Sample.fresh_db Sample.event
              (JStr "EVT-1") (JStr "disaster") "down" "Monitoring" 1000)
    as (db' & r & t & Hrun & Hcode & Ht & _ & _ & _ & _ & Hst & Hprio & _ & Hdesc
        & Hassign & _).
  - apply sample_event_accepted.
  - reflexivity.
  - reflexivity.
  - reflexivity.
  - exists db', r, t. split; [exact Hrun|]. split; [exact Hcode|]. split; [exact Ht|].
    split; [exact Hst|]. split; [exact Hprio|]. split; [exact Hdesc|exact Hassign].
Defined.


Lemma ingest_keeps_integrity_witness : integrity Sample.db_after_first.
Proof.
  apply (@ingest_keeps_integrity Plain.builtins 1000 Sample.fresh_db Sample.event
           Sample.db_after_first Sample.first_response).
  - apply fresh_db_integrity.
  - apply sample_first_run.
Defined.

Lemma ingest_frame_witness :
  clients Sample.db_after_first = clients Sample.fresh_db /\
  exists kept added,
    tickets Sample.db_after_first = (kept ++ added)%list /\ (length added <= 1)%nat /\
    Forall2 kept_or_resolved (tickets Sample.fresh_db) kept.
Proof.
  destruct (@ingest_frame Plain.builtins 1000 Sample.fresh_db Sample.event
              Sample.db_after_first Sample.first_response sample_first_run)
    as (Hclients & _ & _ & Htickets & _).
  split; [exact Hclients|exact Htickets].
Defined.


Lemma optimiser_covers_the_day_witness :
  exists plan,
    @optimise_schedule Plain.builtins 0 SampleDay.overlapping (SampleDay.request 30)
    = Return plan /\
    appointment_id <$> suggestions plan =
      Appointment.id <$> scheduled_on (date plan) (appointments SampleDay.overlapping) /\
    appointments_considered plan = Z.of_nat (length (suggestions plan)).
Proof.
  destruct (@optimise_schedule Plain.builtins 0 SampleDay.overlapping (SampleDay.request 30))
    as [plan| |] eqn:Hrun; [|vm_compute in Hrun; discriminate..].
  exists plan. split; [reflexivity|].
  destruct (@optimiser_covers_the_day Plain.builtins 0 SampleDay.overlapping
              (SampleDay.request 30) plan Hrun) as (_ & Hids & _ & _ & _ & Hn & _).
  split; [exact Hids|exact Hn].
Defined.

Lemma optimiser_counts_reassignments_witness :
  exists plan,
    @optimise_schedule Plain.builtins 0 Demo.unassigned_day (SampleDay.request 30)
    = Return plan /\
    reassignments plan =
      Scoring.count (fun s => unassigned (assigned_engineer s)) (suggestions plan).
Proof.
  destruct (@optimise_schedule Plain.builtins 0 Demo.unassigned_day (SampleDay.request 30))
    as [plan| |] eqn:Hrun; [|vm_compute in Hrun; discriminate..].
  exists plan. split; [reflexivity|].
  apply (@optimiser_counts_reassignments Plain.builtins 0 Demo.unassigned_day
           (SampleDay.request 30) plan Hrun).
Defined.

Lemma optimiser_suggestion_times_witness :
  exists plan,
    @optimise_schedule Plain.builtins 0 SampleDay.overlapping (SampleDay.request 30)
    = Return plan /\
    Forall (fun s => travel_buffer_minutes s = 30 /\ current_start s <= optimized_start s)
           (suggestions plan).
Proof.
  destruct (@optimise_schedule Plain.builtins 0 SampleDay.overlapping (SampleDay.request 30))
    as [plan| |] eqn:Hrun; [|vm_compute in Hrun; discriminate..].
  exists plan. split; [reflexivity|]. apply Forall_forall. intros s Hs.
  destruct (@optimiser_suggestion_times Plain.builtins 0 SampleDay.overlapping
              (SampleDay.request 30) plan 30 480 s Hrun) as (Hbuf & Hle & _).
  - reflexivity.
  - reflexivity.
  - exact Hs.
  - split; [exact Hbuf|exact Hle].
Defined.

Lemma optimiser_never_before_day_start_witness :
  exists plan,
    @optimise_schedule Plain.builtins 0 Demo.unassigned_day (SampleDay.request 30)
    = Return plan /\
    Forall (fun s => day_start_of (date plan) <= optimized_start s) (suggestions plan).
Proof.
  destruct (@optimise_schedule Plain.builtins 0 Demo.unassigned_day (SampleDay.request 30))
    as [plan| |] eqn:Hrun; [|vm_compute in Hrun; discriminate..].
  exists plan. split; [reflexivity|]. apply Forall_forall.
  apply (@optimiser_never_before_day_start Plain.builtins 0 Demo.unassigned_day
           (SampleDay.request 30) plan 30 Hrun).
  - reflexivity.
  - intros a Ha _. vm_compute in Ha.
    apply elem_of_cons in Ha as [->|Ha]; [vm_compute; discriminate|].
    apply list_elem_of_singleton in Ha as ->. vm_compute. discriminate.
Defined.

Lemma unassigned_visit_goes_to_first_free_witness :
  exists st' s before slot after,
    step Sample.fresh_db (SampleDay.at_ 9 0) (SampleDay.at_ 17 0) 30 Demo.bob_free_first
         (visit 3 (SampleDay.at_ 9 15) 60 None) = Return st' /\
    suggested st' = [s] /\
    engineer_slots Demo.bob_free_first =
      (before ++ (recommended_engineer s, slot) :: after)%list /\
    Forall (fun kv => slot < kv.2) before.
Proof.
  destruct (step Sample.fresh_db (SampleDay.at_ 9 0) (SampleDay.at_ 17 0) 30
              Demo.bob_free_first (visit 3 (SampleDay.at_ 9 15) 60 None))
    as [st'| |] eqn:Hstep; [|vm_compute in Hstep; discriminate..].
  destruct (unassigned_visit_goes_to_first_free Sample.fresh_db (SampleDay.at_ 9 0)
              (SampleDay.at_ 17 0) 30 Demo.bob_free_first
              (visit 3 (SampleDay.at_ 9 15) 60 None) st')
    as (s & before & slot & after & Hs & Hslots & Hbefore & _).
  - reflexivity.
  - discriminate.
  - cbn. apply NoDup_cons. split.
    + intros Hin. apply list_elem_of_singleton in Hin. discriminate.
    + apply NoDup_singleton.
  - exact Hstep.
  - exists st', s, before, slot, after. split; [reflexivity|].
    split; [exact Hs|]. split; [exact Hslots|exact Hbefore].
Defined.

Lemma optimiser_invents_no_engineer_witness :
  exists plan,
    @optimise_schedule Plain.builtins 0 Demo.unassigned_day (SampleDay.request 30)
    = Return plan /\
    Forall (fun s =>
              recommended_engineer s ∈ py_str <$> engineers (SampleDay.request 30) \/
              (exists a, a ∈ scheduled_on (date plan) (appointments Demo.unassigned_day) /\
                         or_None (Appointment.assigned_to a) = Some (recommended_engineer s)) \/
              (recommended_engineer s = "Unassigned" /\ engineers (SampleDay.request 30) = []))
           (suggestions plan).
Proof.
  destruct (@optimise_schedule Plain.builtins 0 Demo.unassigned_day (SampleDay.request 30))
    as [plan| |] eqn:Hrun; [|vm_compute in Hrun; discriminate..].
  exists plan. split; [reflexivity|]. apply Forall_forall. intros s Hs.
  apply (@optimiser_invents_no_engineer Plain.builtins 0 Demo.unassigned_day
           (SampleDay.request 30) plan s Hrun Hs).
Defined.

Lemma churn_risk_monotone_witness :
  let '(p, label) := Scoring.calculate_churn_risk 1000 Sample.acme [] [] [] in
  let '(p', label') := Scoring.calculate_churn_risk 1000 Sample.acme [Demo.outage] [] [] in
  (p <=? p')%float = true /\ label_rank label <= label_rank label'.
Proof.
  apply (churn_risk_monotone 1000 Sample.acme [] [] [] [Demo.outage] [] []).
  - apply submseteq_nil_l.
  - reflexivity.
  - reflexivity.
Defined.

Lemma churn_baseline_witness :
  Scoring.calculate_churn_risk 1000 Sample.acme [] [] [] = (0.05%float, "low").
Proof.
  apply (churn_baseline 1000 Sample.acme [] [] []).
  - constructor.
  - constructor.
  - constructor.
  - vm_compute. discriminate.
Defined.

Lemma create_client_appointment_stores_witness :
  exists db' a,
    @Appointments.create_client_appointment Plain.builtins Demo.zones Sample.fresh_db 5
      Demo.new_visit = Return (db', a) /\
    well_formed a /\
    Appointment.client_id a = 5.
Proof.
  destruct (@Appointments.create_client_appointment Plain.builtins Demo.zones
              Sample.fresh_db 5 Demo.new_visit)
    as [[db' a]| |] eqn:Hrun; [|vm_compute in Hrun; discriminate..].
  exists db', a. split; [reflexivity|].
  destruct (@create_client_appointment_stores Plain.builtins Demo.zones Sample.fresh_db 5
              Demo.new_visit db' a Hrun) as (Hwf & _ & _ & Hclient & _).
  split; [exact Hwf|exact Hclient].
Defined.

Lemma update_appointment_changes_witness :
  exists db' a,
    @Appointments.update_appointment Plain.builtins Demo.zones SampleDay.overlapping 1
      Demo.longer_visit = Return (db', a) /\
    Forall well_formed (appointments db').
Proof.
  destruct (@Appointments.update_appointment Plain.builtins Demo.zones
              SampleDay.overlapping 1 Demo.longer_visit)
    as [[db' a]| |] eqn:Hrun; [|vm_compute in Hrun; discriminate..].
  exists db', a. split; [reflexivity|].
  destruct (@update_appointment_changes Plain.builtins Demo.zones SampleDay.overlapping 1
              Demo.longer_visit db' a Hrun) as (old & _ & _ & _ & _ & _ & _ & _ & _ & Hall).
  apply Hall. cbn.
  repeat constructor; first [reflexivity|apply elem_of_cons; now left].
Defined.

Lemma analytics_reported_probability_witness :
  Forall (fun p =>
            Analytics.churn_level p = "high" <->
            (0.6 <=? Analytics.churn_probability p)%float = true)
         (Analytics.client_churn
            (Analytics.analytics_forecasts (fun _ => 1000) Sample.db_after_first)).
Proof.
  apply Forall_forall. intros p Hp.
  destruct (analytics_reported_probability (fun _ => 1000) Sample.db_after_first p Hp)
    as (_ & _ & Hhigh & _).
  exact Hhigh.
Defined.

Lemma new_incident_never_lowers_risk_witness :
  let before :=
    Scoring.calculate_churn_risk 2000 Sample.acme
      (Analytics.tickets_of Sample.fresh_db Sample.acme)
      (Analytics.tasks_of Sample.fresh_db Sample.acme)
      (Analytics.appointments_of Sample.fresh_db Sample.acme) in
  let after :=
    Scoring.calculate_churn_risk 2000 Sample.acme
      (Analytics.tickets_of Sample.db_after_first Sample.acme)
      (Analytics.tasks_of Sample.db_after_first Sample.acme)
      (Analytics.appointments_of Sample.db_after_first Sample.acme) in
  (before.1 <=? after.1)%float = true /\ label_rank before.2 <= label_rank after.2.
Proof.
  apply (@new_incident_never_lowers_risk Plain.builtins 1000 Sample.fresh_db Sample.event
           Sample.db_after_first Sample.first_response 2000 Sample.acme).
  - apply sample_first_run.
  - reflexivity.
Defined.

Lemma login_needs_the_factors_witness :
  exists user password,
    user ∈ [Demo.alice] /\
    User.username user = JStr "alice" /\
    Demo.login !! "password" = Some password /\
    @Auth.check_password_hash Demo.library (User.password_hash user) password = Return true.
Proof.
  destruct (@login_needs_the_factors Plain.builtins Demo.library 0 [Demo.alice] Demo.login
              "alice" (Auth.LoginSuccessful Demo.alice))
    as (user & password & Hin & Hname & Hp & Hcheck & _).
  - reflexivity.
  - vm_compute. reflexivity.
  - exists user, password. split; [exact Hin|]. split; [exact Hname|].
    split; [exact Hp|exact Hcheck].
Defined.

Lemma two_factor_verify_run :
  @two_factor Plain.builtins Demo.library (Verify 0) [Demo.alice_pending] Demo.with_code
  = Return ([Demo.alice], Auth.TwoFactorEnabled Demo.alice).
Proof. vm_compute. reflexivity. Qed.

Lemma two_factor_disable_run :
  @two_factor Plain.builtins Demo.library Disable [Demo.alice] Demo.with_password
  = Return ([User.set_two_factor false None Demo.alice],
            Auth.TwoFactorDisabled (User.set_two_factor false None Demo.alice)).
Proof. vm_compute. reflexivity. Qed.

Lemma two_factor_on_only_by_code_witness :
  Demo.alice ∈ [Demo.alice_pending] \/
  exists utcnow otp,
    Verify 0 = Verify utcnow /\ Demo.with_code !! "otp" = Some otp /\
    is_Some (or_None (User.two_factor_secret Demo.alice)) /\
    @Auth.totp_verify Demo.library (User.two_factor_secret Demo.alice) (py_str otp) utcnow
    = Return true.
Proof.
  apply (@two_factor_on_only_by_code Plain.builtins Demo.library (Verify 0)
           [Demo.alice_pending] Demo.with_code [Demo.alice]
           (Auth.TwoFactorEnabled Demo.alice) Demo.alice).
  - apply two_factor_verify_run.
  - apply elem_of_cons. now left.
  - reflexivity.
Defined.

Lemma two_factor_routes_keep_accounts_witness :
  exists raw user_id,
    Demo.with_code !! "user_id" = Some raw /\
    @py_int Plain.builtins raw = Return user_id /\
    Forall2 (fun u u' => same_account u u' /\ (User.id u <> user_id -> u' = u))
            [Demo.alice_pending] [Demo.alice] /\
    (Forall coherent [Demo.alice_pending] -> Forall coherent [Demo.alice]).
Proof.
  apply (@two_factor_routes_keep_accounts Plain.builtins Demo.library (Verify 0)
           [Demo.alice_pending] Demo.with_code [Demo.alice]
           (Auth.TwoFactorEnabled Demo.alice)).
  apply two_factor_verify_run.
Defined.

Lemma two_factor_setup_and_disable_need_password_witness :
  exists raw user password,
    Demo.with_password !! "user_id" = Some raw /\
    @py_int Plain.builtins raw = Return (User.id user) /\
    user ∈ [Demo.alice] /\ Demo.with_password !! "password" = Some password /\
    @Auth.check_password_hash Demo.library (User.password_hash user) password = Return true.
Proof.
  apply (@two_factor_setup_and_disable_need_password Plain.builtins Demo.library Disable
           [Demo.alice] Demo.with_password
           [User.set_two_factor false None Demo.alice]
           (Auth.TwoFactorDisabled (User.set_two_factor false None Demo.alice))).
  - apply two_factor_disable_run.
  - discriminate.
Defined.

Lemma setup_switches_two_factor_off_witness :
  exists users' answer user',
    @Auth.setup_two_factor Plain.builtins Demo.library "NEWSECRET" [Demo.alice]
      Demo.with_password = Return (users', answer) /\
    User.two_factor_enabled Demo.alice = true /\
    @Auth.login_user Plain.builtins Demo.library 0 users' Demo.login_without_code
    = Return (Auth.LoginSuccessful user').
Proof.
  destruct (@Auth.setup_two_factor Plain.builtins Demo.library "NEWSECRET" [Demo.alice]
              Demo.with_password) as [[users' answer]| |] eqn:Hrun;
    [|vm_compute in Hrun; discriminate..].
  destruct (@setup_switches_two_factor_off Plain.builtins Demo.library "NEWSECRET"
              [Demo.alice] Demo.with_password users' answer)
    as (user & user' & Hin & _ & _ & _ & _ & Hlogin).
  - cbn. apply NoDup_singleton.
  - exact Hrun.
  - apply list_elem_of_singleton in Hin as ->.
    exists users', answer, user'. split; [reflexivity|]. split; [reflexivity|].
    apply (Hlogin 0 Demo.login_without_code (JStr "correct horse")); reflexivity.
Defined.

Lemma tags_round_trip_witness :
  KnowledgeBase.tag_list
    (KnowledgeBase.stored_tags (KnowledgeBase.TagList ["vpn"; "fire wall"]))
  = ["vpn"; "fire wall"].
Proof.
  apply (tags_round_trip ["vpn"; "fire wall"]).
  - unfold is_ascii. repeat constructor.
  - repeat constructor; discriminate.
Defined.

End MoreRuns.
